(** * Hybrid retrieval and reranking: a shallow embedding of
      [backend/app/services/retriever.py] and the parts of
      [vector_store.py], [database.py] and [models/request.py] it uses.

    Conventions of the embedding.

    - Python numbers (the [int] and [float] values held by scores,
      coordinates, radii and instants) are exact rationals [Q]; the
      rounding of IEEE-754 doubles is not modelled, and equality of
      numbers is [Qeq] ([==]).
    - A Python expression that can raise is a value of [result]: [Ok v]
      when it returns [v], [Raise e] when it raises [e].
    - Candidates are the dictionaries [{"id", "score", "payload"}] built
      by [VectorStore.search] and [HybridRetriever._db_retrieval]. The
      list [_rerank] receives is [list(merged.values())]: its elements
      are filed under distinct keys and a dictionary has one
      ["entry_id"], so they are distinct objects, and the in-place
      update of ["score"] by the loop of [_rerank] is a map over values.
    - A Python [dict] keeps insertion order, and [list(d.values())]
      follows it, so [merged] is an association list.
    - The index and the database are functions from what they are asked
      to what they answer. That the database applies the conditions of
      the statement it is sent is a hypothesis of the properties that
      depend on it ([honours_dwithin]). *)

From Stdlib Require Import List String Bool ZArith QArith Qminmax Qabs.
From Stdlib Require Import Lia Lqa Sorted Permutation.
Import ListNotations.

Open Scope Q_scope.

(* ------------------------------------------------------------------ *)
(** ** Exceptions *)

Inductive exn : Type :=
| TypeError
| ZeroDivisionError
| AttributeError
| Exception (msg : string).

Inductive result (A : Type) : Type :=
| Ok (a : A)
| Raise (e : exn).

Arguments Ok {A} a.
Arguments Raise {A} e.

Definition bind {A B : Type} (m : result A) (k : A -> result B) : result B :=
  match m with
  | Ok a => k a
  | Raise e => Raise e
  end.

Notation "x <- m ;; k" := (bind m (fun x => k))
  (at level 61, m at next level, right associativity).

Fixpoint mapM {A B : Type} (f : A -> result B) (l : list A) : result (list B) :=
  match l with
  | [] => Ok []
  | a :: l' => b <- f a ;; bs <- mapM f l' ;; Ok (b :: bs)
  end.

Definition is_ok {A : Type} (m : result A) : bool :=
  match m with Ok _ => true | Raise _ => false end.

(* ------------------------------------------------------------------ *)
(** ** Python arithmetic on numbers that may be [None] *)

Module Py.

(** [a < b] on numbers. *)
Definition ltb (a b : Q) : bool := negb (Qle_bool b a).

(** [a <= b] on numbers. *)
Definition leb (a b : Q) : bool := Qle_bool a b.

(** [max(a, b)]: the first argument unless the second is greater. *)
Definition max (a b : Q) : Q := if ltb a b then b else a.

(** [min(a, b)]: the first argument unless the second is smaller. *)
Definition min (a b : Q) : Q := if ltb b a then b else a.

(** [abs(a)]. *)
Definition abs (a : Q) : Q := if ltb a 0 then - a else a.

(** [a - b] where either operand may be [None]. *)
Definition sub (a b : option Q) : result Q :=
  match a, b with
  | Some x, Some y => Ok (x - y)
  | _, _ => Raise TypeError
  end.

(** [a / b] where the divisor may be [None] or zero. *)
Definition div (a : Q) (b : option Q) : result Q :=
  match b with
  | None => Raise TypeError
  | Some y => if Qeq_bool y 0 then Raise ZeroDivisionError else Ok (a / y)
  end.

(** Truth value of a number or [None]: [None], [0] and [0.0] are false. *)
Definition truthy (v : option Q) : bool :=
  match v with
  | None => false
  | Some x => negb (Qeq_bool x 0)
  end.

(** [l[:k]] for an integer [k]: a negative [k] counts from the end. *)
Definition prefix {A : Type} (l : list A) (k : Z) : list A :=
  if (0 <=? k)%Z then firstn (Z.to_nat k) l
  else firstn (List.length l - Z.to_nat (- k)) l.

End Py.

(* ------------------------------------------------------------------ *)
(** ** Data model ([models/request.py] and the candidate dictionaries) *)

(** [GeoFilter]: [radius_km] is [Optional[float]] with default 10. *)
Record GeoFilter : Type := mkGeoFilter {
  lat : Q;
  lon : Q;
  radius_km : option Q;
  address : option string
}.

(** [TimeFilter]. The two instants are declared [Union[int, str]]; they
    are numbers here, as the time step of [_rerank] subtracts them and
    compares them with the numeric instants of the candidates. What the
    time step does when an instant is a string is modelled apart, by
    [time_step] on a [DeclaredTimeFilter]. *)
Record TimeFilter : Type := mkTimeFilter {
  start : Q;
  end_ : Q;
  precision : option string;
  display_time : option string
}.

Record QueryIntent : Type := mkQueryIntent {
  original_query : string;
  semantic_query : string;
  intent_type : string;
  keywords : list string;
  category : option string;
  geo_filter : option GeoFilter;
  time_filter : option TimeFilter;
  embedding : option (list Q)
}.

(** The dictionary under ["geo_point"]: both keys are always there, and
    either value may be [None]. *)
Record GeoPoint : Type := mkGeoPoint {
  gp_lat : option Q;
  gp_lon : option Q
}.

Record Payload : Type := mkPayload {
  entry_id : string;
  title : string;
  content : option string;
  geo_point : option GeoPoint;
  start_time : option Q;
  end_time : option Q
}.

Record Candidate : Type := mkCandidate {
  id : string;
  score : Q;
  payload : Payload
}.

(** [res["score"] = s]. *)
Definition set_score (res : Candidate) (s : Q) : Candidate :=
  mkCandidate (id res) s (payload res).

(* ------------------------------------------------------------------ *)
(** ** [HybridRetriever._rerank] *)

Definition alpha : Q := 0.6.
Definition beta : Q := 0.3.
Definition gamma : Q := 0.1.

(** [res["score"] if res["score"] > 0 else 0.5] *)
Definition semantic_score (res : Candidate) : Q :=
  if Py.ltb 0 (score res) then score res else 0.5.

(** [abs(query_lat - res_lat) * 111 + abs(query_lon - res_lon) * 111] *)
Definition distance_km (gf : GeoFilter) (gp : GeoPoint) : result Q :=
  dlat <- Py.sub (Some (lat gf)) (gp_lat gp) ;;
  dlon <- Py.sub (Some (lon gf)) (gp_lon gp) ;;
  Ok (Py.abs dlat * 111 + Py.abs dlon * 111).

(** Step 2 of the loop body: [geo_score]. A [geo_point] dictionary is
    true whatever its values are, since it has two keys. *)
Definition geo_score (query_intent : QueryIntent) (res : Candidate) : result Q :=
  match geo_filter query_intent, geo_point (payload res) with
  | Some gf, Some gp =>
      d <- distance_km gf gp ;;
      r <- Py.div d (radius_km gf) ;;
      Ok (Py.max 0 (1 - r))
  | _, _ => Ok 1
  end.

(** Step 3 of the loop body: [time_score]. *)
Definition time_score (query_intent : QueryIntent) (res : Candidate) : result Q :=
  match time_filter query_intent with
  | Some tf =>
      if Py.truthy (start_time (payload res)) && Py.truthy (end_time (payload res))
      then
        match start_time (payload res), end_time (payload res) with
        | Some res_start, Some res_end =>
            let overlap_start := Py.max (start tf) res_start in
            let overlap_end := Py.min (end_ tf) res_end in
            if Py.leb overlap_end overlap_start then Ok 0
            else
              let overlap_duration := overlap_end - overlap_start in
              let query_duration := end_ tf - start tf in
              Py.div overlap_duration (Some query_duration)
        | _, _ => Ok 1
        end
      else Ok 1
  | None => Ok 1
  end.

(** Step 4 of the loop body. *)
Definition final_score (semantic geo time : Q) : Q :=
  alpha * semantic + beta * geo + gamma * time.

(** One iteration of the loop: the candidate with its score overwritten. *)
Definition rescore (query_intent : QueryIntent) (res : Candidate) : result Candidate :=
  let semantic := semantic_score res in
  geo <- geo_score query_intent res ;;
  time <- time_score query_intent res ;;
  Ok (set_score res (final_score semantic geo time)).

(** [sorted(results, key=lambda x: x["score"], reverse=True)]: a stable
    sort, larger keys first; equal keys keep their order. *)
Fixpoint insert_desc (x : Candidate) (l : list Candidate) : list Candidate :=
  match l with
  | [] => [x]
  | y :: l' =>
      if Py.ltb (score x) (score y) then y :: insert_desc x l'
      else x :: l
  end.

Fixpoint sorted_desc (l : list Candidate) : list Candidate :=
  match l with
  | [] => []
  | x :: l' => insert_desc x (sorted_desc l')
  end.

Definition _rerank (results : list Candidate) (query_intent : QueryIntent)
  : result (list Candidate) :=
  scored <- mapM (rescore query_intent) results ;;
  Ok (sorted_desc scored).

(* ------------------------------------------------------------------ *)
(** ** [HybridRetriever._merge_results] *)

(** The dictionary [merged]: keys are [payload["entry_id"]], in insertion
    order. *)
Definition Dict : Type := list (string * Candidate).

(** [k in d] *)
Fixpoint dict_mem (k : string) (d : Dict) : bool :=
  match d with
  | [] => false
  | (k', _) :: d' => String.eqb k k' || dict_mem k d'
  end.

(** [d[k] = v]: a key already there keeps its place and takes the new
    value, a new key goes to the end. *)
Fixpoint dict_set (k : string) (v : Candidate) (d : Dict) : Dict :=
  match d with
  | [] => [(k, v)]
  | (k', v') :: d' =>
      if String.eqb k k' then (k', v) :: d' else (k', v') :: dict_set k v d'
  end.

(** [d[k]], when [k in d]. *)
Fixpoint dict_get (k : string) (d : Dict) : option Candidate :=
  match d with
  | [] => None
  | (k', v) :: d' => if String.eqb k k' then Some v else dict_get k d'
  end.

(** [list(d.values())] *)
Definition dict_values (d : Dict) : list Candidate := map snd d.

Definition dict_keys (d : Dict) : list string := map fst d.

(** First loop: every vector result is stored under its entry id. *)
Definition add_vector (merged : Dict) (res : Candidate) : Dict :=
  dict_set (entry_id (payload res)) res merged.

(** Second loop: a database result is stored only under a new key. *)
Definition add_db (merged : Dict) (res : Candidate) : Dict :=
  let k := entry_id (payload res) in
  if dict_mem k merged then merged else dict_set k res merged.

Definition merged_dict (vector_results db_results : list Candidate) : Dict :=
  fold_left add_db db_results (fold_left add_vector vector_results []).

Definition _merge_results (vector_results db_results : list Candidate)
  : list Candidate :=
  dict_values (merged_dict vector_results db_results).

(* ------------------------------------------------------------------ *)
(** ** [VectorStore.search] *)

(** What the Qdrant client is asked for and what it answers. *)
Inductive FieldCondition : Type :=
| GeoRadius (center_lat center_lon radius_m : Q)
| RangeCond (gte lte : Q)
| MatchValue (value : string).

Record SearchRequest : Type := mkSearchRequest {
  query_vector : option (list Q);
  query_filter : option (list FieldCondition);
  limit : Z
}.

Record ScoredPoint : Type := mkScoredPoint {
  sp_id : string;
  sp_score : Q;
  sp_payload : Payload
}.

(** The connected client, seen through its [search] method. *)
Definition AsyncQdrantClient : Type := SearchRequest -> result (list ScoredPoint).

Record VectorStore : Type := mkVectorStore {
  client : option AsyncQdrantClient
}.

Definition not_connected : exn := Exception "Qdrant client not connected".

(** [geo_filter["radius_km"] * 1000] *)
Definition radius_m (gf : GeoFilter) : result Q :=
  match radius_km gf with
  | Some r => Ok (r * 1000)
  | None => Raise TypeError
  end.

(** The filters are passed as the dictionaries [_vector_retrieval] builds,
    which carry the fields of the intent's filters unchanged. *)
Definition search (vs : VectorStore) (qv : option (list Q))
  (geo : option GeoFilter) (time : option TimeFilter)
  (category_filter : option string) (lim : Z) : result (list Candidate) :=
  match client vs with
  | None => Raise not_connected
  | Some cl =>
      geo_conds <- match geo with
                   | Some gf => r <- radius_m gf ;; Ok [GeoRadius (lat gf) (lon gf) r]
                   | None => Ok []
                   end ;;
      let time_conds :=
        match time with
        | Some tf => [RangeCond (start tf) (end_ tf)]
        | None => []
        end in
      let category_conds :=
        match category_filter with
        | Some c => if String.eqb c "" then [] else [MatchValue c]
        | None => []
        end in
      let filter_conditions := geo_conds ++ time_conds ++ category_conds in
      let search_filter :=
        match filter_conditions with
        | [] => None
        | _ => Some filter_conditions
        end in
      results <- cl (mkSearchRequest qv search_filter lim) ;;
      Ok (map (fun r => mkCandidate (sp_id r) (sp_score r) (sp_payload r)) results)
  end.

(* ------------------------------------------------------------------ *)
(** ** [HybridRetriever._db_retrieval] *)

Record KnowledgeEntry : Type := mkKnowledgeEntry {
  ke_id : string;
  ke_title : string;
  ke_content : option string
}.

(** A point geometry, read through [ST_X] and [ST_Y]. *)
Record Geometry : Type := mkGeometry {
  ST_X : Q;
  ST_Y : Q
}.

Record GeoLocation : Type := mkGeoLocation {
  geom : option Geometry
}.

(** Timestamps are held as their [.timestamp()]. *)
Record TemporalInfo : Type := mkTemporalInfo {
  ti_start_time : option Q;
  ti_end_time : option Q;
  dynasty : option string
}.

(** A row of the outer join: the two associated records may be missing. *)
Definition Row : Type := (KnowledgeEntry * option GeoLocation * option TemporalInfo)%type.

Record Select : Type := mkSelect {
  where_dwithin : option (Q * Q * Q);
  where_time : option (Q * Q);
  where_category : option string;
  sel_limit : Z
}.

(** The database session, seen through [execute(...).all()]. *)
Definition Session : Type := Select -> result (list Row).

(** [expression.scalar()] on [func.ST_Y(geo.geom)] or [func.ST_X(geo.geom)]:
    the call builds an SQL expression that is never sent to the database,
    and an expression of that kind has no attribute [scalar]. The argument
    is the value the database would have computed. *)
Definition scalar (expression : Q) : result Q := Raise AttributeError.

(** [func.ST_Y(geo.geom).scalar() if geo and geo.geom else None], and the
    same with [ST_X]. *)
Definition coordinate (axis : Geometry -> Q) (geo : option GeoLocation)
  : result (option Q) :=
  match geo with
  | Some g =>
      match geom g with
      | Some p => v <- scalar (axis p) ;; Ok (Some v)
      | None => Ok None
      end
  | None => Ok None
  end.

(** [temporal.start_time.timestamp() if temporal and temporal.start_time
    else None], and the same with [end_time]. *)
Definition instant (field : TemporalInfo -> option Q) (temporal : option TemporalInfo)
  : option Q :=
  match temporal with
  | Some t => field t
  | None => None
  end.

(** The ["display_time"] entry reads [.year] of both instants as soon as
    there is a dynasty; only its failure is kept here, since neither
    [_merge_results] nor [_rerank] reads ["metadata"]. *)
Definition display_time_check (temporal : option TemporalInfo) : result unit :=
  match temporal with
  | Some t =>
      match dynasty t with
      | Some d =>
          if String.eqb d "" then Ok tt
          else match ti_start_time t, ti_end_time t with
               | Some _, Some _ => Ok tt
               | _, _ => Raise AttributeError
               end
      | None => Ok tt
      end
  | None => Ok tt
  end.

(** One iteration of the formatting loop; the entries of the dictionary
    are evaluated in the order they are written, ["geo_point"] before
    ["metadata"]. *)
Definition format_row (row : Row) : result Candidate :=
  let '(entry, geo, temporal) := row in
  y <- coordinate ST_Y geo ;;
  x <- coordinate ST_X geo ;;
  _ <- display_time_check temporal ;;
  Ok (mkCandidate (ke_id entry) 0
        (mkPayload (ke_id entry) (ke_title entry) (ke_content entry)
           (Some (mkGeoPoint y x))
           (instant ti_start_time temporal)
           (instant ti_end_time temporal))).

Definition _db_retrieval (get_db : result Session) (query_intent : QueryIntent)
  (lim : Z) : result (list Candidate) :=
  db <- get_db ;;
  w_geo <- match geo_filter query_intent with
           | Some gf => r <- radius_m gf ;; Ok (Some (lon gf, lat gf, r))
           | None => Ok None
           end ;;
  let w_time :=
    match time_filter query_intent with
    | Some tf => Some (start tf, end_ tf)
    | None => None
    end in
  let w_category :=
    match category query_intent with
    | Some c => if String.eqb c "" then None else Some c
    | None => None
    end in
  rows <- db (mkSelect w_geo w_time w_category lim) ;;
  mapM format_row rows.

(* ------------------------------------------------------------------ *)
(** ** [HybridRetriever.retrieve] *)

Record HybridRetriever : Type := mkHybridRetriever {
  vector_store : VectorStore
}.

Definition _vector_retrieval (self : HybridRetriever) (query_intent : QueryIntent)
  (lim : Z) : result (list Candidate) :=
  search (vector_store self) (embedding query_intent)
    (geo_filter query_intent) (time_filter query_intent)
    (category query_intent) lim.

(** [await asyncio.gather(a, b)]: both results, or the exception of the
    task that fails first; [db_first] says which one that is when both
    fail. *)
Definition gather {A B : Type} (db_first : bool) (a : result A) (b : result B)
  : result (A * B) :=
  match a, b with
  | Ok x, Ok y => Ok (x, y)
  | Raise e, Ok _ => Raise e
  | Ok _, Raise e => Raise e
  | Raise ea, Raise eb => Raise (if db_first then eb else ea)
  end.

Section Retrieve.

(** What [anext(get_db())] gives, a session or an exception, and the
    order in which two failing tasks fail. *)
Variable get_db : result Session.
Variable db_first : bool.

Definition retrieve (self : HybridRetriever) (query_intent : QueryIntent)
  (top_k : Z) : result (list Candidate) :=
  let vector_task := _vector_retrieval self query_intent (top_k * 2)%Z in
  let db_task := _db_retrieval get_db query_intent (top_k * 2)%Z in
  both <- gather db_first vector_task db_task ;;
  let merged_results := _merge_results (fst both) (snd both) in
  match merged_results with
  | [] => Ok []
  | _ =>
      reranked_results <- _rerank merged_results query_intent ;;
      Ok (Py.prefix reranked_results top_k)
  end.

End Retrieve.

(* ------------------------------------------------------------------ *)
(** ** Sample data *)

Module Sample.

Definition beijing : GeoFilter := mkGeoFilter 39.9 116.4 (Some 10) None.

Definition ming_to_qing : TimeFilter := mkTimeFilter 1500 1700 (Some "year"%string) None.

Definition intent (g : option GeoFilter) (t : option TimeFilter) : QueryIntent :=
  mkQueryIntent "q" "q" "fact_query" [] None g t None.

Definition cand (eid : string) (s : Q) (g : option GeoPoint) (t0 t1 : option Q)
  : Candidate :=
  mkCandidate eid s (mkPayload eid "t" None g t0 t1).

Definition at_center : option GeoPoint := Some (mkGeoPoint (Some 39.9) (Some 116.4)).

(** An entry with neither a geo record nor a temporal record. *)
Definition bare_row : Row := (mkKnowledgeEntry "e1" "t" None, None, None).

End Sample.


(* ------------------------------------------------------------------ *)
(** ** Vocabulary of the properties *)

(** [desc a b]: [a] may stand before [b] in a list sorted by descending
    score. *)
Definition desc (a b : Candidate) : Prop := score b <= score a.

(** Candidates whose score is [k]. *)
Definition has_score (k : Q) (c : Candidate) : bool := Qeq_bool (score c) k.

(** The key [_merge_results] files a candidate under. *)
Definition key (c : Candidate) : string := entry_id (payload c).

(** One step of [last_with]. *)
Definition latest (k : string) (acc : option Candidate) (res : Candidate)
  : option Candidate :=
  if String.eqb k (key res) then Some res else acc.

(** The last result of [l] filed under [k]. *)
Definition last_with (k : string) (l : list Candidate) : option Candidate :=
  fold_left (latest k) l None.

(** Every value of the dictionary is filed under its own key. *)
Definition keyed (d : Dict) : Prop := Forall (fun kv => fst kv = key (snd kv)) d.

(** What the dictionary [merged] satisfies all along [_merge_results]. *)
Definition well_formed (d : Dict) : Prop := keyed d /\ NoDup (dict_keys d).

(** The distance of the geo sub-score, with the library's absolute value. *)
Definition manhattan_km (qlat qlon rlat rlon : Q) : Q :=
  Qabs (qlat - rlat) * 111 + Qabs (qlon - rlon) * 111.

(** What the geo step of the loop needs in order not to raise: a radius
    that is a non-zero number, and numbers under both keys of a
    [geo_point] dictionary. *)
Definition geo_ready (query_intent : QueryIntent) (res : Candidate) : bool :=
  match geo_filter query_intent, geo_point (payload res) with
  | Some gf, Some gp =>
      match gp_lat gp, gp_lon gp, radius_km gf with
      | Some _, Some _, Some r => negb (Qeq_bool r 0)
      | _, _, _ => false
      end
  | _, _ => true
  end.

(** The time sub-score in the specification's words: the overlap of the
    two intervals as a fraction of the query's span, [0] when they do not
    overlap. *)
Definition spec_time_score (query_start query_end cand_start cand_end : Q) : Q :=
  let overlap_start := Qmax query_start cand_start in
  let overlap_end := Qmin query_end cand_end in
  if Qle_bool overlap_end overlap_start then 0
  else (overlap_end - overlap_start) / (query_end - query_start).

(** The candidate with its two instants removed. *)
Definition without_times (res : Candidate) : Candidate :=
  mkCandidate (id res) (score res)
    (mkPayload (entry_id (payload res)) (title (payload res))
       (content (payload res)) (geo_point (payload res)) None None).

(** The list a run returned, [[]] if it raised. *)
Definition returned (m : result (list Candidate)) : list Candidate :=
  match m with
  | Ok out => out
  | Raise _ => []
  end.

(** [geo and geo.geom] of the formatting loop: the row has a geo record
    that holds a geometry. *)
Definition has_geometry (row : Row) : bool :=
  match snd (fst row) with
  | Some g => match geom g with Some _ => true | None => false end
  | None => false
  end.


(** The ["geo_point"] entry of a payload of the index, as
    [VectorStore.insert] writes it: [None], or a dictionary with a number
    under each key. *)
Definition located (res : Candidate) : bool :=
  match geo_point (payload res) with
  | Some gp =>
      match gp_lat gp, gp_lon gp with
      | Some _, Some _ => true
      | _, _ => false
      end
  | None => true
  end.


(* ------------------------------------------------------------------ *)
(** ** Scenarios *)

(** A candidate at the centre of the geo filter, with semantic score 0.8,
    and no time filter: the final score is 0.88. *)
Definition scenario_center : list Candidate :=
  [Sample.cand "a" 0.8 Sample.at_center None None].

Definition scenario_center_out : list Candidate :=
  Eval vm_compute in
    returned (_rerank scenario_center (Sample.intent (Some Sample.beijing) None)).

(** Two candidates of equal final score around a better one. *)
Definition scenario_ties : list Candidate :=
  [Sample.cand "a" 0.8 None None None;
   Sample.cand "b" 0.9 None None None;
   Sample.cand "c" 0.8 Sample.at_center None None].

Definition scenario_ties_out : list Candidate :=
  Eval vm_compute in returned (_rerank scenario_ties (Sample.intent None None)).

(** A candidate 0.05 degrees north of the centre of [Sample.beijing]. *)
Definition north_of_center : Candidate :=
  Sample.cand "n" 0.8 (Some (mkGeoPoint (Some 39.95) (Some 116.4))) None None.

(** The Ming dynasty, in years. *)
Definition ming : Candidate := Sample.cand "ming" 0 None (Some 1368) (Some 1644).

(** An interval that starts at the epoch instant [0], and a query whose
    span it half covers. *)
Definition from_epoch : Candidate := Sample.cand "epoch" 0 None (Some 0) (Some 150).

Definition hundred_to_two_hundred : TimeFilter :=
  mkTimeFilter 100 200 (Some "year"%string) None.

(** Vector hits, two of them for the entry ["a"], and database hits. *)
Definition vector_hits : list Candidate :=
  [Sample.cand "a" 0.8 None None None;
   Sample.cand "b" 0.7 None None None;
   Sample.cand "a" 0.3 None None None].

Definition db_hits : list Candidate :=
  [Sample.cand "c" 0 None None None;
   Sample.cand "a" 0 Sample.at_center None None].

(** An index with two points, a database with two entries that have
    neither a geo record nor a temporal record (it returns them to a
    statement without geo condition, and nothing to one with a geo
    condition), and their empty and unconnected variants. *)
Definition two_points : AsyncQdrantClient :=
  fun _ =>
    Ok [mkScoredPoint "p1" 0.8 (mkPayload "a" "t" None Sample.at_center None None);
        mkScoredPoint "p2" 0.9 (mkPayload "b" "t" None Sample.at_center None None)].

Definition two_rows : Session :=
  fun sel =>
    match where_dwithin sel with
    | Some _ => Ok []
    | None =>
        Ok [(mkKnowledgeEntry "c" "t" None, None, None);
            (mkKnowledgeEntry "a" "t" None, None, None)]
    end.

Definition no_points : AsyncQdrantClient := fun _ => Ok [].

Definition no_rows : Session := fun _ => Ok [].

Definition connected (cl : AsyncQdrantClient) : HybridRetriever :=
  mkHybridRetriever (mkVectorStore (Some cl)).

Definition unconnected : HybridRetriever :=
  mkHybridRetriever (mkVectorStore None).

Definition top_two : list Candidate :=
  Eval vm_compute in
    returned (retrieve (Ok two_rows) false (connected two_points)
                (Sample.intent None None) 2).

(* ================================================================== *)
(** * Around the retriever

    The rest of [vector_store.py] ([insert]), the context builder of
    [generator.py], the queries of [rag_service.py] and the routes of
    [api/query.py], on the same conventions; preceded by the vocabulary
    and the scenarios of the further properties of the retriever. *)

(* ------------------------------------------------------------------ *)
(** ** More vocabulary: merge *)

(** The first result of [l] filed under [k]. *)
Fixpoint first_with (k : string) (l : list Candidate) : option Candidate :=
  match l with
  | [] => None
  | res :: l' => if String.eqb k (key res) then Some res else first_with k l'
  end.

(** [seen ++] the keys of [l] that are neither in [seen] nor earlier in
    [l]: the keys in order of first occurrence. *)
Fixpoint first_occurrences (seen l : list string) : list string :=
  match l with
  | [] => seen
  | k :: l' =>
      if existsb (String.eqb k) seen then first_occurrences seen l'
      else first_occurrences (seen ++ [k]) l'
  end.

(* ------------------------------------------------------------------ *)
(** ** More scenarios *)

(** Filters around Beijing with a zero radius, and a candidate at the
    centre. *)
Definition beijing_zero_radius : GeoFilter := mkGeoFilter 39.9 116.4 (Some 0) None.

Definition centered : Candidate := Sample.cand "a" 0.8 Sample.at_center None None.

(** A candidate whose interval covers the query [1500, 1700]. *)
Definition long_lived : Candidate :=
  Sample.cand "long" 0.8 None (Some 1368) (Some 1912).

(** An unscored database hit and a vector hit of low similarity, with the
    same (missing) geo and time data. *)
Definition unscored_hit : Candidate := Sample.cand "u" 0 None None None.

Definition weak_hit : Candidate := Sample.cand "w" 0.2 None None None.

Definition unscored_hit_out : Candidate :=
  Eval vm_compute in set_score unscored_hit (final_score (semantic_score unscored_hit) 1 1).

Definition weak_hit_out : Candidate :=
  Eval vm_compute in set_score weak_hit (final_score (semantic_score weak_hit) 1 1).

(** A database hit with no geo record next to a vector hit, scored with
    no geo filter. *)
Definition mixed_hits : list Candidate :=
  [Sample.cand "v" 0.8 Sample.at_center None None;
   Sample.cand "d" 0 (Some (mkGeoPoint None None)) None None].

Definition mixed_hits_out : list Candidate :=
  Eval vm_compute in returned (_rerank mixed_hits (Sample.intent None None)).

(* ------------------------------------------------------------------ *)
(** ** More vocabulary: the two retrievals *)

(** The id of the entry of a row. *)
Definition row_id (row : Row) : string := ke_id (fst (fst row)).

(** The temporal record of a row carries a dynasty but lacks an instant:
    the formatter cannot build its ["display_time"]. *)
Definition dynasty_without_instant (row : Row) : bool :=
  match snd row with
  | Some t =>
      match dynasty t with
      | Some d =>
          negb (String.eqb d "") &&
          match ti_start_time t, ti_end_time t with
          | Some _, Some _ => false
          | _, _ => true
          end
      | None => false
      end
  | None => false
  end.

(** How [search] turns a point of the index into a candidate. *)
Definition of_point (r : ScoredPoint) : Candidate :=
  mkCandidate (sp_id r) (sp_score r) (sp_payload r).



(** A database with one row whose temporal record names a dynasty and has
    no start instant. *)
Definition undated_dynasty : Session :=
  fun _ =>
    Ok [(mkKnowledgeEntry "c" "t" None, None,
         Some (mkTemporalInfo None (Some 1644) (Some "Ming"%string)))].

(** A candidate inside the query [1500, 1700]. *)
Definition late_ming : Candidate := Sample.cand "late" 0.8 None (Some 1600) (Some 1650).

(* ------------------------------------------------------------------ *)
(** ** [VectorStore.insert] *)

(** A document to index, with the keys of [insert] that end in the fields
    of [Payload] (the category, the tags and the metadata are left out, as
    they are there). [doc_geo] is the list under
    [doc["geo"]["coordinates"]], or [None] when [doc.get("geo")] is false;
    the two timestamps may be [None]. *)
Record Document : Type := mkDocument {
  doc_id : string;
  doc_embedding : list Q;
  doc_title : string;
  doc_content : option string;
  doc_geo : option (list Q);
  doc_start_timestamp : option Q;
  doc_end_timestamp : option Q
}.

Record PointStruct : Type := mkPointStruct {
  point_id : string;
  point_vector : list Q;
  point_payload : Payload
}.

Definition IndexError : exn := Exception "IndexError".

(** [l[i]] *)
Definition item (l : list Q) (i : nat) : result Q :=
  match nth_error l i with
  | Some x => Ok x
  | None => Raise IndexError
  end.

(** [{"lat": coordinates[1], "lon": coordinates[0]} if doc.get("geo")
    else None] *)
Definition doc_geo_point (doc : Document) : result (option GeoPoint) :=
  match doc_geo doc with
  | Some coordinates =>
      y <- item coordinates 1 ;;
      x <- item coordinates 0 ;;
      Ok (Some (mkGeoPoint (Some y) (Some x)))
  | None => Ok None
  end.

(** The point built for one document, [uuid] being [str(uuid.uuid4())]. *)
Definition point_of (uuid : string) (doc : Document) : result PointStruct :=
  gp <- doc_geo_point doc ;;
  Ok (mkPointStruct uuid (doc_embedding doc)
        (mkPayload (doc_id doc) (doc_title doc) (doc_content doc) gp
           (doc_start_timestamp doc) (doc_end_timestamp doc))).

(** The loop over the documents; [uuid4 n] is the [n]-th identifier
    drawn. *)
Fixpoint build_points (uuid4 : nat -> string) (n : nat) (documents : list Document)
  : result (list PointStruct) :=
  match documents with
  | [] => Ok []
  | doc :: rest =>
      p <- point_of (uuid4 n) doc ;;
      ps <- build_points uuid4 (S n) rest ;;
      Ok (p :: ps)
  end.

(** [insert], with the [upsert] method of the client. *)
Definition insert (vs : VectorStore) (upsert : list PointStruct -> result unit)
  (uuid4 : nat -> string) (documents : list Document) : result unit :=
  match client vs with
  | None => Raise not_connected
  | Some _ =>
      points <- build_points uuid4 0 documents ;;
      upsert points
  end.

(** The coordinates of a document can be read. *)
Definition coordinates_ok (doc : Document) : bool :=
  match doc_geo doc with
  | Some coordinates => (2 <=? List.length coordinates)%nat
  | None => true
  end.

(** The candidate [search] returns for a stored point that the index
    scores [s]. *)
Definition hit_of (p : PointStruct) (s : Q) : Candidate :=
  of_point (mkScoredPoint (point_id p) s (point_payload p)).

(** A document located by a GeoJSON position (longitude first), one
    without location and one with a truncated position. *)
Definition palace : Document :=
  mkDocument "e1" [] "Forbidden City" (Some "..."%string)
    (Some [116.4; 39.9]) (Some 1420) (Some 1912).

Definition nowhere : Document :=
  mkDocument "e2" [] "Nowhere" (Some "..."%string) None (Some 1420) (Some 1912).

Definition half_located : Document :=
  mkDocument "e3" [] "Half" (Some "..."%string) (Some [116.4]) None None.

Definition palace_point : PointStruct :=
  Eval vm_compute in
    match point_of "u0" palace with
    | Ok p => p
    | Raise _ => mkPointStruct "" [] (mkPayload "" "" None None None None)
    end.

Definition nowhere_point : PointStruct :=
  Eval vm_compute in
    match point_of "u1" nowhere with
    | Ok p => p
    | Raise _ => mkPointStruct "" [] (mkPayload "" "" None None None None)
    end.

From Stdlib Require DecimalString.
From Stdlib Require Import Qround.

(* ------------------------------------------------------------------ *)
(** ** Texts

    A Python [str] is a [string] whose characters stand for the characters
    of the text; the literals of the source are written as they are. *)

(** ["\n"] *)
Definition nl : string := String (Ascii.ascii_of_nat 10) EmptyString.

(** [str(n)] for a natural number. *)
Definition decimal (n : nat) : string := DecimalString.NilZero.string_of_uint (Nat.to_uint n).

(** [sep.join(parts)] *)
Definition join (sep : string) (parts : list string) : string :=
  String.concat sep parts.

(** [text[:n] + "..." if len(text) > n else text], [text] being what is
    under ["content"], which may be [None]. *)
Definition shorten (n : nat) (text : option string) : result string :=
  match text with
  | None => Raise TypeError
  | Some s =>
      if (n <? String.length s)%nat then Ok (substring 0 n s ++ "...")%string
      else Ok s
  end.

(** [payload.get("geo_point", {}).get("address", "未知地点")]: the key
    ["geo_point"] is always there, and neither retrieval puts an
    ["address"] in the dictionary under it. *)
Definition address_of (p : Payload) : result string :=
  match geo_point p with
  | Some _ => Ok "未知地点"%string
  | None => Raise AttributeError
  end.

(** What [payload.get("metadata", {}).get("display_time", "未知时间")]
    gives, from what the metadata hold under ["display_time"]: nothing
    ([None]), the value [None] ([Some None]) or a text. *)
Definition display_time_of (held : option (option string)) : option string :=
  match held with
  | None => Some "未知时间"%string
  | Some v => v
  end.

(** [f"{v}"] for a text or [None]. *)
Definition format_optional (v : option string) : string :=
  match v with
  | Some s => s
  | None => "None"%string
  end.

(* ------------------------------------------------------------------ *)
(** ** [LLMGenerator] *)

(** An event of the streaming interface of the model. *)
Record StreamEvent : Type := mkStreamEvent {
  event_type : string;
  delta_text : string
}.

(** The generator: its client, seen through the stripped text of the
    first block of [messages.create] and through the events of
    [messages.stream] (all the events, or those before an exception), and
    its model name. *)
Record LLMGenerator : Type := mkLLMGenerator {
  messages_create : string -> result string;
  messages_stream : string -> list StreamEvent * option exn;
  model : string
}.

Definition system_prompt : string :=
  "你是时空地理知识专家，需基于提供的检索结果准确回答，明确标注信息来源（地点和时间），知识不足时需说明，语气专业友好。".

Section Generator.

(** What the payload of a candidate holds under
    [["metadata"]["display_time"]], which [Payload] leaves out. *)
Variable held_display_time : Candidate -> option (option string).

(** One iteration of the loop of [_build_context]. *)
Definition context_part (idx : nat) (ctx : Candidate) : result string :=
  let p := payload ctx in
  address <- address_of p ;;
  let display := format_optional (display_time_of (held_display_time ctx)) in
  text <- shorten 500 (content p) ;;
  Ok ("【文档" ++ decimal idx ++ "】" ++ nl ++
      "标题：" ++ title p ++ nl ++
      "地点：" ++ address ++ nl ++
      "时间：" ++ display ++ nl ++
      "内容：" ++ text ++ nl)%string.

(** The loop over [enumerate(contexts, idx)]. *)
Fixpoint context_parts (idx : nat) (contexts : list Candidate) : result (list string) :=
  match contexts with
  | [] => Ok []
  | ctx :: rest =>
      part <- context_part idx ctx ;;
      parts <- context_parts (S idx) rest ;;
      Ok (part :: parts)
  end.

Definition _build_context (contexts : list Candidate) : result string :=
  context_parts_ <- context_parts 1 contexts ;;
  Ok (join (nl ++ nl) context_parts_).

(** The prompt of [generate] and [generate_stream]. *)
Definition prompt (query context_str : string) : string :=
  (nl ++
   "        " ++ system_prompt ++ nl ++
   "        用户问题：" ++ query ++ nl ++
   "        相关知识：" ++ nl ++
   "        " ++ context_str ++ nl ++
   "        回答要求：" ++ nl ++
   "        1. 严格基于上述知识，不添加外部信息；" ++ nl ++
   "        2. 每个结论需标注来源（如“[来源：故宫建筑史，北京，明朝(1368-1644)]”）；" ++ nl ++
   "        3. 分点说明（若有多个要点），语言简洁易懂。" ++ nl ++
   "        ")%string.

Definition generate (self : LLMGenerator) (query : string) (contexts : list Candidate)
  : result string :=
  context_str <- _build_context contexts ;;
  messages_create self (prompt query context_str).

(** [generate_stream]: the chunks it yields, and the exception that ends
    it, if any. *)
Definition generate_stream (self : LLMGenerator) (query : string)
  (contexts : list Candidate) : list string * option exn :=
  match _build_context contexts with
  | Raise e => ([], Some e)
  | Ok context_str =>
      let (events, failure) := messages_stream self (prompt query context_str) in
      (map delta_text
         (filter (fun ev => String.eqb (event_type ev) "content_block_delta") events),
       failure)
  end.

End Generator.

(** The generator can describe this context: its [geo_point] is a
    dictionary and its content a text. *)
Definition describable (ctx : Candidate) : bool :=
  match geo_point (payload ctx), content (payload ctx) with
  | Some _, Some _ => true
  | _, _ => false
  end.

(** A context with a long content and one the vector path stored without
    location. *)
Definition described : Candidate :=
  mkCandidate "p1" 0.88
    (mkPayload "a" "Forbidden City" (Some "Built from 1406 to 1420."%string)
       Sample.at_center (Some 1420) (Some 1912)).

Definition unlocated : Candidate :=
  mkCandidate "p2" 0.7
    (mkPayload "b" "Nowhere" (Some "..."%string) None None None).

Definition no_display_time : Candidate -> option (option string) := fun _ => None.

(* ------------------------------------------------------------------ *)
(** ** [RAGService] *)

(** [round(x)] on an exact number: the nearest integer, the even one of
    the two when [x] lies half way. *)
Definition round_half_even (x : Q) : Z :=
  let f := Qfloor x in
  match Qcompare (x - inject_Z f) (1 # 2) with
  | Lt => f
  | Gt => (f + 1)%Z
  | Eq => if Z.even f then f else (f + 1)%Z
  end.

(** [round(x, ndigits)] *)
Definition py_round (x : Q) (ndigits : nat) : Q :=
  let scale := inject_Z (10 ^ Z.of_nat ndigits) in
  inject_Z (round_half_even (x * scale)) / scale.

(** [Source]; [geo_location] and [geo_address] are the two entries of
    [geo], [temporal_period] the entry of [temporal]. *)
Record Source : Type := mkSource {
  source_id : string;
  source_title : string;
  snippet : string;
  geo_location : option (list Q);
  geo_address : string;
  temporal_period : option string;
  relevance_score : Q
}.

Definition ValidationError : exn := Exception "ValidationError".

(** The validation of ["location"] against
    [Optional[Union[str, List[float]]]]: [None], or a list of numbers. *)
Definition validate_location (location : option (list (option Q)))
  : result (option (list Q)) :=
  match location with
  | None => Ok None
  | Some [Some x; Some y] => Ok (Some [x; y])
  | Some _ => Raise ValidationError
  end.

(** The filters and the options of a request, with the keys the service
    reads. *)
Record Filters : Type := mkFilters {
  filter_geo : option GeoFilter;
  filter_time : option TimeFilter;
  filter_category : option string
}.

Record Options : Type := mkOptions {
  option_top_k : option Z
}.

Record QueryResponse : Type := mkQueryResponse {
  answer : string;
  sources : list Source;
  query_time_ms : Q;
  model_used : string
}.

(** The service: the [parse] method of its query understanding, its
    retriever and its generator. *)
Record RAGService : Type := mkRAGService {
  query_understanding : string -> option Filters -> result QueryIntent;
  retriever : HybridRetriever;
  generator : LLMGenerator
}.

Definition not_found : string := "未找到相关时空地理知识，无法回答该问题。".

(** [options.get("top_k", 5) if options else 5] *)
Definition top_k_of (options : option Options) : Z :=
  match options with
  | Some o => match option_top_k o with Some k => k | None => 5%Z end
  | None => 5%Z
  end.

(** [chunk.replace('"', '\\"')] *)
Fixpoint escape_quotes (chunk : string) : string :=
  match chunk with
  | EmptyString => EmptyString
  | String c rest =>
      if Ascii.eqb c (Ascii.ascii_of_nat 34)
      then String (Ascii.ascii_of_nat 92) (String c (escape_quotes rest))
      else String c (escape_quotes rest)
  end.

(** The records [query_stream] yields, by their ["type"]. *)
Inductive Event : Type :=
| SourcesEvent (data : list Source)
| ContentEvent (data : string)
| DoneEvent.

Section Service.

(** The world around the service: the database session and the order of
    two failures, as for [retrieve]; what the payloads hold under
    [["metadata"]["display_time"]]; and the milliseconds the clock counts
    for a query. The task that logs the query is detached and is left
    out. *)
Variable get_db : result Session.
Variable db_first : bool.
Variable held_display_time : Candidate -> option (option string).
Variable elapsed_ms : Q.

(** The arguments of one [Source(...)], then its validation. *)
Definition source_of (ctx : Candidate) : result Source :=
  let p := payload ctx in
  text <- shorten 200 (content p) ;;
  let location :=
    match geo_point p with
    | Some gp => Some [gp_lon gp; gp_lat gp]
    | None => None
    end in
  address <- address_of p ;;
  let period := display_time_of (held_display_time ctx) in
  let relevance := py_round (score ctx) 4 in
  valid_location <- validate_location location ;;
  Ok (mkSource (entry_id p) (title p) text valid_location address period relevance).

Definition _format_sources (contexts : list Candidate) : result (list Source) :=
  mapM source_of contexts.

Definition query (self : RAGService) (query_text : string)
  (filters : option Filters) (options : option Options) : result QueryResponse :=
  query_intent <- query_understanding self query_text filters ;;
  let top_k := top_k_of options in
  contexts <- retrieve get_db db_first (retriever self) query_intent top_k ;;
  match contexts with
  | [] => Ok (mkQueryResponse not_found [] 0 (model (generator self)))
  | _ =>
      answer_text <- generate held_display_time (generator self) query_text contexts ;;
      formatted <- _format_sources contexts ;;
      Ok (mkQueryResponse answer_text formatted (py_round elapsed_ms 2)
            (model (generator self)))
  end.

(** [query_stream]: the records it yields, and the exception that ends
    it, if any. *)
Definition query_stream (self : RAGService) (query_text : string)
  (filters : option Filters) (options : option Options) : list Event * option exn :=
  match query_understanding self query_text filters with
  | Raise e => ([], Some e)
  | Ok query_intent =>
      let top_k := top_k_of options in
      match retrieve get_db db_first (retriever self) query_intent top_k with
      | Raise e => ([], Some e)
      | Ok contexts =>
          match _format_sources contexts with
          | Raise e => ([], Some e)
          | Ok formatted =>
              match contexts with
              | [] => ([SourcesEvent formatted; ContentEvent not_found; DoneEvent], None)
              | _ =>
                  let (chunks, failure) :=
                    generate_stream held_display_time (generator self)
                      query_text contexts in
                  (SourcesEvent formatted
                   :: map (fun chunk => ContentEvent (escape_quotes chunk)) chunks
                   ++ match failure with
                      | None => [DoneEvent]
                      | Some _ => []
                      end,
                   failure)
              end
          end
      end
  end.

End Service.

(* ------------------------------------------------------------------ *)
(** ** The routes of [api/query.py] *)

Inductive HTTPResult (A : Type) : Type :=
| Respond (a : A)
| HTTPException (status_code : nat) (detail : string).

Arguments Respond {A} a.
Arguments HTTPException {A} status_code detail.

(** What the stream of the route [/query/stream] carries: a record of
    the service, or the error record. *)
Inductive Line : Type :=
| Chunk (event : Event)
| ErrorLine (detail : string).

(** [get_rag_service], from what [app.state] holds. *)
Definition get_rag_service (state : option RAGService) : HTTPResult RAGService :=
  match state with
  | Some service => Respond service
  | None => HTTPException 503 "RAG service not initialized"
  end.

Section Routes.

Variable get_db : result Session.
Variable db_first : bool.
Variable held_display_time : Candidate -> option (option string).
Variable elapsed_ms : Q.

(** [str(e)] *)
Variable describe : exn -> string.

(** The route [/query]. *)
Definition query_route (state : option RAGService) (query_text : string)
  (filters : option Filters) (options : option Options) : HTTPResult QueryResponse :=
  match get_rag_service state with
  | HTTPException code detail => HTTPException code detail
  | Respond rag_service =>
      match query get_db db_first held_display_time elapsed_ms rag_service
              query_text filters options with
      | Ok response => Respond response
      | Raise e => HTTPException 500 (describe e)
      end
  end.

(** [stream_generator] of the route [/query/stream]. *)
Definition stream_generator (rag_service : RAGService) (query_text : string)
  (filters : option Filters) (options : option Options) : list Line :=
  let (events, failure) :=
    query_stream get_db db_first held_display_time rag_service
      query_text filters options in
  map Chunk events
  ++ match failure with
     | Some e => [ErrorLine (describe e)]
     | None => []
     end.

End Routes.

(** The source formatter can present this context: it has a content and a
    [geo_point] dictionary with two numbers. *)
Definition presentable (ctx : Candidate) : bool :=
  match content (payload ctx), geo_point (payload ctx) with
  | Some _, Some gp =>
      match gp_lat gp, gp_lon gp with
      | Some _, Some _ => true
      | _, _ => false
      end
  | _, _ => false
  end.

(** The exception [Source(...)] ends with on a context that is not
    presentable. *)
Definition source_failure (ctx : Candidate) : exn :=
  match content (payload ctx), geo_point (payload ctx) with
  | None, _ => TypeError
  | Some _, None => AttributeError
  | Some _, Some _ => ValidationError
  end.

(** Two presentable contexts in ranking order. *)
Definition ranked : list Candidate :=
  [described;
   mkCandidate "p3" 0.70004
     (mkPayload "c" "Temple of Heaven" (Some "Built in 1420."%string)
        Sample.at_center None None)].

Definition ranked_sources : list Source :=
  Eval vm_compute in
    match _format_sources no_display_time ranked with
    | Ok l => l
    | Raise _ => []
    end.

(** A small world: an index with two described points, a generator that
    answers and streams two deltas around another event, an understanding
    that finds no filter. *)
Definition library : AsyncQdrantClient :=
  fun _ =>
    Ok [mkScoredPoint "p1" 0.8
          (mkPayload "a" "Forbidden City" (Some "Built from 1406 to 1420."%string)
             Sample.at_center None None);
        mkScoredPoint "p2" 0.9
          (mkPayload "b" "Temple of Heaven" (Some "Built in 1420."%string)
             Sample.at_center None None)].

Definition oracle : LLMGenerator :=
  mkLLMGenerator
    (fun _ => Ok "An answer."%string)
    (fun _ =>
       ([mkStreamEvent "message_start" "";
         mkStreamEvent "content_block_delta" "An ";
         mkStreamEvent "content_block_delta" "answer."], None))
    "claude".

Definition understanding : string -> option Filters -> result QueryIntent :=
  fun _ _ => Ok (Sample.intent None None).

Definition service (cl : AsyncQdrantClient) : RAGService :=
  mkRAGService understanding (connected cl) oracle.

Definition unconnected_service : RAGService :=
  mkRAGService understanding unconnected oracle.

Definition describe_briefly (e : exn) : string :=
  match e with
  | Exception msg => msg
  | _ => "error"%string
  end.

(** An index that also holds a document stored without location. *)
Definition patchy : AsyncQdrantClient :=
  fun _ =>
    Ok [mkScoredPoint "p1" 0.8
          (mkPayload "a" "Forbidden City" (Some "Built from 1406 to 1420."%string)
             Sample.at_center None None);
        mkScoredPoint "p2" 0.9
          (mkPayload "b" "Nowhere" (Some "..."%string) None None None)].

(** The terminal records of a stream. *)
Definition terminal (l : Line) : bool :=
  match l with
  | Chunk DoneEvent => true
  | ErrorLine _ => true
  | _ => false
  end.

(** The sources a run formatted, [[]] if it raised. *)
Definition returned_sources (m : result (list Source)) : list Source :=
  match m with
  | Ok l => l
  | Raise _ => []
  end.

(* ------------------------------------------------------------------ *)
(** ** The time step on a time filter as it is declared *)

(** An instant of a [TimeFilter] as [request.py] declares it,
    [Union[int, str]]. *)
Inductive Instant : Type :=
| Number (q : Q)
| Text (s : string).

Record DeclaredTimeFilter : Type := mkDeclaredTimeFilter {
  declared_start : Instant;
  declared_end : Instant
}.

(** [max(a, b)] with an instant of the filter first and an instant of the
    candidate, a number, second: a string and a number cannot be
    compared. *)
Definition max_instant (a : Instant) (b : Q) : result Q :=
  match a with
  | Number x => Ok (Py.max x b)
  | Text _ => Raise TypeError
  end.

(** [min(a, b)], likewise. *)
Definition min_instant (a : Instant) (b : Q) : result Q :=
  match a with
  | Number x => Ok (Py.min x b)
  | Text _ => Raise TypeError
  end.

(** [a - b] on two instants of the filter. *)
Definition sub_instant (a b : Instant) : result Q :=
  match a, b with
  | Number x, Number y => Ok (x - y)
  | _, _ => Raise TypeError
  end.

(** Step 3 of the loop body of [_rerank], on such a filter. *)
Definition time_step (filter : option DeclaredTimeFilter) (res : Candidate)
  : result Q :=
  match filter with
  | Some f =>
      if Py.truthy (start_time (payload res)) && Py.truthy (end_time (payload res))
      then
        match start_time (payload res), end_time (payload res) with
        | Some res_start, Some res_end =>
            overlap_start <- max_instant (declared_start f) res_start ;;
            overlap_end <- min_instant (declared_end f) res_end ;;
            if Py.leb overlap_end overlap_start then Ok 0
            else
              let overlap_duration := overlap_end - overlap_start in
              query_duration <- sub_instant (declared_end f) (declared_start f) ;;
              Py.div overlap_duration (Some query_duration)
        | _, _ => Ok 1
        end
      else Ok 1
  | None => Ok 1
  end.

(** A filter whose two instants are numbers, as declared. *)
Definition declare (tf : TimeFilter) : DeclaredTimeFilter :=
  mkDeclaredTimeFilter (Number (start tf)) (Number (end_ tf)).

(** One of the two instants of the filter is a string. *)
Definition has_text (f : DeclaredTimeFilter) : bool :=
  match declared_start f, declared_end f with
  | Number _, Number _ => false
  | _, _ => true
  end.

(** The query [1500, 1700] with its years written as strings. *)
Definition years_as_text : DeclaredTimeFilter :=
  mkDeclaredTimeFilter (Text "1500") (Text "1700").

(** A database whose one row has a geometry. *)
Definition with_geometry : Session :=
  fun _ =>
    Ok [(mkKnowledgeEntry "c" "t" None,
         Some (mkGeoLocation (Some (mkGeometry 116.4 39.9))),
         None)].

(* ================================================================== *)
(** * Properties *)

(** ** The Python operations against the library's *)

Lemma ltb_lt (a b : Q) : Py.ltb a b = true <-> a < b.
Proof.
  unfold Py.ltb. rewrite negb_true_iff.
  split; intro H.
  - apply Qnot_le_lt. intro Hle. apply Qle_bool_iff in Hle. congruence.
  - destruct (Qle_bool b a) eqn:E; [|reflexivity].
    apply Qle_bool_iff in E. exfalso. lra.
Qed.

Lemma ltb_ge (a b : Q) : Py.ltb a b = false <-> b <= a.
Proof.
  unfold Py.ltb. rewrite negb_false_iff. apply Qle_bool_iff.
Qed.

Lemma leb_le (a b : Q) : Py.leb a b = true <-> a <= b.
Proof. apply Qle_bool_iff. Qed.

Lemma leb_gt (a b : Q) : Py.leb a b = false <-> b < a.
Proof.
  unfold Py.leb. split; intro H.
  - apply Qnot_le_lt. intro Hle. apply Qle_bool_iff in Hle. congruence.
  - destruct (Qle_bool a b) eqn:E; [|reflexivity].
    apply Qle_bool_iff in E. exfalso. lra.
Qed.

Ltac by_cases_lt a b :=
  let E := fresh "E" in
  destruct (Py.ltb a b) eqn:E;
  [apply ltb_lt in E | apply ltb_ge in E].

Lemma max_Qmax (a b : Q) : Py.max a b == Qmax a b.
Proof.
  unfold Py.max. by_cases_lt a b.
  - symmetry. apply Q.max_r. lra.
  - symmetry. apply Q.max_l. exact E.
Qed.

Lemma min_Qmin (a b : Q) : Py.min a b == Qmin a b.
Proof.
  unfold Py.min. by_cases_lt b a.
  - symmetry. apply Q.min_r. lra.
  - symmetry. apply Q.min_l. exact E.
Qed.

Lemma abs_Qabs (a : Q) : Py.abs a == Qabs a.
Proof.
  unfold Py.abs. by_cases_lt a 0.
  - symmetry. apply Qabs_neg. lra.
  - symmetry. apply Qabs_pos. exact E.
Qed.

Lemma truthy_false (v : option Q) :
  Py.truthy v = false <-> v = None \/ exists x, v = Some x /\ x == 0.
Proof.
  destruct v as [x|]; simpl.
  - rewrite negb_false_iff, Qeq_bool_iff. split.
    + intro H. right. exists x. split; [reflexivity | exact H].
    + intros [H | [y [Hy H0]]]; [discriminate | congruence].
  - split; [intros _; left; reflexivity | reflexivity].
Qed.

Lemma truthy_true (v : option Q) :
  Py.truthy v = true <-> exists x, v = Some x /\ ~ x == 0.
Proof.
  destruct v as [x|]; simpl.
  - rewrite negb_true_iff. split.
    + intro H. exists x. split; [reflexivity | apply Qeq_bool_neq; exact H].
    + intros [y [Hy H0]]. injection Hy as <-.
      destruct (Qeq_bool x 0) eqn:E; [|reflexivity].
      apply Qeq_bool_iff in E. contradiction.
  - split; [discriminate | intros [x [H _]]; discriminate].
Qed.

(** ** The monad *)

Lemma bind_ok {A B : Type} (m : result A) (k : A -> result B) (b : B) :
  bind m k = Ok b -> exists a, m = Ok a /\ k a = Ok b.
Proof.
  destruct m as [a|e]; simpl; intro H; [exists a; auto | discriminate].
Qed.

Lemma mapM_ok {A B : Type} (f : A -> result B) (l : list A) (out : list B) :
  mapM f l = Ok out -> Forall2 (fun a b => f a = Ok b) l out.
Proof.
  revert out. induction l as [|a l IH]; simpl; intros out H.
  - injection H as <-. constructor.
  - apply bind_ok in H as [b [Hb H]].
    apply bind_ok in H as [bs [Hbs H]].
    injection H as <-. constructor; auto.
Qed.

Lemma mapM_total {A B : Type} (f : A -> result B) (l : list A) :
  Forall (fun a => is_ok (f a) = true) l -> exists out, mapM f l = Ok out.
Proof.
  induction 1 as [|a l Ha _ [out IH]]; simpl.
  - exists []. reflexivity.
  - destruct (f a) as [b|e]; [|discriminate].
    exists (b :: out). simpl. rewrite IH. reflexivity.
Qed.

Lemma mapM_raise {A B : Type} (f : A -> result B) (l : list A) (a : A) (e : exn) :
  In a l -> f a = Raise e -> exists e', mapM f l = Raise e'.
Proof.
  induction l as [|x l IH]; simpl; intros Hin Hf; [contradiction|].
  destruct Hin as [-> | Hin].
  - rewrite Hf. exists e. reflexivity.
  - destruct (f x) as [b|e0]; simpl; [|exists e0; reflexivity].
    destruct (IH Hin Hf) as [e' ->]. exists e'. reflexivity.
Qed.

(** ** The sort *)

Lemma insert_desc_perm (x : Candidate) (l : list Candidate) :
  Permutation (insert_desc x l) (x :: l).
Proof.
  induction l as [|y l IH]; simpl.
  - apply Permutation_refl.
  - destruct (Py.ltb (score x) (score y)).
    + eapply perm_trans; [apply perm_skip, IH | apply perm_swap].
    + apply Permutation_refl.
Qed.

Lemma sorted_desc_perm (l : list Candidate) : Permutation (sorted_desc l) l.
Proof.
  induction l as [|x l IH]; simpl.
  - constructor.
  - eapply perm_trans; [apply insert_desc_perm | apply perm_skip, IH].
Qed.

Lemma insert_desc_sorted (x : Candidate) (l : list Candidate) :
  StronglySorted desc l -> StronglySorted desc (insert_desc x l).
Proof.
  induction 1 as [|y l Hs IH Hy]; simpl.
  - repeat constructor.
  - by_cases_lt (score x) (score y).
    + constructor; [exact IH|].
      apply Forall_forall. intros z Hz.
      apply (Permutation_in _ (insert_desc_perm x l)) in Hz.
      destruct Hz as [<- | Hz].
      * unfold desc. lra.
      * rewrite Forall_forall in Hy. apply Hy, Hz.
    + constructor; [constructor; assumption|].
      constructor; [exact E|].
      apply Forall_forall. intros z Hz.
      rewrite Forall_forall in Hy. specialize (Hy z Hz).
      unfold desc in *. lra.
Qed.

Lemma sorted_desc_sorted (l : list Candidate) : StronglySorted desc (sorted_desc l).
Proof.
  induction l as [|x l IH]; simpl.
  - constructor.
  - apply insert_desc_sorted, IH.
Qed.

Lemma insert_desc_stable (k : Q) (x : Candidate) (l : list Candidate) :
  filter (has_score k) (insert_desc x l) = filter (has_score k) (x :: l).
Proof.
  induction l as [|y l IH]; [reflexivity|].
  simpl insert_desc. by_cases_lt (score x) (score y); [|reflexivity].
  simpl in *. rewrite IH.
  unfold has_score.
  destruct (Qeq_bool (score x) k) eqn:Ex; [|reflexivity].
  destruct (Qeq_bool (score y) k) eqn:Ey; [|reflexivity].
  apply Qeq_bool_iff in Ex, Ey. exfalso. lra.
Qed.

Lemma sorted_desc_stable (k : Q) (l : list Candidate) :
  filter (has_score k) (sorted_desc l) = filter (has_score k) l.
Proof.
  induction l as [|x l IH]; [reflexivity|].
  simpl sorted_desc. rewrite insert_desc_stable. simpl. rewrite IH. reflexivity.
Qed.

Lemma sorted_adjacent (l l1 l2 : list Candidate) (a b : Candidate) :
  StronglySorted desc l -> l = l1 ++ a :: b :: l2 -> score b <= score a.
Proof.
  intros Hs ->. induction l1 as [|x l1 IH]; simpl in Hs.
  - inversion Hs as [|? ? _ Hall]; subst.
    inversion Hall; subst. assumption.
  - inversion Hs; subst. auto.
Qed.

(** ** One iteration of the _rerank loop *)

Lemma rescore_ok (query_intent : QueryIntent) (res res' : Candidate) :
  rescore query_intent res = Ok res' ->
  exists geo time,
    geo_score query_intent res = Ok geo /\
    time_score query_intent res = Ok time /\
    res' = set_score res (final_score (semantic_score res) geo time).
Proof.
  unfold rescore. intro H.
  apply bind_ok in H as [geo [Hg H]].
  apply bind_ok in H as [time [Ht H]].
  injection H as <-. exists geo, time. auto.
Qed.

Lemma final_score_bounds (s g t : Q) :
  0 <= s <= 1 -> 0 <= g <= 1 -> 0 <= t <= 1 -> 0 <= final_score s g t <= 1.
Proof.
  unfold final_score, alpha, beta, gamma. intros. lra.
Qed.

Lemma semantic_score_cases (res : Candidate) :
  (0 < score res -> semantic_score res = score res) /\
  (score res <= 0 -> semantic_score res = 0.5).
Proof.
  unfold semantic_score. by_cases_lt 0 (score res); split; intro H;
    try reflexivity; exfalso; lra.
Qed.

Lemma rerank_ok (results out : list Candidate) (query_intent : QueryIntent) :
  _rerank results query_intent = Ok out ->
  exists scored,
    mapM (rescore query_intent) results = Ok scored /\ out = sorted_desc scored.
Proof.
  unfold _rerank. intro H. apply bind_ok in H as [scored [Hs H]].
  injection H as <-. exists scored. auto.
Qed.

(** ** Rerank: the final score (C1) *)

(** C1. Whenever [_rerank] returns, its output holds, in some order, one
    rescored candidate per input candidate: same id and payload, and a
    score equal to [0.6 * semantic + 0.3 * geo + 0.1 * time], where [geo]
    and [time] are the sub-scores the loop body computed for that
    candidate and [semantic] is its incoming score when that is positive
    and [0.5] otherwise. When the three sub-scores lie in [0,1], so does
    the final score. *)
Theorem rerank_final_score :
  forall (query_intent : QueryIntent) (results out : list Candidate),
    _rerank results query_intent = Ok out ->
    exists scored : list Candidate,
      Permutation scored out /\
      Forall2
        (fun res res' =>
           id res' = id res /\ payload res' = payload res /\
           exists semantic geo time : Q,
             (0 < score res -> semantic = score res) /\
             (score res <= 0 -> semantic = 0.5) /\
             geo_score query_intent res = Ok geo /\
             time_score query_intent res = Ok time /\
             score res' = 0.6 * semantic + 0.3 * geo + 0.1 * time /\
             (0 <= semantic <= 1 -> 0 <= geo <= 1 -> 0 <= time <= 1 ->
              0 <= score res' <= 1))
        results scored.
Proof.
  intros query_intent results out H.
  apply rerank_ok in H as [scored [Hs ->]].
  exists scored. split.
  - apply Permutation_sym, sorted_desc_perm.
  - apply mapM_ok in Hs.
    induction Hs as [|res res' l l' Hr _ IH]; constructor; [|exact IH].
    apply rescore_ok in Hr as [geo [time [Hg [Ht ->]]]].
    simpl. repeat split.
    exists (semantic_score res), geo, time.
    destruct (semantic_score_cases res) as [Hpos Hneg].
    repeat split; auto.
    + apply final_score_bounds; assumption.
    + apply final_score_bounds; assumption.
Qed.

Lemma rerank_final_score_witness :
  exists scored : list Candidate,
    Permutation scored scenario_center_out /\
    Forall2
      (fun res res' =>
         id res' = id res /\ payload res' = payload res /\
         exists semantic geo time : Q,
           (0 < score res -> semantic = score res) /\
           (score res <= 0 -> semantic = 0.5) /\
           geo_score (Sample.intent (Some Sample.beijing) None) res = Ok geo /\
           time_score (Sample.intent (Some Sample.beijing) None) res = Ok time /\
           score res' = 0.6 * semantic + 0.3 * geo + 0.1 * time /\
           (0 <= semantic <= 1 -> 0 <= geo <= 1 -> 0 <= time <= 1 ->
            0 <= score res' <= 1))
      scenario_center scored.
Proof.
  apply (rerank_final_score (Sample.intent (Some Sample.beijing) None)
           scenario_center scenario_center_out).
  vm_compute. reflexivity.
Defined.

Example scenario_center_score :
  map score scenario_center_out = [0.880000000] /\ 0.880000000 == 0.88.
Proof. split; [reflexivity | reflexivity]. Qed.

(** The specification's second scenario: an unscored hit with no geo or time data
    and no filters ends at 0.70. *)
Example scenario_unscored :
  exists out,
    _rerank [Sample.cand "a" 0 None None None] (Sample.intent None None) = Ok out /\
    Forall (fun c => score c == 0.7) out.
Proof.
  eexists. split; [vm_compute; reflexivity|].
  repeat constructor.
Qed.

(** ** Rerank: order of the output (C5) *)

(** C5. Whenever [_rerank] returns, each candidate of its output scores at
    least as much as the next one; the output is determined by the inputs;
    and it is the list of rescored candidates rearranged so that
    candidates of equal score keep the order they came in. *)
Theorem rerank_sorted_deterministic :
  forall (results : list Candidate) (query_intent : QueryIntent)
         (out : list Candidate),
    _rerank results query_intent = Ok out ->
    (forall l1 a b l2, out = l1 ++ a :: b :: l2 -> score b <= score a) /\
    (forall out', _rerank results query_intent = Ok out' -> out' = out) /\
    (exists scored,
        mapM (rescore query_intent) results = Ok scored /\
        Permutation out scored /\
        forall k, filter (has_score k) out = filter (has_score k) scored).
Proof.
  intros results query_intent out H. split; [|split].
  - apply rerank_ok in H as [scored [_ ->]].
    intros l1 a b l2. apply sorted_adjacent, sorted_desc_sorted.
  - intros out' H'. congruence.
  - apply rerank_ok in H as [scored [Hs ->]].
    exists scored. split; [exact Hs|]. split.
    + apply sorted_desc_perm.
    + intro k. apply sorted_desc_stable.
Qed.

Lemma rerank_sorted_deterministic_witness :
  map id scenario_ties_out = ["b"; "a"; "c"]%string /\
  (forall l1 a b l2, scenario_ties_out = l1 ++ a :: b :: l2 -> score b <= score a) /\
  (forall out',
      _rerank scenario_ties (Sample.intent None None) = Ok out' ->
      out' = scenario_ties_out) /\
  (exists scored,
      mapM (rescore (Sample.intent None None)) scenario_ties = Ok scored /\
      Permutation scenario_ties_out scored /\
      forall k, filter (has_score k) scenario_ties_out = filter (has_score k) scored).
Proof.
  split; [reflexivity|].
  apply (rerank_sorted_deterministic scenario_ties (Sample.intent None None)
           scenario_ties_out).
  vm_compute. reflexivity.
Defined.

(** ** Rerank returns on candidates it can score *)

Lemma time_score_total (query_intent : QueryIntent) (res : Candidate) :
  exists t, time_score query_intent res = Ok t.
Proof.
  unfold time_score.
  destruct (time_filter query_intent) as [tf|]; [|eauto].
  destruct (Py.truthy (start_time (payload res)) && Py.truthy (end_time (payload res)));
    [|eauto].
  destruct (start_time (payload res)) as [rs|]; [|eauto].
  destruct (end_time (payload res)) as [re|]; [|eauto].
  cbv zeta.
  destruct (Py.leb (Py.min (end_ tf) re) (Py.max (start tf) rs)) eqn:E; [eauto|].
  apply leb_gt in E. unfold Py.div.
  destruct (Qeq_bool (end_ tf - start tf) 0) eqn:E0; [|eauto].
  exfalso. apply Qeq_bool_iff in E0.
  pose proof (max_Qmax (start tf) rs) as Hmax.
  pose proof (min_Qmin (end_ tf) re) as Hmin.
  pose proof (Q.le_max_l (start tf) rs).
  pose proof (Q.le_min_l (end_ tf) re).
  lra.
Qed.

Lemma geo_score_total (query_intent : QueryIntent) (res : Candidate) :
  geo_ready query_intent res = true -> exists g, geo_score query_intent res = Ok g.
Proof.
  unfold geo_ready, geo_score, distance_km.
  destruct (geo_filter query_intent) as [gf|]; [|eauto].
  destruct (geo_point (payload res)) as [gp|]; [|eauto].
  destruct (gp_lat gp) as [a|]; [|discriminate].
  destruct (gp_lon gp) as [b|]; [|discriminate].
  destruct (radius_km gf) as [r|]; [|discriminate].
  simpl. intro Hr. apply negb_true_iff in Hr. rewrite Hr. simpl. eauto.
Qed.

Lemma rerank_total (results : list Candidate) (query_intent : QueryIntent) :
  Forall (fun res => geo_ready query_intent res = true) results ->
  exists out, _rerank results query_intent = Ok out.
Proof.
  intro H. unfold _rerank.
  destruct (mapM_total (rescore query_intent) results) as [scored Hs].
  - eapply Forall_impl; [|exact H]. intros res Hres. unfold rescore.
    destruct (geo_score_total _ _ Hres) as [g ->].
    destruct (time_score_total query_intent res) as [t ->].
    reflexivity.
  - rewrite Hs. simpl. eauto.
Qed.

(** ** Rerank: the geo sub-score (C2) *)

Lemma div_le_div (d d' r : Q) : 0 < r -> d <= d' -> d / r <= d' / r.
Proof.
  intros Hr Hd. unfold Qdiv. apply Qmult_le_compat_r; [exact Hd|].
  apply Qlt_le_weak, Qinv_lt_0_compat, Hr.
Qed.

(** The value the geo step computes from a distance and a radius. *)
Lemma decay_Qmax (d d' r : Q) : d == d' -> Py.max 0 (1 - d / r) == Qmax 0 (1 - d' / r).
Proof.
  intro H. rewrite max_Qmax. rewrite H. reflexivity.
Qed.

Lemma decay_at_zero (d r : Q) : 0 < r -> d == 0 -> Qmax 0 (1 - d / r) == 1.
Proof.
  intros Hr Hd. rewrite Hd. unfold Qdiv. rewrite Qmult_0_l.
  apply Q.max_r. lra.
Qed.

Lemma decay_beyond_radius (d r : Q) : 0 < r -> r <= d -> Qmax 0 (1 - d / r) == 0.
Proof.
  intros Hr Hd. apply Q.max_l.
  assert (1 <= d / r) by (apply Qle_shift_div_l; [exact Hr | lra]).
  lra.
Qed.

Lemma decay_monotone (d d' r : Q) :
  0 < r -> d <= d' -> Qmax 0 (1 - d' / r) <= Qmax 0 (1 - d / r).
Proof.
  intros Hr Hd. pose proof (div_le_div d d' r Hr Hd).
  apply Q.max_le_compat_l. lra.
Qed.

Lemma geo_score_with_point (query_intent : QueryIntent) (gf : GeoFilter)
  (res : Candidate) (rlat rlon r : Q) :
  geo_filter query_intent = Some gf ->
  radius_km gf = Some r -> 0 < r ->
  geo_point (payload res) = Some (mkGeoPoint (Some rlat) (Some rlon)) ->
  exists g,
    geo_score query_intent res = Ok g /\
    g == Qmax 0 (1 - manhattan_km (lat gf) (lon gf) rlat rlon / r).
Proof.
  intros Hgf Hr Hpos Hgp. unfold geo_score, distance_km.
  rewrite Hgf, Hgp, Hr. simpl.
  destruct (Qeq_bool r 0) eqn:E.
  - apply Qeq_bool_iff in E. exfalso. lra.
  - simpl. eexists. split; [reflexivity|].
    apply decay_Qmax. unfold manhattan_km. rewrite !abs_Qabs. reflexivity.
Qed.

(** C2. With a geo filter of radius [r > 0] and a candidate whose geo
    point has a latitude and a longitude, the geo step returns
    [max(0, 1 - distance / r)], where [distance] is
    [|dlat| * 111 + |dlon| * 111]. Hence distance 0 gives 1, a distance of
    [r] or more gives 0, and a candidate that is at least as far gets at
    most as much. *)
Theorem geo_score_linear_decay :
  forall (query_intent : QueryIntent) (gf : GeoFilter) (res : Candidate)
         (rlat rlon r : Q),
    geo_filter query_intent = Some gf ->
    radius_km gf = Some r -> 0 < r ->
    geo_point (payload res) = Some (mkGeoPoint (Some rlat) (Some rlon)) ->
    let distance := manhattan_km (lat gf) (lon gf) rlat rlon in
    exists g,
      geo_score query_intent res = Ok g /\
      g == Qmax 0 (1 - distance / r) /\
      (distance == 0 -> g == 1) /\
      (r <= distance -> g == 0) /\
      (forall (res' : Candidate) (rlat' rlon' : Q),
          geo_point (payload res') = Some (mkGeoPoint (Some rlat') (Some rlon')) ->
          distance <= manhattan_km (lat gf) (lon gf) rlat' rlon' ->
          exists g', geo_score query_intent res' = Ok g' /\ g' <= g).
Proof.
  intros query_intent gf res rlat rlon r Hgf Hr Hpos Hgp distance.
  destruct (geo_score_with_point _ _ _ _ _ _ Hgf Hr Hpos Hgp) as [g [Hg Hval]].
  fold distance in Hval.
  exists g. split; [exact Hg|]. split; [exact Hval|]. split; [|split].
  - intro H0. rewrite Hval. apply decay_at_zero; assumption.
  - intro Hfar. rewrite Hval. apply decay_beyond_radius; assumption.
  - intros res' rlat' rlon' Hgp' Hd.
    destruct (geo_score_with_point _ _ _ _ _ _ Hgf Hr Hpos Hgp') as [g' [Hg' Hval']].
    exists g'. split; [exact Hg'|].
    rewrite Hval, Hval'. apply decay_monotone; assumption.
Qed.

Lemma geo_score_linear_decay_witness :
  let distance := manhattan_km 39.9 116.4 39.95 116.4 in
  exists g,
    geo_score (Sample.intent (Some Sample.beijing) None) north_of_center = Ok g /\
    g == Qmax 0 (1 - distance / 10) /\
    (distance == 0 -> g == 1) /\
    (10 <= distance -> g == 0) /\
    (forall (res' : Candidate) (rlat' rlon' : Q),
        geo_point (payload res') = Some (mkGeoPoint (Some rlat') (Some rlon')) ->
        distance <= manhattan_km 39.9 116.4 rlat' rlon' ->
        exists g',
          geo_score (Sample.intent (Some Sample.beijing) None) res' = Ok g' /\
          g' <= g).
Proof.
  apply (geo_score_linear_decay (Sample.intent (Some Sample.beijing) None)
           Sample.beijing north_of_center 39.95 116.4 10);
    reflexivity.
Defined.

Example north_of_center_geo_score :
  exists g,
    geo_score (Sample.intent (Some Sample.beijing) None) north_of_center = Ok g /\
    g == 0.445.
Proof. eexists. split; [vm_compute; reflexivity | reflexivity]. Qed.

(** The geo step is neutral when the query has no geo filter, and when the
    candidate's [geo_point] is [None]. *)
Lemma geo_score_neutral (query_intent : QueryIntent) (res : Candidate) :
  geo_filter query_intent = None \/ geo_point (payload res) = None ->
  geo_score query_intent res = Ok 1.
Proof.
  unfold geo_score. intros [-> | ->]; [reflexivity|].
  destruct (geo_filter query_intent); reflexivity.
Qed.

(** What the formatter of database rows stores under ["geo_point"] for an
    entry without a geo record: a dictionary of two [None]. *)
Lemma format_row_without_geo (entry : KnowledgeEntry) (temporal : option TemporalInfo)
  (c : Candidate) :
  format_row (entry, None, temporal) = Ok c ->
  geo_point (payload c) = Some (mkGeoPoint None None) /\ score c = 0.
Proof.
  unfold format_row. simpl. intro H. apply bind_ok in H as [[] [_ H]].
  injection H as <-. split; reflexivity.
Qed.

(** The guard of the geo step looks at the dictionary, not at its
    entries: on a dictionary without latitude the distance cannot be
    computed. *)
Lemma geo_score_none_coordinates (query_intent : QueryIntent) (gf : GeoFilter)
  (res : Candidate) (rlon : option Q) :
  geo_filter query_intent = Some gf ->
  geo_point (payload res) = Some (mkGeoPoint None rlon) ->
  geo_score query_intent res = Raise TypeError.
Proof.
  intros Hgf Hgp. unfold geo_score, distance_km. rewrite Hgf, Hgp. reflexivity.
Qed.

(** ** Rerank: the time sub-score (C3, C10) *)

Lemma time_score_overlap (query_intent : QueryIntent) (tf : TimeFilter)
  (res : Candidate) (cs ce : Q) :
  time_filter query_intent = Some tf ->
  start_time (payload res) = Some cs -> ~ cs == 0 ->
  end_time (payload res) = Some ce -> ~ ce == 0 ->
  exists t,
    time_score query_intent res = Ok t /\
    t == spec_time_score (start tf) (end_ tf) cs ce.
Proof.
  intros Htf Hcs Hcs0 Hce Hce0.
  destruct (time_score_total query_intent res) as [t Ht].
  exists t. split; [exact Ht|].
  revert Ht. unfold time_score, spec_time_score. rewrite Htf, Hcs, Hce.
  assert (Py.truthy (Some cs) = true) as -> by (apply truthy_true; eauto).
  assert (Py.truthy (Some ce) = true) as -> by (apply truthy_true; eauto).
  cbv zeta. simpl andb. cbv iota.
  unfold Py.leb.
  rewrite (Qleb_comp _ _ (min_Qmin (end_ tf) ce) _ _ (max_Qmax (start tf) cs)).
  destruct (Qle_bool (Qmin (end_ tf) ce) (Qmax (start tf) cs)).
  - intro H. injection H as <-. reflexivity.
  - unfold Py.div. destruct (Qeq_bool (end_ tf - start tf) 0); [discriminate|].
    intro H. injection H as <-.
    rewrite min_Qmin, max_Qmax. reflexivity.
Qed.

(** The specification's third scenario: the interval [1368, 1644] against the query
    [1500, 1700] gives 144/200 = 0.72. *)
Example time_score_ming :
  exists t,
    time_score (Sample.intent None (Some Sample.ming_to_qing)) ming = Ok t /\
    t == 144 / 200 /\ t == 0.72.
Proof.
  eexists. split; [vm_compute; reflexivity|]. split; reflexivity.
Qed.

(** C3. The interval [0, 150] against the query [100, 200]: both
    instants are there and the intervals overlap on [100, 150], half of
    the query's span, but the start instant [0] is false for the guard of
    the time step, which therefore leaves the sub-score at 1 instead of
    computing the overlap. *)
Theorem time_score_epoch_start_divergence :
  exists t,
    time_score (Sample.intent None (Some hundred_to_two_hundred)) from_epoch = Ok t /\
    t == 1 /\
    spec_time_score 100 200 0 150 == 0.5 /\
    ~ t == spec_time_score 100 200 0 150.
Proof.
  eexists. split; [vm_compute; reflexivity|].
  split; [reflexivity|]. split; [reflexivity|].
  intro H. vm_compute in H. discriminate.
Qed.

(** C10. Against a query with a time filter, a candidate whose start or
    end instant is [None] or equal to [0] gets the time sub-score 1, the
    same as the candidate with both instants removed. *)
Theorem time_score_zero_or_absent_neutral :
  forall (query_intent : QueryIntent) (tf : TimeFilter) (res : Candidate),
    time_filter query_intent = Some tf ->
    (start_time (payload res) = None \/
     (exists x, start_time (payload res) = Some x /\ x == 0) \/
     end_time (payload res) = None \/
     (exists x, end_time (payload res) = Some x /\ x == 0)) ->
    time_score query_intent res = Ok 1 /\
    time_score query_intent res = time_score query_intent (without_times res).
Proof.
  intros query_intent tf res Htf H.
  assert (Py.truthy (start_time (payload res)) && Py.truthy (end_time (payload res))
          = false) as Hguard.
  { apply andb_false_iff.
    destruct H as [H | [H | [H | H]]];
      [left | left | right | right]; apply truthy_false; auto. }
  unfold time_score. rewrite Htf, Hguard. simpl. split; reflexivity.
Qed.

Lemma time_score_zero_or_absent_neutral_witness :
  time_score (Sample.intent None (Some hundred_to_two_hundred)) from_epoch = Ok 1 /\
  time_score (Sample.intent None (Some hundred_to_two_hundred)) from_epoch =
  time_score (Sample.intent None (Some hundred_to_two_hundred)) (without_times from_epoch).
Proof.
  apply (time_score_zero_or_absent_neutral
           (Sample.intent None (Some hundred_to_two_hundred))
           hundred_to_two_hundred from_epoch).
  - reflexivity.
  - right. left. exists 0. split; reflexivity.
Defined.

(** ** The dictionary *)

Lemma dict_mem_In (k : string) (d : Dict) :
  dict_mem k d = true <-> In k (dict_keys d).
Proof.
  induction d as [|[k' v'] d IH]; simpl.
  - split; [discriminate | contradiction].
  - rewrite orb_true_iff, IH, String.eqb_eq. intuition congruence.
Qed.

Lemma dict_set_keys (k : string) (v : Candidate) (d : Dict) :
  dict_keys (dict_set k v d) =
  if dict_mem k d then dict_keys d else dict_keys d ++ [k].
Proof.
  induction d as [|[k' v'] d IH]; simpl; [reflexivity|].
  destruct (String.eqb k k') eqn:E; simpl; [reflexivity|].
  rewrite IH. destruct (dict_mem k d); reflexivity.
Qed.

Lemma dict_set_NoDup (k : string) (v : Candidate) (d : Dict) :
  NoDup (dict_keys d) -> NoDup (dict_keys (dict_set k v d)).
Proof.
  intro H. rewrite dict_set_keys. destruct (dict_mem k d) eqn:E; [exact H|].
  apply NoDup_app; [exact H | repeat constructor; simpl; tauto |].
  intros x Hx [<- | []]. apply dict_mem_In in Hx. congruence.
Qed.

Lemma dict_set_length (k : string) (v : Candidate) (d : Dict) :
  (List.length (dict_set k v d) <= S (List.length d))%nat.
Proof.
  induction d as [|[k' v'] d IH]; simpl; [lia|].
  destruct (String.eqb k k'); simpl; lia.
Qed.

Lemma dict_set_keyed (v : Candidate) (d : Dict) :
  keyed d -> keyed (dict_set (key v) v d).
Proof.
  unfold keyed. induction 1 as [|[k' v'] d Hk Hd IH]; simpl.
  - repeat constructor.
  - destruct (String.eqb (key v) k') eqn:E.
    + apply String.eqb_eq in E. constructor; [symmetry; exact E | assumption].
    + constructor; assumption.
Qed.

Lemma dict_get_set_same (k : string) (v : Candidate) (d : Dict) :
  dict_get k (dict_set k v d) = Some v.
Proof.
  induction d as [|[k' v'] d IH]; simpl.
  - rewrite String.eqb_refl. reflexivity.
  - destruct (String.eqb k k') eqn:E; simpl; rewrite E; [reflexivity | exact IH].
Qed.

Lemma dict_get_set_other (k k0 : string) (v : Candidate) (d : Dict) :
  String.eqb k0 k = false -> dict_get k0 (dict_set k v d) = dict_get k0 d.
Proof.
  intro Hne. induction d as [|[k' v'] d IH]; simpl.
  - rewrite Hne. reflexivity.
  - destruct (String.eqb k k') eqn:E; simpl.
    + apply String.eqb_eq in E. subst k'. rewrite Hne. reflexivity.
    + rewrite IH. reflexivity.
Qed.

Lemma dict_get_mem (k : string) (d : Dict) :
  dict_mem k d = true <-> exists c, dict_get k d = Some c.
Proof.
  induction d as [|[k' v'] d IH]; simpl.
  - split; [discriminate | intros [c H]; discriminate].
  - destruct (String.eqb k k'); simpl; [|exact IH].
    split; eauto.
Qed.

Lemma dict_get_In (k : string) (c : Candidate) (d : Dict) :
  dict_get k d = Some c -> In c (dict_values d).
Proof.
  induction d as [|[k' v'] d IH]; simpl; [discriminate|].
  destruct (String.eqb k k'); [intro H; injection H as <-; auto | auto].
Qed.

Lemma dict_In_get (c : Candidate) (d : Dict) :
  keyed d -> NoDup (dict_keys d) -> In c (dict_values d) ->
  dict_get (key c) d = Some c.
Proof.
  unfold keyed. induction 1 as [|[k' v'] d Hk Hd IH]; simpl; [contradiction|].
  intros Hnd [<- | Hin]; simpl in Hk.
  - rewrite Hk, String.eqb_refl. reflexivity.
  - inversion Hnd as [|? ? Hnotin Hnd']; subst.
    destruct (String.eqb (key c) (key v')) eqn:E; [|auto].
    exfalso. apply Hnotin. apply String.eqb_eq in E. rewrite <- E.
    specialize (IH Hnd' Hin). apply dict_mem_In, dict_get_mem. eauto.
Qed.

Lemma keyed_values (d : Dict) : keyed d -> map key (dict_values d) = dict_keys d.
Proof.
  unfold keyed, dict_values, dict_keys.
  induction 1 as [|[k v] d Hk _ IH]; simpl; [reflexivity|].
  simpl in Hk. rewrite IH, Hk. reflexivity.
Qed.

(** ** The two loops of the merge *)

Lemma add_vector_wf (d : Dict) (res : Candidate) :
  well_formed d -> well_formed (add_vector d res).
Proof.
  intros [Hk Hn]. split; [apply dict_set_keyed | apply dict_set_NoDup]; assumption.
Qed.

Lemma add_db_wf (d : Dict) (res : Candidate) :
  well_formed d -> well_formed (add_db d res).
Proof.
  intros H. unfold add_db. destruct (dict_mem _ d); [exact H|].
  apply (add_vector_wf d res H).
Qed.

Lemma fold_wf (step : Dict -> Candidate -> Dict) (l : list Candidate) (d : Dict) :
  (forall d res, well_formed d -> well_formed (step d res)) ->
  well_formed d -> well_formed (fold_left step l d).
Proof.
  intro Hstep. revert d. induction l as [|x l IH]; simpl; auto.
Qed.

Lemma fold_length (step : Dict -> Candidate -> Dict) (l : list Candidate) (d : Dict) :
  (forall d res, (List.length (step d res) <= S (List.length d))%nat) ->
  (List.length (fold_left step l d) <= List.length d + List.length l)%nat.
Proof.
  intro Hstep. revert d. induction l as [|x l IH]; simpl; intro d; [lia|].
  specialize (IH (step d x)). specialize (Hstep d x). lia.
Qed.

Lemma add_db_length (d : Dict) (res : Candidate) :
  (List.length (add_db d res) <= S (List.length d))%nat.
Proof.
  unfold add_db. destruct (dict_mem _ d); [lia | apply dict_set_length].
Qed.

Lemma add_vector_get (k : string) (d : Dict) (res : Candidate) :
  dict_get k (add_vector d res) = latest k (dict_get k d) res.
Proof.
  unfold add_vector, latest. fold (key res).
  destruct (String.eqb k (key res)) eqn:E.
  - apply String.eqb_eq in E. subst k. apply dict_get_set_same.
  - apply dict_get_set_other, E.
Qed.

Lemma fold_add_vector_get (k : string) (l : list Candidate) (d : Dict) :
  dict_get k (fold_left add_vector l d) = fold_left (latest k) l (dict_get k d).
Proof.
  revert d. induction l as [|x l IH]; simpl; intro d; [reflexivity|].
  rewrite IH, add_vector_get. reflexivity.
Qed.

Lemma add_db_keeps (k : string) (c : Candidate) (d : Dict) (res : Candidate) :
  dict_get k d = Some c -> dict_get k (add_db d res) = Some c.
Proof.
  intro H. unfold add_db. fold (key res).
  destruct (dict_mem (key res) d) eqn:E; [exact H|].
  rewrite dict_get_set_other; [exact H|].
  destruct (String.eqb k (key res)) eqn:Ek; [|reflexivity].
  apply String.eqb_eq in Ek. subst k.
  assert (dict_mem (key res) d = true) by (apply dict_get_mem; eauto).
  congruence.
Qed.

Lemma fold_add_db_keeps (k : string) (c : Candidate) (l : list Candidate) (d : Dict) :
  dict_get k d = Some c -> dict_get k (fold_left add_db l d) = Some c.
Proof.
  revert d. induction l as [|x l IH]; simpl; intros d H; [exact H|].
  apply IH, add_db_keeps, H.
Qed.

(** ** The last vector result of a key *)

Lemma fold_latest_some (k : string) (l : list Candidate) (acc : option Candidate) :
  (exists a, In a l /\ key a = k) \/ acc <> None ->
  exists c, fold_left (latest k) l acc = Some c.
Proof.
  revert acc. induction l as [|x l IH]; simpl; intros acc H.
  - destruct H as [[a [[] _]] | H].
    destruct acc as [c|]; [eauto | congruence].
  - apply IH. unfold latest.
    destruct (String.eqb k (key x)) eqn:E; [right; discriminate|].
    destruct H as [[a [[<- | Hin] Hk]] | H]; [|left; eauto | right; exact H].
    subst k. rewrite String.eqb_refl in E. discriminate.
Qed.

Lemma fold_latest_In (k : string) (l : list Candidate) (acc : option Candidate)
  (c : Candidate) :
  fold_left (latest k) l acc = Some c ->
  (In c l /\ key c = k) \/ acc = Some c.
Proof.
  revert acc. induction l as [|x l IH]; simpl; intros acc H; [auto|].
  apply IH in H as [[Hin Hk] | H]; [auto|].
  unfold latest in H. destruct (String.eqb k (key x)) eqn:E; [|auto].
  injection H as <-. apply String.eqb_eq in E. auto.
Qed.

Lemma fold_latest_unique (l : list Candidate) (a : Candidate) (acc : option Candidate) :
  NoDup (map key l) -> In a l -> fold_left (latest (key a)) l acc = Some a.
Proof.
  revert acc. induction l as [|x l IH]; simpl; intros acc Hnd Hin; [contradiction|].
  inversion Hnd as [|? ? Hnotin Hnd']; subst.
  destruct Hin as [-> | Hin]; [|auto].
  unfold latest at 2. rewrite String.eqb_refl.
  destruct (fold_left (latest (key a)) l (Some a)) as [c|] eqn:E.
  - apply fold_latest_In in E as [[Hin Hk] | E]; [|symmetry; exact E].
    exfalso. apply Hnotin. rewrite <- Hk. apply in_map, Hin.
  - destruct (fold_latest_some (key a) l (Some a)) as [c Hc];
      [right; discriminate | congruence].
Qed.

(** ** Merge (C4) *)

Lemma merged_dict_wf (vector_results db_results : list Candidate) :
  well_formed (merged_dict vector_results db_results).
Proof.
  unfold merged_dict.
  apply fold_wf; [exact add_db_wf|].
  apply fold_wf; [exact add_vector_wf|].
  split; constructor.
Qed.

Lemma merged_dict_length (vector_results db_results : list Candidate) :
  (List.length (merged_dict vector_results db_results)
   <= List.length vector_results + List.length db_results)%nat.
Proof.
  unfold merged_dict.
  pose proof (fold_length add_db db_results
                (fold_left add_vector vector_results []) add_db_length).
  pose proof (fold_length add_vector vector_results []
                (fun d res => dict_set_length _ res d)).
  simpl in *. lia.
Qed.

(** A key with a vector result holds the last vector result filed under
    it, whatever the database results are. *)
Lemma merged_dict_vector (vector_results db_results : list Candidate) (a : Candidate) :
  In a vector_results ->
  exists c,
    last_with (key a) vector_results = Some c /\
    dict_get (key a) (merged_dict vector_results db_results) = Some c.
Proof.
  intro Hin.
  destruct (fold_latest_some (key a) vector_results None) as [c Hc];
    [left; eauto|].
  exists c. split; [exact Hc|].
  unfold merged_dict. apply fold_add_db_keeps.
  rewrite fold_add_vector_get. exact Hc.
Qed.

(** C4. The merged list holds each entry id at most once and is no longer
    than the two inputs together. For an id that both inputs have, the one
    merged entry with that id is a vector result, the last one filed under
    the id; when the vector results have distinct ids it is the vector
    result itself, with its score. *)
Theorem merge_results_dedup :
  forall vector_results db_results : list Candidate,
    let out := _merge_results vector_results db_results in
    NoDup (map key out) /\
    (List.length out <= List.length vector_results + List.length db_results)%nat /\
    (forall a b : Candidate,
        In a vector_results -> In b db_results -> key a = key b ->
        exists c,
          In c out /\ key c = key a /\
          (forall c', In c' out -> key c' = key a -> c' = c) /\
          In c vector_results /\
          last_with (key a) vector_results = Some c /\
          (NoDup (map key vector_results) -> c = a /\ score c = score a)).
Proof.
  intros vector_results db_results out.
  destruct (merged_dict_wf vector_results db_results) as [Hk Hn].
  split; [|split].
  - unfold out, _merge_results. rewrite keyed_values; assumption.
  - unfold out, _merge_results, dict_values. rewrite length_map.
    apply merged_dict_length.
  - intros a b Ha _ _.
    destruct (merged_dict_vector vector_results db_results a Ha) as [c [Hlast Hget]].
    pose proof Hlast as Hc. unfold last_with in Hc.
    apply fold_latest_In in Hc as [[Hcin Hck] | Hc]; [|discriminate].
    exists c. split; [exact (dict_get_In _ _ _ Hget)|].
    split; [exact Hck|]. split; [|split; [exact Hcin|split; [exact Hlast|]]].
    + intros c' Hin' Hk'.
      pose proof (dict_In_get c' _ Hk Hn Hin') as Hget'.
      rewrite Hk' in Hget'. congruence.
    + intro Hnd. unfold last_with in Hlast.
      rewrite (fold_latest_unique vector_results a None Hnd Ha) in Hlast.
      injection Hlast as <-. split; reflexivity.
Qed.

Lemma merge_results_dedup_witness :
  map key (_merge_results vector_hits db_hits) = ["a"; "b"; "c"]%string /\
  exists c,
    In c (_merge_results vector_hits db_hits) /\ key c = "a"%string /\
    In c vector_hits /\ score c = 0.3.
Proof.
  split; [reflexivity|].
  destruct (merge_results_dedup vector_hits db_hits) as [_ [_ H]].
  destruct (H (Sample.cand "a" 0.8 None None None)
              (Sample.cand "a" 0 Sample.at_center None None))
    as [c [Hin [Hk [_ [Hv [Hlast _]]]]]].
  - simpl. auto.
  - simpl. auto.
  - reflexivity.
  - exists c. repeat split; try assumption.
    vm_compute in Hlast. injection Hlast as <-. reflexivity.
Defined.

(** ** Retrieve (C8, C9) *)

Lemma prefix_firstn {A : Type} (l : list A) (k : Z) :
  (0 <= k)%Z -> Py.prefix l k = firstn (Z.to_nat k) l.
Proof.
  intro H. unfold Py.prefix. apply Z.leb_le in H. rewrite H. reflexivity.
Qed.

Lemma rerank_nil (query_intent : QueryIntent) : _rerank [] query_intent = Ok [].
Proof. reflexivity. Qed.

(** [retrieve] once both tasks have returned. *)
Lemma retrieve_after_gather (get_db : result Session) (db_first : bool) (self : HybridRetriever)
  (query_intent : QueryIntent) (top_k : Z) (v d : list Candidate) :
  _vector_retrieval self query_intent (top_k * 2) = Ok v ->
  _db_retrieval get_db query_intent (top_k * 2) = Ok d ->
  retrieve get_db db_first self query_intent top_k =
  (reranked <- _rerank (_merge_results v d) query_intent ;;
   Ok (Py.prefix reranked top_k)).
Proof.
  intros Hv Hd. unfold retrieve. rewrite Hv, Hd. simpl.
  destruct (_merge_results v d) eqn:E; [|reflexivity].
  rewrite rerank_nil. simpl. unfold Py.prefix.
  destruct (0 <=? top_k)%Z; rewrite firstn_nil; reflexivity.
Qed.

Lemma retrieve_ok (get_db : result Session) (db_first : bool) (self : HybridRetriever)
  (query_intent : QueryIntent) (top_k : Z) (out : list Candidate) :
  retrieve get_db db_first self query_intent top_k = Ok out ->
  exists v d reranked,
    _vector_retrieval self query_intent (top_k * 2) = Ok v /\
    _db_retrieval get_db query_intent (top_k * 2) = Ok d /\
    _rerank (_merge_results v d) query_intent = Ok reranked /\
    out = Py.prefix reranked top_k.
Proof.
  intro H.
  destruct (_vector_retrieval self query_intent (top_k * 2)) as [v|e] eqn:Hv.
  - destruct (_db_retrieval get_db query_intent (top_k * 2)) as [d|e] eqn:Hd.
    + rewrite (retrieve_after_gather _ _ _ _ _ v d Hv Hd) in H.
      apply bind_ok in H as [reranked [Hr H]]. injection H as <-.
      exists v, d, reranked. auto.
    + unfold retrieve in H. rewrite Hv, Hd in H. discriminate.
  - unfold retrieve in H. rewrite Hv in H.
    destruct (_db_retrieval get_db query_intent (top_k * 2)); discriminate.
Qed.

(** C8. For [top_k >= 0]: a list returned by [retrieve] has at most
    [top_k] entries; once both retrievals have returned and the merged
    candidates are reranked, [retrieve] returns the first [top_k] of the
    reranked list, which is the whole list when it has no more than
    [top_k] entries; and when both retrievals return no candidate,
    [retrieve] returns the empty list. *)
Theorem retrieve_top_k :
  forall (get_db : result Session) (db_first : bool) (self : HybridRetriever)
         (query_intent : QueryIntent) (top_k : Z),
    (0 <= top_k)%Z ->
    (forall out,
        retrieve get_db db_first self query_intent top_k = Ok out ->
        (Z.of_nat (List.length out) <= top_k)%Z) /\
    (forall v d reranked,
        _vector_retrieval self query_intent (top_k * 2) = Ok v ->
        _db_retrieval get_db query_intent (top_k * 2) = Ok d ->
        _rerank (_merge_results v d) query_intent = Ok reranked ->
        retrieve get_db db_first self query_intent top_k
        = Ok (firstn (Z.to_nat top_k) reranked) /\
        ((Z.of_nat (List.length reranked) <= top_k)%Z ->
         retrieve get_db db_first self query_intent top_k = Ok reranked)) /\
    (_vector_retrieval self query_intent (top_k * 2) = Ok [] ->
     _db_retrieval get_db query_intent (top_k * 2) = Ok [] ->
     retrieve get_db db_first self query_intent top_k = Ok []).
Proof.
  intros get_db db_first self query_intent top_k Hk. split; [|split].
  - intros out H.
    apply retrieve_ok in H as [v [d [reranked [_ [_ [_ ->]]]]]].
    rewrite prefix_firstn by exact Hk.
    pose proof (firstn_le_length (Z.to_nat top_k) reranked). lia.
  - intros v d reranked Hv Hd Hr.
    rewrite (retrieve_after_gather _ _ _ _ _ v d Hv Hd), Hr. simpl.
    rewrite prefix_firstn by exact Hk. split; [reflexivity|].
    intro Hlen. rewrite firstn_all2; [reflexivity | lia].
  - intros Hv Hd. unfold retrieve. rewrite Hv, Hd. reflexivity.
Qed.

Lemma retrieve_top_k_witness :
  map id top_two = ["p2"; "p1"]%string /\
  (forall out,
      retrieve (Ok two_rows) false (connected two_points)
        (Sample.intent None None) 2 = Ok out ->
      (Z.of_nat (List.length out) <= 2)%Z) /\
  retrieve (Ok two_rows) false (connected two_points)
    (Sample.intent None None) 2 = Ok top_two /\
  (exists reranked,
      List.length reranked = 3%nat /\
      retrieve (Ok two_rows) false (connected two_points)
        (Sample.intent None None) 5 = Ok reranked) /\
  retrieve (Ok no_rows) false (connected no_points)
    (Sample.intent (Some Sample.beijing) None) 2 = Ok [].
Proof.
  split; [reflexivity|].
  destruct (retrieve_top_k (Ok two_rows) false (connected two_points)
              (Sample.intent None None) 2) as [Hlen [Hfirst _]];
    [discriminate|].
  split; [exact Hlen|]. split.
  { destruct (Hfirst
                (returned (_vector_retrieval (connected two_points)
                             (Sample.intent None None) (2 * 2)))
                (returned (_db_retrieval (Ok two_rows)
                             (Sample.intent None None) (2 * 2)))
                (returned (_rerank
                   (_merge_results
                      (returned (_vector_retrieval (connected two_points)
                                   (Sample.intent None None) (2 * 2)))
                      (returned (_db_retrieval (Ok two_rows)
                                   (Sample.intent None None) (2 * 2))))
                   (Sample.intent None None))))
      as [Htwo _]; [reflexivity | reflexivity | reflexivity |].
    exact Htwo. }
  split.
  { destruct (retrieve_top_k (Ok two_rows) false (connected two_points)
                (Sample.intent None None) 5) as [_ [Hall _]];
      [discriminate|].
    destruct (Hall
                (returned (_vector_retrieval (connected two_points)
                             (Sample.intent None None) (5 * 2)))
                (returned (_db_retrieval (Ok two_rows)
                             (Sample.intent None None) (5 * 2)))
                (returned (_rerank
                   (_merge_results
                      (returned (_vector_retrieval (connected two_points)
                                   (Sample.intent None None) (5 * 2)))
                      (returned (_db_retrieval (Ok two_rows)
                                   (Sample.intent None None) (5 * 2))))
                   (Sample.intent None None))))
      as [_ Hwhole]; [reflexivity | reflexivity | reflexivity |].
    eexists. split; [|apply Hwhole; vm_compute; discriminate].
    reflexivity. }
  destruct (retrieve_top_k (Ok no_rows) false (connected no_points)
              (Sample.intent (Some Sample.beijing) None) 2) as [_ [_ Hnone]];
    [discriminate|].
  apply Hnone; reflexivity.
Defined.

(** [retrieve] returns as soon as both retrievals do and the geo step can
    score every merged candidate. *)
Lemma retrieve_total (get_db : result Session) (db_first : bool)
  (self : HybridRetriever) (query_intent : QueryIntent) (top_k : Z)
  (v d : list Candidate) :
  _vector_retrieval self query_intent (top_k * 2) = Ok v ->
  _db_retrieval get_db query_intent (top_k * 2) = Ok d ->
  Forall (fun res => geo_ready query_intent res = true) (_merge_results v d) ->
  exists out, retrieve get_db db_first self query_intent top_k = Ok out.
Proof.
  intros Hv Hd Hready.
  rewrite (retrieve_after_gather _ _ _ _ _ v d Hv Hd).
  destruct (rerank_total _ _ Hready) as [reranked ->].
  simpl. eauto.
Qed.

Lemma search_not_connected (vs : VectorStore) (qv : option (list Q))
  (geo : option GeoFilter) (time : option TimeFilter)
  (category_filter : option string) (lim : Z) :
  client vs = None -> search vs qv geo time category_filter lim = Raise not_connected.
Proof.
  intro H. unfold search. rewrite H. reflexivity.
Qed.

(** C9. A store whose client is not connected makes the vector retrieval
    raise; and when the vector retrieval or the database retrieval raises,
    [retrieve] raises the exception of one of them and returns no list,
    empty or not. *)
Theorem retrieve_propagates_failure :
  forall (get_db : result Session) (db_first : bool) (self : HybridRetriever)
         (query_intent : QueryIntent) (top_k : Z),
    (client (vector_store self) = None ->
     _vector_retrieval self query_intent (top_k * 2) = Raise not_connected) /\
    ((exists e, _vector_retrieval self query_intent (top_k * 2) = Raise e) \/
     (exists e, _db_retrieval get_db query_intent (top_k * 2) = Raise e) ->
     exists e,
       retrieve get_db db_first self query_intent top_k = Raise e /\
       (_vector_retrieval self query_intent (top_k * 2) = Raise e \/
        _db_retrieval get_db query_intent (top_k * 2) = Raise e) /\
       forall out, retrieve get_db db_first self query_intent top_k <> Ok out).
Proof.
  intros get_db db_first self query_intent top_k. split.
  - apply search_not_connected.
  - intro H. unfold retrieve.
    destruct (_vector_retrieval self query_intent (top_k * 2)) as [v|ev];
      destruct (_db_retrieval get_db query_intent (top_k * 2)) as [d|ed]; simpl.
    + destruct H as [[e H] | [e H]]; discriminate.
    + exists ed. repeat split; [right; reflexivity | discriminate].
    + exists ev. repeat split; [left; reflexivity | discriminate].
    + destruct db_first.
      * exists ed. repeat split; [right; reflexivity | discriminate].
      * exists ev. repeat split; [left; reflexivity | discriminate].
Qed.

Lemma retrieve_propagates_failure_witness :
  retrieve (Ok no_rows) false unconnected (Sample.intent None None) 5
  = Raise not_connected /\
  retrieve (Ok no_rows) false (connected no_points) (Sample.intent None None) 5 = Ok [].
Proof.
  split; [|reflexivity].
  destruct (retrieve_propagates_failure (Ok no_rows) false unconnected
              (Sample.intent None None) 5) as [Hraise Hfail].
  destruct Hfail as [e [He [[Hv | Hd] _]]].
  - left. exists not_connected. apply Hraise. reflexivity.
  - rewrite He. rewrite Hraise in Hv by reflexivity. congruence.
  - discriminate.
Defined.

(* ================================================================== *)
(** * Further properties of the retriever *)

(** ** Ranges of the sub-scores *)

Lemma time_score_bounds (query_intent : QueryIntent) (res : Candidate) (t : Q) :
  time_score query_intent res = Ok t -> 0 <= t <= 1.
Proof.
  unfold time_score.
  destruct (time_filter query_intent) as [tf|];
    [|intro H; injection H as <-; lra].
  destruct (Py.truthy (start_time (payload res)) && Py.truthy (end_time (payload res)));
    [|intro H; injection H as <-; lra].
  destruct (start_time (payload res)) as [rs|]; [|intro H; injection H as <-; lra].
  destruct (end_time (payload res)) as [re|]; [|intro H; injection H as <-; lra].
  cbv zeta.
  destruct (Py.leb (Py.min (end_ tf) re) (Py.max (start tf) rs)) eqn:E;
    [intro H; injection H as <-; lra|].
  apply leb_gt in E. unfold Py.div.
  destruct (Qeq_bool (end_ tf - start tf) 0) eqn:E0; [discriminate|].
  intro H. injection H as <-.
  pose proof (max_Qmax (start tf) rs) as Hmax.
  pose proof (min_Qmin (end_ tf) re) as Hmin.
  pose proof (Q.le_max_l (start tf) rs).
  pose proof (Q.le_min_l (end_ tf) re).
  assert (0 < end_ tf - start tf) as Hd by lra.
  split.
  - apply Qle_shift_div_l; [exact Hd | lra].
  - apply Qle_shift_div_r; [exact Hd | lra].
Qed.

Lemma time_step_declare (query_intent : QueryIntent) (res : Candidate) :
  time_step (option_map declare (time_filter query_intent)) res
  = time_score query_intent res.
Proof.
  unfold time_step, time_score.
  destruct (time_filter query_intent) as [tf|]; [|reflexivity]. simpl.
  destruct (Py.truthy (start_time (payload res)) && Py.truthy (end_time (payload res)));
    [|reflexivity].
  destruct (start_time (payload res)) as [rs|]; [|reflexivity].
  destruct (end_time (payload res)) as [re|]; reflexivity.
Qed.

Lemma time_step_text (f : DeclaredTimeFilter) (res : Candidate) :
  has_text f = true ->
  Py.truthy (start_time (payload res)) && Py.truthy (end_time (payload res)) = true ->
  time_step (Some f) res = Raise TypeError.
Proof.
  unfold has_text, time_step. intros Hf Hg. rewrite Hg.
  destruct (start_time (payload res)) as [rs|]; [|discriminate].
  destruct (end_time (payload res)) as [re|];
    [|simpl in Hg; rewrite andb_false_r in Hg; discriminate].
  destruct (declared_start f) as [x|x]; [|reflexivity].
  destruct (declared_end f) as [y|y]; [discriminate|reflexivity].
Qed.

(** X1. The outcomes of the time step, on a time filter as [request.py]
    declares it. When both instants of the filter are numbers, or there
    is no filter, the step is [time_score]: it returns, a query of zero
    or negative length included, and its sub-score lies in [0, 1]. When
    an instant of the filter is a string, the step raises [TypeError] on
    every candidate with two non-zero instants, and leaves the sub-score
    at 1 on every other candidate. *)
Theorem time_step_outcomes :
  forall (res : Candidate),
    (forall query_intent,
        exists t,
          time_step (option_map declare (time_filter query_intent)) res = Ok t /\
          time_score query_intent res = Ok t /\
          0 <= t <= 1) /\
    (forall f,
        has_text f = true ->
        time_step (Some f) res =
        if Py.truthy (start_time (payload res)) && Py.truthy (end_time (payload res))
        then Raise TypeError
        else Ok 1).
Proof.
  intro res. split.
  - intro query_intent.
    destruct (time_score_total query_intent res) as [t Ht].
    exists t. rewrite time_step_declare.
    split; [exact Ht|]. split; [exact Ht | exact (time_score_bounds _ _ _ Ht)].
  - intros f Hf.
    destruct (Py.truthy (start_time (payload res)) && Py.truthy (end_time (payload res)))
      eqn:E.
    + exact (time_step_text f res Hf E).
    + unfold time_step. rewrite E. reflexivity.
Qed.

Lemma time_step_outcomes_witness :
  time_step (Some years_as_text) late_ming = Raise TypeError /\
  time_step (Some years_as_text) from_epoch = Ok 1.
Proof.
  split.
  - destruct (time_step_outcomes late_ming) as [_ H].
    apply (H years_as_text). reflexivity.
  - destruct (time_step_outcomes from_epoch) as [_ H].
    apply (H years_as_text). reflexivity.
Defined.

Lemma manhattan_km_nonneg (qlat qlon rlat rlon : Q) :
  0 <= manhattan_km qlat qlon rlat rlon.
Proof.
  unfold manhattan_km.
  pose proof (Qabs_nonneg (qlat - rlat)).
  pose proof (Qabs_nonneg (qlon - rlon)).
  lra.
Qed.

Lemma geo_score_nonneg (query_intent : QueryIntent) (res : Candidate) (g : Q) :
  geo_score query_intent res = Ok g -> 0 <= g.
Proof.
  unfold geo_score.
  destruct (geo_filter query_intent) as [gf|]; [|intro H; injection H as <-; lra].
  destruct (geo_point (payload res)) as [gp|]; [|intro H; injection H as <-; lra].
  intro H. apply bind_ok in H as [d [_ H]]. apply bind_ok in H as [r [_ H]].
  injection H as <-. rewrite max_Qmax. apply Q.le_max_l.
Qed.

(** X2. With a geo filter of positive radius and a candidate that has
    both coordinates, the geo sub-score lies in [0, 1]. *)
Theorem geo_score_range :
  forall (query_intent : QueryIntent) (gf : GeoFilter) (res : Candidate)
         (rlat rlon r : Q),
    geo_filter query_intent = Some gf ->
    radius_km gf = Some r -> 0 < r ->
    geo_point (payload res) = Some (mkGeoPoint (Some rlat) (Some rlon)) ->
    exists g, geo_score query_intent res = Ok g /\ 0 <= g <= 1.
Proof.
  intros query_intent gf res rlat rlon r Hgf Hr Hpos Hgp.
  destruct (geo_score_with_point _ _ _ _ _ _ Hgf Hr Hpos Hgp) as [g [Hg Hval]].
  exists g. split; [exact Hg|]. split; [exact (geo_score_nonneg _ _ _ Hg)|].
  rewrite Hval. apply Q.max_lub; [lra|].
  pose proof (manhattan_km_nonneg (lat gf) (lon gf) rlat rlon) as Hd.
  assert (0 <= manhattan_km (lat gf) (lon gf) rlat rlon / r)
    by (apply Qle_shift_div_l; [exact Hpos | lra]).
  lra.
Qed.

Lemma geo_score_range_witness :
  exists g,
    geo_score (Sample.intent (Some Sample.beijing) None) north_of_center = Ok g /\
    0 <= g <= 1.
Proof.
  apply (geo_score_range (Sample.intent (Some Sample.beijing) None)
           Sample.beijing north_of_center 39.95 116.4 10);
    reflexivity.
Defined.

(** X3. With a geo filter and a candidate that has both coordinates, the
    radius decides: [None] makes the geo step raise [TypeError], zero makes
    it raise [ZeroDivisionError], and a negative radius is not rejected but
    gives a sub-score of at least 1. *)
Theorem geo_score_radius_edges :
  forall (query_intent : QueryIntent) (gf : GeoFilter) (res : Candidate)
         (rlat rlon : Q),
    geo_filter query_intent = Some gf ->
    geo_point (payload res) = Some (mkGeoPoint (Some rlat) (Some rlon)) ->
    (radius_km gf = None -> geo_score query_intent res = Raise TypeError) /\
    (forall r, radius_km gf = Some r -> r == 0 ->
               geo_score query_intent res = Raise ZeroDivisionError) /\
    (forall r, radius_km gf = Some r -> r < 0 ->
               exists g, geo_score query_intent res = Ok g /\ 1 <= g).
Proof.
  intros query_intent gf res rlat rlon Hgf Hgp.
  unfold geo_score, distance_km. rewrite Hgf, Hgp. simpl.
  split; [|split].
  - intros ->. reflexivity.
  - intros r -> H0. simpl. apply Qeq_bool_iff in H0. rewrite H0. reflexivity.
  - intros r -> Hneg. simpl.
    destruct (Qeq_bool r 0) eqn:E.
    + apply Qeq_bool_iff in E. exfalso. lra.
    + simpl. eexists. split; [reflexivity|].
      rewrite max_Qmax.
      set (d := Py.abs (lat gf - rlat) * 111 + Py.abs (lon gf - rlon) * 111).
      assert (0 <= d) as Hd.
      { unfold d. rewrite !abs_Qabs.
        pose proof (Qabs_nonneg (lat gf - rlat)).
        pose proof (Qabs_nonneg (lon gf - rlon)). lra. }
      assert (d / r == - (d / - r)) as Hdiv by (field; lra).
      assert (0 <= d / - r) by (apply Qle_shift_div_l; lra).
      eapply Qle_trans; [|apply Q.le_max_r]. lra.
Qed.

Lemma geo_score_radius_edges_witness :
  geo_score (Sample.intent (Some beijing_zero_radius) None) centered
  = Raise ZeroDivisionError.
Proof.
  destruct (geo_score_radius_edges (Sample.intent (Some beijing_zero_radius) None)
              beijing_zero_radius centered 39.9 116.4) as [_ [Hzero _]];
    [reflexivity | reflexivity |].
  apply (Hzero 0); reflexivity.
Defined.

(** X4. For a candidate with two non-zero instants: when its interval
    covers a query interval of positive length the time sub-score is 1, and
    when the two intervals are disjoint, or touch at one instant, it is
    0. *)
Theorem time_score_containment :
  forall (query_intent : QueryIntent) (tf : TimeFilter) (res : Candidate)
         (cs ce : Q),
    time_filter query_intent = Some tf ->
    start_time (payload res) = Some cs -> ~ cs == 0 ->
    end_time (payload res) = Some ce -> ~ ce == 0 ->
    exists t,
      time_score query_intent res = Ok t /\
      (start tf < end_ tf -> cs <= start tf -> end_ tf <= ce -> t == 1) /\
      (ce <= start tf \/ end_ tf <= cs -> t == 0).
Proof.
  intros query_intent tf res cs ce Htf Hcs Hcs0 Hce Hce0.
  destruct (time_score_overlap _ _ _ _ _ Htf Hcs Hcs0 Hce Hce0) as [t [Ht Hval]].
  exists t. split; [exact Ht|].
  unfold spec_time_score in Hval. cbv zeta in Hval.
  split.
  - intros Hlen Hs He.
    pose proof (Q.max_l (start tf) cs Hs) as Hmax.
    pose proof (Q.min_l (end_ tf) ce He) as Hmin.
    destruct (Qle_bool (Qmin (end_ tf) ce) (Qmax (start tf) cs)) eqn:E.
    + apply Qle_bool_iff in E. exfalso. lra.
    + rewrite Hval, Hmax, Hmin. field. lra.
  - intro Hdisj.
    destruct (Qle_bool (Qmin (end_ tf) ce) (Qmax (start tf) cs)) eqn:E;
      [exact Hval|].
    exfalso.
    assert (~ Qmin (end_ tf) ce <= Qmax (start tf) cs) as Hn
        by (intro Hle; apply Qle_bool_iff in Hle; congruence).
    apply Hn.
    pose proof (Q.le_min_l (end_ tf) ce). pose proof (Q.le_min_r (end_ tf) ce).
    pose proof (Q.le_max_l (start tf) cs). pose proof (Q.le_max_r (start tf) cs).
    destruct Hdisj; lra.
Qed.

Lemma time_score_containment_witness :
  exists t,
    time_score (Sample.intent None (Some Sample.ming_to_qing)) long_lived = Ok t /\
    t == 1.
Proof.
  destruct (time_score_containment (Sample.intent None (Some Sample.ming_to_qing))
              Sample.ming_to_qing long_lived 1368 1912)
    as [t [Ht [Hone _]]]; try reflexivity; try discriminate.
  exists t. split; [exact Ht|].
  apply Hone; [reflexivity | discriminate | discriminate].
Defined.

(** ** Ranges of the final score *)

Lemma semantic_score_pos (res : Candidate) : 0 < semantic_score res.
Proof.
  unfold semantic_score. by_cases_lt 0 (score res); lra.
Qed.

Lemma rescore_floor (query_intent : QueryIntent) (res res' : Candidate) :
  rescore query_intent res = Ok res' ->
  0.6 * semantic_score res <= score res'.
Proof.
  intro H. apply rescore_ok in H as [g [t [Hg [Ht ->]]]].
  apply geo_score_nonneg in Hg. apply time_score_bounds in Ht.
  simpl. unfold final_score, alpha, beta, gamma. lra.
Qed.

Lemma geo_score_le_1 (query_intent : QueryIntent) (res : Candidate) (g : Q) :
  (forall gf r, geo_filter query_intent = Some gf -> radius_km gf = Some r -> 0 < r) ->
  geo_score query_intent res = Ok g -> g <= 1.
Proof.
  intros Hpos. unfold geo_score, distance_km.
  destruct (geo_filter query_intent) as [gf|]; [|intro H; injection H as <-; lra].
  destruct (geo_point (payload res)) as [gp|]; [|intro H; injection H as <-; lra].
  destruct (gp_lat gp) as [a|]; [|discriminate].
  destruct (gp_lon gp) as [b|]; [|discriminate].
  simpl. destruct (radius_km gf) as [r|] eqn:Hr; [|discriminate].
  specialize (Hpos gf r eq_refl Hr).
  simpl. destruct (Qeq_bool r 0); [discriminate|]. simpl.
  intro H. injection H as <-.
  rewrite max_Qmax. apply Q.max_lub; [lra|].
  assert (0 <= (Py.abs (lat gf - a) * 111 + Py.abs (lon gf - b) * 111) / r).
  { apply Qle_shift_div_l; [exact Hpos|]. rewrite !abs_Qabs.
    pose proof (Qabs_nonneg (lat gf - a)). pose proof (Qabs_nonneg (lon gf - b)).
    lra. }
  lra.
Qed.

(** X5. Whenever [_rerank] returns, every score it wrote is positive, and
    at least [0.6] times the semantic sub-score of the candidate it was
    written to, hence at least 0.3 for a hit that came unscored; and when
    the radius of the geo filter, if any, is positive, a candidate that
    came with a score of at most 1 leaves with a score of at most 1. *)
Theorem rerank_score_range :
  forall (query_intent : QueryIntent) (results out : list Candidate),
    _rerank results query_intent = Ok out ->
    Forall (fun c => 0 < score c) out /\
    exists scored : list Candidate,
      Permutation scored out /\
      Forall2
        (fun res res' =>
           0.6 * semantic_score res <= score res' /\
           (score res <= 0 -> 0.3 <= score res') /\
           ((forall gf r, geo_filter query_intent = Some gf ->
                          radius_km gf = Some r -> 0 < r) ->
            score res <= 1 -> score res' <= 1))
        results scored.
Proof.
  intros query_intent results out H.
  apply rerank_ok in H as [scored [Hs ->]].
  apply mapM_ok in Hs.
  assert (Forall2
            (fun res res' =>
               0.6 * semantic_score res <= score res' /\
               (score res <= 0 -> 0.3 <= score res') /\
               ((forall gf r, geo_filter query_intent = Some gf ->
                              radius_km gf = Some r -> 0 < r) ->
                score res <= 1 -> score res' <= 1))
            results scored) as Hall.
  { induction Hs as [|res res' l l' Hr _ IH]; constructor; [|exact IH].
    pose proof (rescore_floor _ _ _ Hr) as Hfloor.
    split; [exact Hfloor|]. split.
    - intro Hle. destruct (semantic_score_cases res) as [_ Hhalf].
      rewrite (Hhalf Hle) in Hfloor. lra.
    - intros Hpos Hle1.
      apply rescore_ok in Hr as [g [t [Hg [Ht ->]]]].
      pose proof (geo_score_le_1 _ _ _ Hpos Hg).
      apply geo_score_nonneg in Hg. apply time_score_bounds in Ht.
      assert (semantic_score res <= 1).
      { unfold semantic_score. by_cases_lt 0 (score res); lra. }
      simpl. unfold final_score, alpha, beta, gamma. lra. }
  split.
  - assert (Forall (fun c => 0 < score c) scored) as Hpos.
    { clear Hs. induction Hall as [|res res' l l' [Hfloor _] _ IH]; constructor;
        [|exact IH].
      pose proof (semantic_score_pos res). lra. }
    rewrite Forall_forall in *. intros c Hc. apply Hpos.
    apply (Permutation_in _ (sorted_desc_perm scored)), Hc.
  - exists scored. split; [apply Permutation_sym, sorted_desc_perm | exact Hall].
Qed.

Lemma rerank_score_range_witness :
  Forall (fun c => 0 < score c) scenario_ties_out /\
  exists scored : list Candidate,
    Permutation scored scenario_ties_out /\
    Forall2
      (fun res res' =>
         0.6 * semantic_score res <= score res' /\
         (score res <= 0 -> 0.3 <= score res') /\
         ((forall gf r, geo_filter (Sample.intent None None) = Some gf ->
                        radius_km gf = Some r -> 0 < r) ->
          score res <= 1 -> score res' <= 1))
      scenario_ties scored.
Proof.
  apply (rerank_score_range (Sample.intent None None) scenario_ties scenario_ties_out).
  vm_compute. reflexivity.
Defined.

(** ** The neutral default against low similarities *)

Lemma geo_score_same_point (query_intent : QueryIntent) (a b : Candidate) :
  geo_point (payload a) = geo_point (payload b) ->
  geo_score query_intent a = geo_score query_intent b.
Proof. unfold geo_score. intros ->. reflexivity. Qed.

Lemma time_score_same_instants (query_intent : QueryIntent) (a b : Candidate) :
  start_time (payload a) = start_time (payload b) ->
  end_time (payload a) = end_time (payload b) ->
  time_score query_intent a = time_score query_intent b.
Proof. unfold time_score. intros -> ->. reflexivity. Qed.

(** X6. A score that is zero or negative counts as the default 0.5: of
    two candidates with the same geo point and instants, the one that came
    with a score of at most 0 leaves with a strictly higher score than the
    one that came with a score strictly between 0 and 0.5. *)
Theorem unscored_outranks_low_score :
  forall (query_intent : QueryIntent) (a b a' b' : Candidate),
    geo_point (payload a) = geo_point (payload b) ->
    start_time (payload a) = start_time (payload b) ->
    end_time (payload a) = end_time (payload b) ->
    score a <= 0 -> 0 < score b -> score b < 0.5 ->
    rescore query_intent a = Ok a' ->
    rescore query_intent b = Ok b' ->
    score b' < score a'.
Proof.
  intros query_intent a b a' b' Hgp Hs He Ha Hb0 Hb Hra Hrb.
  apply rescore_ok in Hra as [ga [ta [Hga [Hta ->]]]].
  apply rescore_ok in Hrb as [gb [tb [Hgb [Htb ->]]]].
  rewrite (geo_score_same_point _ _ _ Hgp) in Hga.
  rewrite (time_score_same_instants _ _ _ Hs He) in Hta.
  assert (ga = gb) as -> by congruence.
  assert (ta = tb) as -> by congruence.
  destruct (semantic_score_cases a) as [_ Hhalf].
  destruct (semantic_score_cases b) as [Hkeep _].
  simpl. rewrite (Hhalf Ha), (Hkeep Hb0).
  unfold final_score, alpha, beta, gamma. lra.
Qed.

Lemma unscored_outranks_low_score_witness :
  score weak_hit_out < score unscored_hit_out.
Proof.
  apply (unscored_outranks_low_score (Sample.intent None None)
           unscored_hit weak_hit unscored_hit_out weak_hit_out);
    first [reflexivity | vm_compute; discriminate].
Defined.

(** ** Queries without filters *)


Lemma mapM_rescore_no_filter (query_intent : QueryIntent) (results : list Candidate) :
  geo_filter query_intent = None -> time_filter query_intent = None ->
  mapM (rescore query_intent) results
  = Ok (map (fun c => set_score c (final_score (semantic_score c) 1 1)) results).
Proof.
  intros Hg Ht. induction results as [|c l IH]; [reflexivity|].
  simpl. rewrite IH. unfold rescore, geo_score, time_score. rewrite Hg, Ht.
  reflexivity.
Qed.

(** X7. Without a geo filter and without a time filter [_rerank]
    returns on every list of candidates, whatever their geo points and
    their instants hold; it returns as many candidates as it got, each
    with the score [0.6 * semantic + 0.3 + 0.1]. *)
Theorem rerank_without_filters :
  forall (query_intent : QueryIntent) (results : list Candidate),
    geo_filter query_intent = None ->
    time_filter query_intent = None ->
    exists out,
      _rerank results query_intent = Ok out /\
      List.length out = List.length results /\
      Permutation
        (map (fun c => set_score c (0.6 * semantic_score c + 0.3 * 1 + 0.1 * 1))
           results)
        out.
Proof.
  intros query_intent results Hg Ht. unfold _rerank.
  rewrite (mapM_rescore_no_filter _ results Hg Ht). simpl.
  eexists. split; [reflexivity|]. split.
  - rewrite (Permutation_length (sorted_desc_perm _)). apply length_map.
  - apply Permutation_sym, sorted_desc_perm.
Qed.

Lemma rerank_without_filters_witness :
  exists out,
    _rerank mixed_hits (Sample.intent None None) = Ok out /\
    List.length out = List.length mixed_hits /\
    Permutation
      (map (fun c => set_score c (0.6 * semantic_score c + 0.3 * 1 + 0.1 * 1))
         mixed_hits)
      out.
Proof.
  apply (rerank_without_filters (Sample.intent None None) mixed_hits);
    reflexivity.
Defined.

(* ================================================================== *)
(** * Further properties of the merge *)

Lemma dict_mem_existsb (k : string) (d : Dict) :
  dict_mem k d = existsb (String.eqb k) (dict_keys d).
Proof.
  induction d as [|[k' v'] d IH]; simpl; [reflexivity|]. rewrite IH. reflexivity.
Qed.

Lemma dict_set_new (k : string) (v : Candidate) (d : Dict) :
  dict_mem k d = false -> dict_set k v d = d ++ [(k, v)].
Proof.
  induction d as [|[k' v'] d IH]; simpl; [reflexivity|].
  intro H. apply orb_false_iff in H as [Hk Hd]. rewrite Hk, (IH Hd). reflexivity.
Qed.

Lemma dict_set_values (k : string) (v c : Candidate) (d : Dict) :
  In c (dict_values (dict_set k v d)) -> c = v \/ In c (dict_values d).
Proof.
  induction d as [|[k' v'] d IH]; simpl.
  - intros [<- | []]. auto.
  - destruct (String.eqb k k'); simpl.
    + intros [<- | H]; auto.
    + intros [<- | H]; [auto|]. destruct (IH H); auto.
Qed.

Lemma add_vector_keys (d : Dict) (res : Candidate) :
  dict_keys (add_vector d res) = first_occurrences (dict_keys d) [key res].
Proof.
  unfold add_vector. fold (key res). rewrite dict_set_keys, dict_mem_existsb.
  simpl. destruct (existsb (String.eqb (key res)) (dict_keys d)); reflexivity.
Qed.

Lemma add_db_keys (d : Dict) (res : Candidate) :
  dict_keys (add_db d res) = first_occurrences (dict_keys d) [key res].
Proof.
  unfold add_db. fold (key res). simpl.
  rewrite <- dict_mem_existsb.
  destruct (dict_mem (key res) d) eqn:E; [reflexivity|].
  rewrite dict_set_keys, E. reflexivity.
Qed.

Lemma first_occurrences_app (seen l1 l2 : list string) :
  first_occurrences seen (l1 ++ l2)
  = first_occurrences (first_occurrences seen l1) l2.
Proof.
  revert seen. induction l1 as [|k l1 IH]; simpl; intro seen; [reflexivity|].
  destruct (existsb (String.eqb k) seen); apply IH.
Qed.

Lemma fold_keys (step : Dict -> Candidate -> Dict) (l : list Candidate) (d : Dict) :
  (forall d res, dict_keys (step d res) = first_occurrences (dict_keys d) [key res]) ->
  dict_keys (fold_left step l d) = first_occurrences (dict_keys d) (map key l).
Proof.
  intro Hstep. revert d. induction l as [|x l IH]; simpl; intro d; [reflexivity|].
  rewrite IH, Hstep. simpl.
  destruct (existsb (String.eqb (key x)) (dict_keys d)); reflexivity.
Qed.

Lemma first_occurrences_In (k : string) (seen l : list string) :
  In k (first_occurrences seen l) <-> In k seen \/ In k l.
Proof.
  revert seen. induction l as [|x l IH]; simpl; intro seen; [tauto|].
  destruct (existsb (String.eqb x) seen) eqn:E; rewrite IH.
  - apply existsb_exists in E as [y [Hy Hxy]]. apply String.eqb_eq in Hxy.
    subst y. intuition (subst; auto).
  - rewrite in_app_iff. simpl. tauto.
Qed.

Lemma merged_dict_keys (vector_results db_results : list Candidate) :
  dict_keys (merged_dict vector_results db_results)
  = first_occurrences [] (map key vector_results ++ map key db_results).
Proof.
  unfold merged_dict.
  rewrite (fold_keys add_db _ _ add_db_keys).
  rewrite (fold_keys add_vector _ _ add_vector_keys).
  rewrite first_occurrences_app. reflexivity.
Qed.

Lemma fold_add_vector_values (c : Candidate) (l : list Candidate) (d : Dict) :
  In c (dict_values (fold_left add_vector l d)) -> In c (dict_values d) \/ In c l.
Proof.
  revert d. induction l as [|x l IH]; simpl; intros d H; [auto|].
  apply IH in H as [H | H]; [|auto].
  apply dict_set_values in H as [-> | H]; auto.
Qed.

Lemma add_db_mem (k : string) (d : Dict) (res : Candidate) :
  dict_mem k d = true -> dict_mem k (add_db d res) = true.
Proof.
  intro H. apply dict_get_mem in H as [c Hc].
  apply dict_get_mem. exists c. apply add_db_keeps, Hc.
Qed.

Lemma fold_add_db_values (c : Candidate) (l : list Candidate) (d : Dict) :
  In c (dict_values (fold_left add_db l d)) ->
  In c (dict_values d) \/ (In c l /\ dict_mem (key c) d = false).
Proof.
  revert d. induction l as [|x l IH]; simpl; intros d H; [auto|].
  apply IH in H as [H | [Hin Hnew]].
  - unfold add_db in H. fold (key x) in H.
    destruct (dict_mem (key x) d) eqn:E; [auto|].
    apply dict_set_values in H as [-> | H]; auto.
  - right. split; [auto|].
    destruct (dict_mem (key c) d) eqn:E; [|reflexivity].
    rewrite (add_db_mem _ _ x E) in Hnew. discriminate.
Qed.

(** X8. The merge neither drops nor invents an entry id: the ids of its
    output are those of its two inputs; and each candidate of the output
    is a vector result, or a database result whose id no vector result
    has. *)
Theorem merge_results_members :
  forall vector_results db_results : list Candidate,
    (forall k,
        In k (map key (_merge_results vector_results db_results)) <->
        In k (map key vector_results) \/ In k (map key db_results)) /\
    (forall c,
        In c (_merge_results vector_results db_results) ->
        In c vector_results \/
        (In c db_results /\ ~ In (key c) (map key vector_results))).
Proof.
  intros vector_results db_results. split.
  - intro k. unfold _merge_results.
    rewrite keyed_values by apply merged_dict_wf.
    rewrite merged_dict_keys, first_occurrences_In, in_app_iff.
    simpl. tauto.
  - intros c H. unfold _merge_results, merged_dict in H.
    apply fold_add_db_values in H as [H | [Hin Hnew]].
    + apply fold_add_vector_values in H as [[] | H]. auto.
    + right. split; [exact Hin|]. intro Hk.
      assert (dict_mem (key c) (fold_left add_vector vector_results []) = true)
        as Hmem; [|congruence].
      apply dict_mem_In.
      rewrite (fold_keys add_vector _ _ add_vector_keys).
      apply first_occurrences_In. auto.
Qed.

Lemma merge_results_members_witness :
  In "c"%string (map key (_merge_results vector_hits db_hits)) /\
  In (Sample.cand "c" 0 None None None) db_hits /\
  ~ In "c"%string (map key vector_hits).
Proof.
  destruct (merge_results_members vector_hits db_hits) as [Hkeys Hfrom].
  split.
  - apply Hkeys. right. simpl. auto.
  - destruct (Hfrom (Sample.cand "c" 0 None None None)) as [Hv | Hd].
    + vm_compute. auto.
    + exfalso. simpl in Hv. intuition discriminate.
    + exact Hd.
Defined.

(** X9. The merged list follows the order of first occurrence of the
    entry ids, the vector results being read before the database
    results. *)
Theorem merge_results_order :
  forall vector_results db_results : list Candidate,
    map key (_merge_results vector_results db_results)
    = first_occurrences [] (map key vector_results ++ map key db_results).
Proof.
  intros vector_results db_results. unfold _merge_results.
  rewrite keyed_values by apply merged_dict_wf.
  apply merged_dict_keys.
Qed.

Lemma add_db_get (k : string) (d : Dict) (res : Candidate) :
  dict_get k (add_db d res)
  = match dict_get k d with
    | Some c => Some c
    | None => if String.eqb k (key res) then Some res else None
    end.
Proof.
  destruct (dict_get k d) as [c|] eqn:E; [apply add_db_keeps, E|].
  unfold add_db. fold (key res).
  destruct (String.eqb k (key res)) eqn:Ek.
  - apply String.eqb_eq in Ek. subst k.
    destruct (dict_mem (key res) d) eqn:Em.
    + apply dict_get_mem in Em as [c Hc]. congruence.
    + apply dict_get_set_same.
  - destruct (dict_mem (key res) d); [exact E|].
    rewrite dict_get_set_other; assumption.
Qed.

Lemma fold_add_db_get (k : string) (l : list Candidate) (d : Dict) :
  dict_get k (fold_left add_db l d)
  = match dict_get k d with
    | Some c => Some c
    | None => first_with k l
    end.
Proof.
  revert d. induction l as [|x l IH]; simpl; intro d.
  - destruct (dict_get k d); reflexivity.
  - rewrite IH, add_db_get.
    destruct (dict_get k d); [reflexivity|].
    destruct (String.eqb k (key x)); reflexivity.
Qed.

Lemma fold_latest_none (k : string) (l : list Candidate) :
  ~ In k (map key l) -> fold_left (latest k) l None = None.
Proof.
  intro H. destruct (fold_left (latest k) l None) as [c|] eqn:E; [|reflexivity].
  apply fold_latest_In in E as [[Hin Hk] | E]; [|discriminate].
  exfalso. apply H. rewrite <- Hk. apply in_map, Hin.
Qed.

Lemma first_with_In (k : string) (l : list Candidate) (c : Candidate) :
  first_with k l = Some c -> In c l /\ key c = k.
Proof.
  induction l as [|x l IH]; simpl; [discriminate|].
  destruct (String.eqb k (key x)) eqn:E.
  - intro H. injection H as <-. apply String.eqb_eq in E. auto.
  - intro H. destruct (IH H). auto.
Qed.

Lemma first_with_some (k : string) (l : list Candidate) :
  In k (map key l) -> exists c, first_with k l = Some c.
Proof.
  induction l as [|x l IH]; simpl; [contradiction|].
  destruct (String.eqb k (key x)) eqn:E; [eauto|].
  intros [H | H]; [|auto].
  subst k. rewrite String.eqb_refl in E. discriminate.
Qed.

(** X10. For an entry id that only database results have, the merged
    entry is the first database result filed under it (later ones are
    skipped), whereas among vector results the last one wins. *)
Theorem merge_results_db_first :
  forall (vector_results db_results : list Candidate) (b : Candidate),
    In b db_results ->
    ~ In (key b) (map key vector_results) ->
    exists c,
      first_with (key b) db_results = Some c /\
      In c (_merge_results vector_results db_results) /\
      (forall c',
          In c' (_merge_results vector_results db_results) ->
          key c' = key b -> c' = c).
Proof.
  intros vector_results db_results b Hb Hnew.
  destruct (first_with_some (key b) db_results) as [c Hc];
    [apply in_map, Hb|].
  assert (dict_get (key b) (merged_dict vector_results db_results) = Some c) as Hget.
  { unfold merged_dict.
    rewrite fold_add_db_get, fold_add_vector_get. simpl.
    rewrite (fold_latest_none _ _ Hnew). exact Hc. }
  exists c. split; [exact Hc|]. split.
  - exact (dict_get_In _ _ _ Hget).
  - intros c' Hin' Hk'.
    destruct (merged_dict_wf vector_results db_results) as [Hk Hn].
    pose proof (dict_In_get c' _ Hk Hn Hin') as Hget'.
    rewrite Hk' in Hget'. congruence.
Qed.

Lemma merge_results_db_first_witness :
  exists c,
    first_with "c" db_hits = Some c /\
    In c (_merge_results vector_hits (db_hits ++ [Sample.cand "c" 0.5 None None None])) /\
    score c = 0.
Proof.
  destruct (merge_results_db_first vector_hits
              (db_hits ++ [Sample.cand "c" 0.5 None None None])
              (Sample.cand "c" 0.5 None None None))
    as [c [Hfirst [Hin _]]].
  - simpl. auto.
  - vm_compute. intuition discriminate.
  - exists c. vm_compute in Hfirst. injection Hfirst as <-.
    split; [reflexivity|]. split; [exact Hin | reflexivity].
Defined.

Lemma fold_step_distinct (step : Dict -> Candidate -> Dict) (l : list Candidate)
  (d : Dict) :
  (forall d res, dict_mem (key res) d = false -> step d res = d ++ [(key res, res)]) ->
  NoDup (dict_keys d ++ map key l) ->
  fold_left step l d = d ++ map (fun c => (key c, c)) l.
Proof.
  intro Hstep. revert d. induction l as [|x l IH]; simpl; intros d Hnd.
  - rewrite app_nil_r. reflexivity.
  - assert (dict_mem (key x) d = false) as Hx.
    { destruct (dict_mem (key x) d) eqn:E; [|reflexivity].
      apply dict_mem_In in E. apply NoDup_remove_2 in Hnd.
      exfalso. apply Hnd, in_or_app. auto. }
    rewrite (Hstep d x Hx), IH.
    + rewrite <- app_assoc. reflexivity.
    + unfold dict_keys in *. rewrite map_app. simpl. rewrite <- app_assoc. exact Hnd.
Qed.

Lemma add_vector_new (d : Dict) (res : Candidate) :
  dict_mem (key res) d = false -> add_vector d res = d ++ [(key res, res)].
Proof. intro H. unfold add_vector. fold (key res). apply dict_set_new, H. Qed.

Lemma add_db_new (d : Dict) (res : Candidate) :
  dict_mem (key res) d = false -> add_db d res = d ++ [(key res, res)].
Proof.
  intro H. unfold add_db. fold (key res). rewrite H. apply dict_set_new, H.
Qed.

Lemma values_of_keyed_list (l : list Candidate) :
  dict_values (map (fun c => (key c, c)) l) = l.
Proof.
  unfold dict_values. rewrite map_map. simpl. apply map_id.
Qed.

Lemma merge_results_left_distinct (l : list Candidate) :
  NoDup (map key l) -> _merge_results l [] = l.
Proof.
  intro Hnd. unfold _merge_results, merged_dict. simpl.
  rewrite (fold_step_distinct add_vector l [] add_vector_new Hnd).
  apply values_of_keyed_list.
Qed.

(** X11. Results with pairwise distinct entry ids pass through the merge
    unchanged, in the vector position as in the database position; and
    merging an already merged list with nothing gives it back. *)
Theorem merge_results_distinct :
  forall vector_results db_results : list Candidate,
    (NoDup (map key vector_results) ->
     _merge_results vector_results [] = vector_results) /\
    (NoDup (map key db_results) ->
     _merge_results [] db_results = db_results) /\
    _merge_results (_merge_results vector_results db_results) []
    = _merge_results vector_results db_results.
Proof.
  intros vector_results db_results. split; [|split].
  - apply merge_results_left_distinct.
  - intro Hnd. unfold _merge_results, merged_dict. simpl.
    rewrite (fold_step_distinct add_db db_results [] add_db_new Hnd).
    apply values_of_keyed_list.
  - apply merge_results_left_distinct.
    destruct (merged_dict_wf vector_results db_results) as [Hk Hn].
    unfold _merge_results. rewrite keyed_values; assumption.
Qed.

Lemma merge_results_distinct_witness :
  _merge_results db_hits [] = db_hits /\
  _merge_results [] db_hits = db_hits.
Proof.
  destruct (merge_results_distinct db_hits db_hits) as [Hl [Hr _]].
  assert (NoDup (map key db_hits)) as Hnd
      by (repeat constructor; simpl; intuition discriminate).
  split; [apply Hl | apply Hr]; exact Hnd.
Defined.

(* ================================================================== *)
(** * What [retrieve] returns *)

Lemma prefix_is_firstn {A : Type} (l : list A) (k : Z) :
  exists n, Py.prefix l k = firstn n l.
Proof.
  unfold Py.prefix. destruct (0 <=? k)%Z; eauto.
Qed.

Lemma rescore_same_entry (query_intent : QueryIntent) (res res' : Candidate) :
  rescore query_intent res = Ok res' ->
  id res' = id res /\ payload res' = payload res.
Proof.
  intro H. apply rescore_ok in H as [g [t [_ [_ ->]]]]. split; reflexivity.
Qed.

Lemma rescored_keys (query_intent : QueryIntent) (results scored : list Candidate) :
  Forall2 (fun res res' => rescore query_intent res = Ok res') results scored ->
  map key scored = map key results.
Proof.
  induction 1 as [|res res' l l' Hr _ IH]; [reflexivity|].
  simpl. rewrite IH. unfold key.
  destruct (rescore_same_entry _ _ _ Hr) as [_ ->]. reflexivity.
Qed.

Lemma rescored_origin (query_intent : QueryIntent) (results scored : list Candidate)
  (c : Candidate) :
  Forall2 (fun res res' => rescore query_intent res = Ok res') results scored ->
  In c scored ->
  exists res, In res results /\ rescore query_intent res = Ok c.
Proof.
  induction 1 as [|res res' l l' Hr _ IH]; simpl; [contradiction|].
  intros [<- | Hin]; [eauto|].
  destruct (IH Hin) as [res0 [Hin0 Hr0]]. eauto.
Qed.

Lemma NoDup_firstn {A : Type} (n : nat) (l : list A) : NoDup l -> NoDup (firstn n l).
Proof.
  intro H. rewrite <- (firstn_skipn n l) in H.
  exact (NoDup_app_remove_r _ _ H).
Qed.

Lemma In_firstn {A : Type} (n : nat) (l : list A) (x : A) :
  In x (firstn n l) -> In x l.
Proof.
  intro H. rewrite <- (firstn_skipn n l). apply in_or_app. auto.
Qed.

(** X12. A list that [retrieve] returns holds each entry id at most once,
    is sorted by non-increasing score, carries only positive scores, and
    each of its candidates is a result of the vector retrieval or of the
    database retrieval with its score overwritten. *)
Theorem retrieve_output_shape :
  forall (get_db : result Session) (db_first : bool) (self : HybridRetriever)
         (query_intent : QueryIntent) (top_k : Z) (out : list Candidate),
    retrieve get_db db_first self query_intent top_k = Ok out ->
    NoDup (map key out) /\
    (forall l1 a b l2, out = l1 ++ a :: b :: l2 -> score b <= score a) /\
    Forall (fun c => 0 < score c) out /\
    exists v d,
      _vector_retrieval self query_intent (top_k * 2) = Ok v /\
      _db_retrieval get_db query_intent (top_k * 2) = Ok d /\
      forall c, In c out ->
        exists res,
          (In res v \/ In res d) /\
          id c = id res /\ payload c = payload res.
Proof.
  intros get_db db_first self query_intent top_k out H.
  apply retrieve_ok in H as [v [d [reranked [Hv [Hd [Hr ->]]]]]].
  destruct (prefix_is_firstn reranked top_k) as [n ->].
  apply rerank_ok in Hr as [scored [Hs ->]]. apply mapM_ok in Hs.
  split; [|split; [|split]].
  - rewrite <- firstn_map. apply NoDup_firstn.
    apply (Permutation_NoDup
             (Permutation_sym (Permutation_map key (sorted_desc_perm scored)))).
    rewrite (rescored_keys _ _ _ Hs).
    destruct (merged_dict_wf v d) as [Hk Hn].
    unfold _merge_results. rewrite keyed_values; assumption.
  - intros l1 a b l2 Heq.
    apply (sorted_adjacent (sorted_desc scored) l1
             (l2 ++ skipn n (sorted_desc scored)) a b);
      [apply sorted_desc_sorted|].
    rewrite <- (firstn_skipn n (sorted_desc scored)) at 1.
    rewrite Heq, <- app_assoc. reflexivity.
  - apply Forall_forall. intros c Hc. apply In_firstn in Hc.
    apply (Permutation_in _ (sorted_desc_perm scored)) in Hc.
    destruct (rescored_origin _ _ _ c Hs Hc) as [res [_ Hres]].
    pose proof (rescore_floor _ _ _ Hres). pose proof (semantic_score_pos res). lra.
  - exists v, d. split; [exact Hv|]. split; [exact Hd|].
    intros c Hc. apply In_firstn in Hc.
    apply (Permutation_in _ (sorted_desc_perm scored)) in Hc.
    destruct (rescored_origin _ _ _ c Hs Hc) as [res [Hin Hres]].
    exists res. split; [|exact (rescore_same_entry _ _ _ Hres)].
    unfold _merge_results, merged_dict in Hin.
    apply fold_add_db_values in Hin as [Hin | [Hin _]]; [|auto].
    apply fold_add_vector_values in Hin as [[] | Hin]. auto.
Qed.

Lemma retrieve_output_shape_witness :
  NoDup (map key top_two) /\
  (forall l1 a b l2, top_two = l1 ++ a :: b :: l2 -> score b <= score a) /\
  Forall (fun c => 0 < score c) top_two /\
  exists v d,
    _vector_retrieval (connected two_points) (Sample.intent None None) (2 * 2)
    = Ok v /\
    _db_retrieval (Ok two_rows) (Sample.intent None None) (2 * 2) = Ok d /\
    forall c, In c top_two ->
      exists res,
        (In res v \/ In res d) /\
        id c = id res /\ payload c = payload res.
Proof.
  apply (retrieve_output_shape (Ok two_rows) false (connected two_points)
           (Sample.intent None None) 2 top_two).
  vm_compute. reflexivity.
Defined.

(* ================================================================== *)
(** * The two retrievals *)

Lemma format_row_geometry (row : Row) :
  has_geometry row = true -> format_row row = Raise AttributeError.
Proof.
  destruct row as [[entry geo] temporal]. unfold has_geometry, format_row. simpl.
  destruct geo as [g|]; [|discriminate]. simpl.
  destruct (geom g); [reflexivity | discriminate].
Qed.

Lemma coordinate_without_geometry (axis : Geometry -> Q) (entry : KnowledgeEntry)
  (geo : option GeoLocation) (temporal : option TemporalInfo) :
  has_geometry (entry, geo, temporal) = false -> coordinate axis geo = Ok None.
Proof.
  unfold has_geometry, coordinate. simpl.
  destruct geo as [g|]; [|reflexivity].
  destruct (geom g); [discriminate | reflexivity].
Qed.

Lemma format_row_ok (row : Row) (c : Candidate) :
  format_row row = Ok c ->
  score c = 0 /\ id c = row_id row /\ key c = row_id row /\
  geo_point (payload c) = Some (mkGeoPoint None None) /\
  has_geometry row = false.
Proof.
  destruct (has_geometry row) eqn:Eg.
  { rewrite (format_row_geometry row Eg). discriminate. }
  destruct row as [[entry geo] temporal]. unfold format_row. intro H.
  rewrite !(coordinate_without_geometry _ _ _ _ Eg) in H. simpl in H.
  apply bind_ok in H as [[] [_ H]]. injection H as <-.
  repeat split.
Qed.

Lemma db_retrieval_ok (get_db : result Session) (query_intent : QueryIntent)
  (lim : Z) (out : list Candidate) :
  _db_retrieval get_db query_intent lim = Ok out ->
  exists db sel rows,
    get_db = Ok db /\ db sel = Ok rows /\ sel_limit sel = lim /\
    mapM format_row rows = Ok out.
Proof.
  unfold _db_retrieval. intro H.
  apply bind_ok in H as [db [Hdb H]].
  apply bind_ok in H as [w_geo [_ H]].
  apply bind_ok in H as [rows [Hrows H]].
  exists db. eexists. exists rows. repeat split; eauto.
Qed.

Lemma format_row_dynasty (row : Row) :
  dynasty_without_instant row = true -> format_row row = Raise AttributeError.
Proof.
  destruct (has_geometry row) eqn:Eg; [intros _; exact (format_row_geometry row Eg)|].
  destruct row as [[entry geo] temporal]. unfold dynasty_without_instant, format_row.
  rewrite !(coordinate_without_geometry _ _ _ _ Eg).
  simpl. destruct temporal as [t|]; [|discriminate]. simpl.
  destruct (dynasty t) as [d|]; [|discriminate].
  destruct (String.eqb d ""); [discriminate|]. simpl.
  destruct (ti_start_time t), (ti_end_time t); try discriminate; reflexivity.
Qed.

Lemma format_row_errors (row : Row) (e : exn) :
  format_row row = Raise e -> e = AttributeError.
Proof.
  destruct (has_geometry row) eqn:Eg.
  { rewrite (format_row_geometry row Eg). congruence. }
  destruct row as [[entry geo] temporal]. unfold format_row.
  rewrite !(coordinate_without_geometry _ _ _ _ Eg).
  simpl. unfold display_time_check.
  destruct temporal as [t|]; [|discriminate].
  destruct (dynasty t) as [d|]; [|discriminate].
  destruct (String.eqb d ""); [discriminate|].
  destruct (ti_start_time t), (ti_end_time t); simpl; congruence.
Qed.

Lemma mapM_format_row_raises_at (rows : list Row) (row : Row) :
  In row rows -> format_row row = Raise AttributeError ->
  mapM format_row rows = Raise AttributeError.
Proof.
  induction rows as [|x rows IH]; simpl; intros Hin Hbad; [contradiction|].
  destruct (format_row x) as [c|e] eqn:Ex.
  - destruct Hin as [-> | Hin]; [congruence|].
    simpl. rewrite (IH Hin Hbad). reflexivity.
  - simpl. apply format_row_errors in Ex. subst e. reflexivity.
Qed.

Lemma db_retrieval_rows (db : Session) (query_intent : QueryIntent) (lim : Z)
  (rows : list Row) :
  (forall gf, geo_filter query_intent = Some gf -> radius_km gf <> None) ->
  (forall sel, db sel = Ok rows) ->
  _db_retrieval (Ok db) query_intent lim = mapM format_row rows.
Proof.
  intros Hradius Hrows. unfold _db_retrieval. simpl.
  assert (exists w,
             match geo_filter query_intent with
             | Some gf => r <- radius_m gf ;; Ok (Some (lon gf, lat gf, r))
             | None => Ok None
             end = Ok w) as [w ->].
  { destruct (geo_filter query_intent) as [gf|]; [|eauto].
    specialize (Hradius gf eq_refl). unfold radius_m.
    destruct (radius_km gf); [simpl; eauto | congruence]. }
  simpl. rewrite Hrows. reflexivity.
Qed.

(** X13. What the database retrieval returns: one candidate per row the
    session gave for a statement with the requested limit, in the same
    order; none of these rows has a geometry; each candidate has score 0
    (so that the semantic sub-score is the default 0.5), the entry id as
    its id, and a [geo_point] dictionary of two [None], never [None] and
    never a coordinate. One row with a geometry makes the whole retrieval
    raise [AttributeError], whatever the other rows are. *)
Theorem db_retrieval_candidates :
  forall (get_db : result Session) (query_intent : QueryIntent) (lim : Z),
    (forall out,
        _db_retrieval get_db query_intent lim = Ok out ->
        (exists db sel rows,
            get_db = Ok db /\ db sel = Ok rows /\ sel_limit sel = lim /\
            map key out = map row_id rows /\
            Forall (fun row => has_geometry row = false) rows) /\
        Forall
          (fun c =>
             score c = 0 /\ semantic_score c = 0.5 /\ id c = key c /\
             geo_point (payload c) = Some (mkGeoPoint None None))
          out) /\
    (forall db rows row,
        get_db = Ok db ->
        (forall gf, geo_filter query_intent = Some gf -> radius_km gf <> None) ->
        (forall sel, db sel = Ok rows) ->
        In row rows -> has_geometry row = true ->
        _db_retrieval get_db query_intent lim = Raise AttributeError).
Proof.
  intros get_db query_intent lim. split.
  - intros out H.
    apply db_retrieval_ok in H as [db [sel [rows [Hdb [Hrows [Hlim Hout]]]]]].
    apply mapM_ok in Hout. split.
    + exists db, sel, rows. repeat split; try assumption.
      * clear Hrows. induction Hout as [|row c l l' Hc _ IH]; [reflexivity|].
        simpl. rewrite IH. destruct (format_row_ok _ _ Hc) as [_ [_ [-> _]]].
        reflexivity.
      * clear Hrows. induction Hout as [|row c l l' Hc _ IH]; [constructor|].
        constructor; [|exact IH]. apply (format_row_ok _ _ Hc).
    + clear Hrows. induction Hout as [|row c l l' Hc _ IH]; [constructor|].
      constructor; [|exact IH].
      destruct (format_row_ok _ _ Hc) as [Hs [Hid [Hk [Hgp _]]]].
      repeat split; [exact Hs | | congruence | exact Hgp].
      unfold semantic_score. rewrite Hs. reflexivity.
  - intros db rows row -> Hradius Hrows Hin Hgeo.
    rewrite (db_retrieval_rows db query_intent lim rows Hradius Hrows).
    exact (mapM_format_row_raises_at rows row Hin (format_row_geometry row Hgeo)).
Qed.

Lemma db_retrieval_candidates_witness :
  ((exists db sel rows,
       Ok two_rows = Ok db /\ db sel = Ok rows /\ sel_limit sel = 4%Z /\
       map key [Sample.cand "c" 0 (Some (mkGeoPoint None None)) None None;
                Sample.cand "a" 0 (Some (mkGeoPoint None None)) None None]
       = map row_id rows /\
       Forall (fun row => has_geometry row = false) rows) /\
   Forall
     (fun c =>
        score c = 0 /\ semantic_score c = 0.5 /\ id c = key c /\
        geo_point (payload c) = Some (mkGeoPoint None None))
     [Sample.cand "c" 0 (Some (mkGeoPoint None None)) None None;
      Sample.cand "a" 0 (Some (mkGeoPoint None None)) None None]) /\
  _db_retrieval (Ok with_geometry) (Sample.intent (Some Sample.beijing) None) 4
  = Raise AttributeError.
Proof.
  destruct (db_retrieval_candidates (Ok two_rows) (Sample.intent None None) 4)
    as [Hok _].
  destruct (db_retrieval_candidates (Ok with_geometry)
              (Sample.intent (Some Sample.beijing) None) 4) as [_ Hraise].
  split.
  - apply Hok. reflexivity.
  - apply (Hraise with_geometry
             [(mkKnowledgeEntry "c" "t" None,
               Some (mkGeoLocation (Some (mkGeometry 116.4 39.9))), None)]
             (mkKnowledgeEntry "c" "t" None,
              Some (mkGeoLocation (Some (mkGeometry 116.4 39.9))), None)).
    + reflexivity.
    + intros gf H. injection H as <-. discriminate.
    + reflexivity.
    + simpl. auto.
    + reflexivity.
Defined.

Lemma mapM_format_row_raises (rows : list Row) (row : Row) :
  In row rows -> dynasty_without_instant row = true ->
  mapM format_row rows = Raise AttributeError.
Proof.
  induction rows as [|x rows IH]; simpl; intros Hin Hbad; [contradiction|].
  destruct (format_row x) as [c|e] eqn:Ex.
  - destruct Hin as [-> | Hin].
    + rewrite (format_row_dynasty _ Hbad) in Ex. discriminate.
    + simpl. rewrite (IH Hin Hbad). reflexivity.
  - simpl. apply format_row_errors in Ex. subst e. reflexivity.
Qed.

(** X14. One row whose temporal record names a dynasty but lacks its
    start or end instant makes the whole database retrieval raise
    [AttributeError], whatever the other rows are: no candidate is
    returned. *)
Theorem db_retrieval_undated_dynasty :
  forall (db : Session) (query_intent : QueryIntent) (lim : Z)
         (rows : list Row) (row : Row),
    (forall gf, geo_filter query_intent = Some gf -> radius_km gf <> None) ->
    (forall sel, db sel = Ok rows) ->
    In row rows -> dynasty_without_instant row = true ->
    _db_retrieval (Ok db) query_intent lim = Raise AttributeError.
Proof.
  intros db query_intent lim rows row Hradius Hrows Hin Hbad.
  unfold _db_retrieval. simpl.
  assert (exists w,
             match geo_filter query_intent with
             | Some gf => r <- radius_m gf ;; Ok (Some (lon gf, lat gf, r))
             | None => Ok None
             end = Ok w) as [w ->].
  { destruct (geo_filter query_intent) as [gf|]; [|eauto].
    specialize (Hradius gf eq_refl). unfold radius_m.
    destruct (radius_km gf); [simpl; eauto | congruence]. }
  simpl. rewrite Hrows. simpl.
  exact (mapM_format_row_raises rows row Hin Hbad).
Qed.

Lemma db_retrieval_undated_dynasty_witness :
  _db_retrieval (Ok undated_dynasty) (Sample.intent (Some Sample.beijing) None) 4
  = Raise AttributeError.
Proof.
  apply (db_retrieval_undated_dynasty undated_dynasty
           (Sample.intent (Some Sample.beijing) None) 4
           [(mkKnowledgeEntry "c" "t" None, None,
             Some (mkTemporalInfo None (Some 1644) (Some "Ming"%string)))]
           (mkKnowledgeEntry "c" "t" None, None,
            Some (mkTemporalInfo None (Some 1644) (Some "Ming"%string)))).
  - intros gf H. injection H as <-. discriminate.
  - reflexivity.
  - simpl. auto.
  - reflexivity.
Defined.

(** X15. What a connected [search] asks of the index and gives back: the
    query vector and the limit unchanged; a filter that is [None] exactly
    when there is no geo filter, no time filter and no category (an empty
    category counts as none), and never an empty list of conditions; the
    radius of a geo filter in metres; and one candidate per point
    returned, in the same order, with the id, score and payload of the
    point. *)
Theorem search_request :
  forall (cl : AsyncQdrantClient) (qv : option (list Q)) (geo : option GeoFilter)
         (time : option TimeFilter) (category_filter : option string) (lim : Z)
         (out : list Candidate),
    search (mkVectorStore (Some cl)) qv geo time category_filter lim = Ok out ->
    exists f results,
      cl (mkSearchRequest qv f lim) = Ok results /\
      out = map of_point results /\
      f <> Some [] /\
      (f = None <->
       geo = None /\ time = None /\
       (category_filter = None \/ category_filter = Some ""%string)) /\
      (forall gf, geo = Some gf ->
         exists r conds,
           radius_km gf = Some r /\ f = Some conds /\
           In (GeoRadius (lat gf) (lon gf) (r * 1000)) conds).
Proof.
  intros cl qv geo time category_filter lim out. unfold search. simpl.
  intro H. apply bind_ok in H as [geo_conds [Hgeo H]].
  apply bind_ok in H as [results [Hres H]]. injection H as <-.
  eexists. exists results. split; [exact Hres|]. split; [reflexivity|].
  destruct geo as [gf|].
  - apply bind_ok in Hgeo as [r [Hr Hgeo]]. injection Hgeo as <-.
    unfold radius_m in Hr. destruct (radius_km gf) as [r0|] eqn:Er; [|discriminate].
    injection Hr as <-. simpl.
    split; [discriminate|]. split.
    + split; [discriminate | intros [Hn _]; discriminate].
    + intros gf' Hgf'. injection Hgf' as <-.
      exists r0. eexists. split; [exact Er|]. split; [reflexivity|].
      simpl. auto.
  - injection Hgeo as <-. simpl.
    split; [|split; [|discriminate]].
    + destruct time; [discriminate|].
      destruct category_filter as [c|]; [|discriminate].
      destruct (String.eqb c ""); discriminate.
    + destruct time as [tf|]; simpl.
      * split; [discriminate | intros [_ [Hn _]]; discriminate].
      * destruct category_filter as [c|]; simpl; [|tauto].
        destruct (String.eqb c "") eqn:Ec; simpl.
        -- apply String.eqb_eq in Ec. subst c. tauto.
        -- split; [discriminate|].
           intros [_ [_ [Hn | Hn]]]; [discriminate|].
           injection Hn as ->. discriminate.
Qed.

Lemma search_request_witness :
  exists f results,
    two_points (mkSearchRequest None f 4) = Ok results /\
    returned (search (mkVectorStore (Some two_points)) None
                (Some Sample.beijing) None (Some ""%string) 4)
    = map of_point results /\
    f <> Some [] /\
    (f = None <->
     Some Sample.beijing = None /\ @None TimeFilter = None /\
     (Some ""%string = @None string \/ Some ""%string = Some ""%string)) /\
    (forall gf, Some Sample.beijing = Some gf ->
       exists r conds,
         radius_km gf = Some r /\ f = Some conds /\
         In (GeoRadius (lat gf) (lon gf) (r * 1000)) conds).
Proof.
  apply (search_request two_points None (Some Sample.beijing) None
           (Some ""%string) 4).
  reflexivity.
Defined.

(** ** The time filter in the two paths and in the time step *)




Lemma sorted_app_desc (l1 l2 : list Candidate) :
  StronglySorted desc (l1 ++ l2) ->
  forall a b, In a l1 -> In b l2 -> score b <= score a.
Proof.
  induction l1 as [|x l1 IH]; simpl; intros Hs a b Ha Hb; [contradiction|].
  inversion Hs as [|? ? Hs' Hall]; subst.
  destruct Ha as [<- | Ha].
  - rewrite Forall_forall in Hall. apply Hall, in_or_app. auto.
  - exact (IH Hs' a b Ha Hb).
Qed.

(** X27. What [retrieve] cuts off is never better than what it keeps:
    the list it returns is a prefix of the reranked list, and every
    candidate of the reranked list left out of it scores at most as much
    as every candidate returned. *)
Theorem retrieve_keeps_best :
  forall (get_db : result Session) (db_first : bool) (self : HybridRetriever)
         (query_intent : QueryIntent) (top_k : Z) (out : list Candidate),
    retrieve get_db db_first self query_intent top_k = Ok out ->
    exists v d reranked dropped,
      _vector_retrieval self query_intent (top_k * 2) = Ok v /\
      _db_retrieval get_db query_intent (top_k * 2) = Ok d /\
      _rerank (_merge_results v d) query_intent = Ok reranked /\
      reranked = out ++ dropped /\
      forall a b, In a out -> In b dropped -> score b <= score a.
Proof.
  intros get_db db_first self query_intent top_k out H.
  apply retrieve_ok in H as [v [d [reranked [Hv [Hd [Hr ->]]]]]].
  destruct (prefix_is_firstn reranked top_k) as [n ->].
  exists v, d, reranked, (skipn n reranked).
  split; [exact Hv|]. split; [exact Hd|]. split; [exact Hr|].
  split; [symmetry; apply firstn_skipn|].
  apply sorted_app_desc. rewrite firstn_skipn.
  apply rerank_ok in Hr as [scored [_ ->]]. apply sorted_desc_sorted.
Qed.

Lemma retrieve_keeps_best_witness :
  exists v d reranked dropped,
    _vector_retrieval (connected two_points) (Sample.intent None None) (2 * 2)
    = Ok v /\
    _db_retrieval (Ok two_rows) (Sample.intent None None) (2 * 2) = Ok d /\
    _rerank (_merge_results v d) (Sample.intent None None) = Ok reranked /\
    reranked = top_two ++ dropped /\
    forall a b, In a top_two -> In b dropped -> score b <= score a.
Proof.
  apply (retrieve_keeps_best (Ok two_rows) false (connected two_points)
           (Sample.intent None None) 2 top_two).
  vm_compute. reflexivity.
Defined.

(** X17. With a negative [top_k], once both retrievals have returned and
    the merged candidates are reranked, [retrieve] returns the reranked
    list without its last [-top_k] entries: not an empty list, and not an
    error. *)
Theorem retrieve_negative_top_k :
  forall (get_db : result Session) (db_first : bool) (self : HybridRetriever)
         (query_intent : QueryIntent) (top_k : Z) (v d reranked : list Candidate),
    (top_k < 0)%Z ->
    _vector_retrieval self query_intent (top_k * 2) = Ok v ->
    _db_retrieval get_db query_intent (top_k * 2) = Ok d ->
    _rerank (_merge_results v d) query_intent = Ok reranked ->
    exists out,
      retrieve get_db db_first self query_intent top_k = Ok out /\
      out = firstn (List.length reranked - Z.to_nat (- top_k)) reranked /\
      List.length out = (List.length reranked - Z.to_nat (- top_k))%nat.
Proof.
  intros get_db db_first self query_intent top_k v d reranked Hneg Hv Hd Hr.
  rewrite (retrieve_after_gather _ _ _ _ _ v d Hv Hd), Hr. simpl.
  eexists. split; [reflexivity|].
  unfold Py.prefix.
  assert ((0 <=? top_k)%Z = false) as -> by (apply Z.leb_gt; exact Hneg).
  split; [reflexivity|].
  apply firstn_length_le. lia.
Qed.

Lemma retrieve_negative_top_k_witness :
  exists out,
    retrieve (Ok two_rows) false (connected two_points)
      (Sample.intent None None) (-1) = Ok out /\
    List.length out = 2%nat.
Proof.
  destruct (retrieve_negative_top_k (Ok two_rows) false (connected two_points)
              (Sample.intent None None) (-1)
              (returned (_vector_retrieval (connected two_points)
                           (Sample.intent None None) (-2)))
              (returned (_db_retrieval (Ok two_rows)
                           (Sample.intent None None) (-2)))
              (returned (_rerank
                           (_merge_results
                              (returned (_vector_retrieval (connected two_points)
                                 (Sample.intent None None) (-2)))
                              (returned (_db_retrieval (Ok two_rows)
                                 (Sample.intent None None) (-2))))
                           (Sample.intent None None))))
    as [out [Hout [_ Hlen]]]; try reflexivity.
  exists out. split; [exact Hout | exact Hlen].
Defined.

(* ================================================================== *)
(** * Indexing documents *)

Lemma item_ok (l : list Q) (i : nat) :
  (i < List.length l)%nat -> exists x, item l i = Ok x /\ nth_error l i = Some x.
Proof.
  intro H. unfold item. destruct (nth_error l i) as [x|] eqn:E; [eauto|].
  apply nth_error_None in E. lia.
Qed.

Lemma doc_geo_point_raises (doc : Document) :
  coordinates_ok doc = false -> doc_geo_point doc = Raise IndexError.
Proof.
  unfold coordinates_ok, doc_geo_point.
  destruct (doc_geo doc) as [[|x [|y l]]|]; simpl; try discriminate; reflexivity.
Qed.

Lemma point_of_ok (uuid : string) (doc : Document) :
  coordinates_ok doc = true ->
  exists p,
    point_of uuid doc = Ok p /\ point_id p = uuid /\
    entry_id (point_payload p) = doc_id doc.
Proof.
  unfold coordinates_ok, point_of, doc_geo_point.
  destruct (doc_geo doc) as [[|x [|y l]]|]; simpl; try discriminate;
    intros _; eexists; repeat split.
Qed.

Lemma point_of_errors (uuid : string) (doc : Document) (e : exn) :
  point_of uuid doc = Raise e -> e = IndexError /\ coordinates_ok doc = false.
Proof.
  unfold coordinates_ok, point_of, doc_geo_point.
  destruct (doc_geo doc) as [[|x [|y l]]|]; simpl; try discriminate;
    intro H; injection H as <-; auto.
Qed.

Lemma build_points_ok (uuid4 : nat -> string) (documents : list Document) (n : nat) :
  Forall (fun doc => coordinates_ok doc = true) documents ->
  exists points,
    build_points uuid4 n documents = Ok points /\
    map (fun p => entry_id (point_payload p)) points = map doc_id documents /\
    map point_id points = map uuid4 (seq n (List.length documents)).
Proof.
  intro H. revert n. induction H as [|doc l Hdoc _ IH]; intro n; simpl.
  - exists []. auto.
  - destruct (point_of_ok (uuid4 n) doc Hdoc) as [p [-> [Hid Hentry]]].
    destruct (IH (S n)) as [ps [-> [Hentries Hids]]]. simpl.
    exists (p :: ps). simpl. rewrite Hid, Hentry, Hentries, Hids. auto.
Qed.

Lemma build_points_raises (uuid4 : nat -> string) (documents : list Document)
  (n : nat) (doc : Document) :
  In doc documents -> coordinates_ok doc = false ->
  build_points uuid4 n documents = Raise IndexError.
Proof.
  revert n. induction documents as [|x l IH]; simpl; intros n Hin Hbad;
    [contradiction|].
  destruct (point_of (uuid4 n) x) as [p|e] eqn:Ex.
  - destruct Hin as [-> | Hin].
    + unfold point_of in Ex. rewrite (doc_geo_point_raises _ Hbad) in Ex.
      discriminate.
    + simpl. rewrite (IH (S n) Hin Hbad). reflexivity.
  - simpl. apply point_of_errors in Ex as [-> _]. reflexivity.
Qed.

(** X18. [insert] on an unconnected store raises before it reads any
    document; on a connected store, one document whose coordinate list has
    fewer than two entries makes it raise [IndexError] before anything is
    sent to the index; otherwise it sends exactly one point per document,
    in order, each filed under the id of its document and carrying the
    identifier drawn for it. *)
Theorem insert_outcomes :
  forall (vs : VectorStore) (upsert : list PointStruct -> result unit)
         (uuid4 : nat -> string) (documents : list Document),
    (client vs = None -> insert vs upsert uuid4 documents = Raise not_connected) /\
    (client vs <> None ->
     (exists doc, In doc documents /\ coordinates_ok doc = false) ->
     insert vs upsert uuid4 documents = Raise IndexError) /\
    (client vs <> None ->
     Forall (fun doc => coordinates_ok doc = true) documents ->
     exists points,
       insert vs upsert uuid4 documents = upsert points /\
       map (fun p => entry_id (point_payload p)) points = map doc_id documents /\
       map point_id points = map uuid4 (seq 0 (List.length documents))).
Proof.
  intros vs upsert uuid4 documents. unfold insert.
  destruct (client vs) as [cl|]; split; try split; try congruence.
  - intros _ [doc [Hin Hbad]].
    rewrite (build_points_raises uuid4 documents 0 doc Hin Hbad). reflexivity.
  - intros _ Hall.
    destruct (build_points_ok uuid4 documents 0 Hall) as [points [-> [He Hi]]].
    exists points. auto.
Qed.

Lemma insert_outcomes_witness :
  insert (mkVectorStore None) (fun _ => Ok tt) (fun _ => "u"%string) [half_located]
  = Raise not_connected /\
  insert (mkVectorStore (Some no_points)) (fun _ => Ok tt) (fun _ => "u"%string)
    [palace; half_located]
  = Raise IndexError /\
  exists points,
    insert (mkVectorStore (Some no_points)) (fun _ => Ok tt) (fun _ => "u"%string)
      [palace; nowhere]
    = Ok tt /\
    map (fun p => entry_id (point_payload p)) points = ["e1"; "e2"]%string.
Proof.
  split; [|split].
  - destruct (insert_outcomes (mkVectorStore None) (fun _ => Ok tt)
                (fun _ => "u"%string) [half_located]) as [H _].
    apply H. reflexivity.
  - destruct (insert_outcomes (mkVectorStore (Some no_points)) (fun _ => Ok tt)
                (fun _ => "u"%string) [palace; half_located]) as [_ [H _]].
    apply H; [discriminate|]. exists half_located. split; [simpl; auto | reflexivity].
  - destruct (insert_outcomes (mkVectorStore (Some no_points)) (fun _ => Ok tt)
                (fun _ => "u"%string) [palace; nowhere]) as [_ [_ H]].
    destruct H as [points [Hins [He _]]];
      [discriminate | repeat constructor |].
    exists points. split; [reflexivity | exact He].
Defined.

Lemma point_of_located (uuid : string) (doc : Document) (p : PointStruct) (s : Q) :
  point_of uuid doc = Ok p -> located (hit_of p s) = true.
Proof.
  unfold point_of, doc_geo_point. intro Hp.
  destruct (doc_geo doc) as [coordinates|].
  - apply bind_ok in Hp as [gp [Hgp Hp]]. injection Hp as <-.
    apply bind_ok in Hgp as [y [_ Hgp]]. apply bind_ok in Hgp as [x [_ Hgp]].
    injection Hgp as <-. reflexivity.
  - simpl in Hp. injection Hp as <-. reflexivity.
Qed.

(** X19. The geo point of a stored document, as a later [search]
    returns it: [None] or two numbers, never a dictionary with a [None]
    entry. A document without location is stored with [geo_point] [None],
    so that the geo step gives it 1 under every query. A document located
    by a position [x, y, ...] (longitude first) is stored with latitude
    [y] and longitude [x], and under a geo filter of positive radius [r]
    its geo sub-score is the linear decay computed from those two:
    [max(0, 1 - (|lat - y| * 111 + |lon - x| * 111) / r)]. *)
Theorem stored_geo_point :
  forall (uuid : string) (doc : Document) (p : PointStruct) (s : Q),
    point_of uuid doc = Ok p ->
    located (hit_of p s) = true /\
    (doc_geo doc = None ->
     geo_point (payload (hit_of p s)) = None /\
     forall query_intent, geo_score query_intent (hit_of p s) = Ok 1) /\
    (forall x y rest,
        doc_geo doc = Some (x :: y :: rest) ->
        geo_point (payload (hit_of p s)) = Some (mkGeoPoint (Some y) (Some x)) /\
        forall query_intent gf r,
          geo_filter query_intent = Some gf ->
          radius_km gf = Some r -> 0 < r ->
          exists g,
            geo_score query_intent (hit_of p s) = Ok g /\
            g == Qmax 0 (1 - manhattan_km (lat gf) (lon gf) y x / r)).
Proof.
  intros uuid doc p s Hp. split; [exact (point_of_located uuid doc p s Hp)|].
  unfold point_of, doc_geo_point in Hp. split.
  - intro Hnone. rewrite Hnone in Hp. simpl in Hp. injection Hp as <-.
    split; [reflexivity|]. intro query_intent.
    apply geo_score_neutral. right. reflexivity.
  - intros x y rest Hgeo. rewrite Hgeo in Hp. simpl in Hp. injection Hp as <-.
    split; [reflexivity|].
    intros query_intent gf r Hgf Hr Hpos.
    apply (geo_score_with_point query_intent gf _ y x r Hgf Hr Hpos). reflexivity.
Qed.

Lemma stored_geo_point_witness :
  geo_point (payload (hit_of palace_point 0.8))
  = Some (mkGeoPoint (Some 39.9) (Some 116.4)) /\
  (exists g,
      geo_score (Sample.intent (Some Sample.beijing) None) (hit_of palace_point 0.8)
      = Ok g /\
      g == Qmax 0 (1 - manhattan_km 39.9 116.4 39.9 116.4 / 10)) /\
  geo_point (payload (hit_of nowhere_point 0.8)) = None /\
  geo_score (Sample.intent (Some Sample.beijing) None) (hit_of nowhere_point 0.8)
  = Ok 1.
Proof.
  destruct (stored_geo_point "u0" palace palace_point 0.8) as [_ [_ Hloc]];
    [reflexivity|].
  destruct (stored_geo_point "u1" nowhere nowhere_point 0.8) as [_ [Hnone _]];
    [reflexivity|].
  destruct (Hloc 116.4 39.9 []) as [Hgp Hscore]; [reflexivity|].
  destruct Hnone as [Hn Hone]; [reflexivity|].
  split; [exact Hgp|]. split.
  - apply (Hscore (Sample.intent (Some Sample.beijing) None) Sample.beijing 10);
      reflexivity.
  - split; [exact Hn | apply Hone].
Defined.

(* ================================================================== *)
(** * The generator *)

Lemma length_append (a b : string) :
  String.length (a ++ b) = (String.length a + String.length b)%nat.
Proof.
  induction a as [|c a IH]; simpl; [reflexivity|]. rewrite IH. reflexivity.
Qed.

Lemma length_substring (n : nat) (s : string) :
  (n <= String.length s)%nat -> String.length (substring 0 n s) = n.
Proof.
  revert s. induction n as [|n IH]; intros s H.
  - destruct s; reflexivity.
  - destruct s as [|c s]; simpl in *; [lia|]. rewrite IH; [reflexivity | lia].
Qed.

Lemma substring_idempotent (n : nat) (s : string) :
  substring 0 n (substring 0 n s) = substring 0 n s.
Proof.
  revert s. induction n as [|n IH]; intros s.
  - destruct s; reflexivity.
  - destruct s as [|c s]; simpl; [reflexivity|]. rewrite IH. reflexivity.
Qed.

Lemma substring_prefix (n : nat) (s : string) :
  (n <= String.length s)%nat -> prefix (substring 0 n s) s = true.
Proof.
  revert s. induction n as [|n IH]; intros s H.
  - destruct s; reflexivity.
  - destruct s as [|c s]; simpl in *; [lia|].
    destruct (Ascii.ascii_dec c c) as [_|Hne]; [|congruence].
    apply IH. lia.
Qed.

Lemma shorten_some (n : nat) (s : string) :
  exists r, shorten n (Some s) = Ok r /\ (String.length r <= n + 3)%nat.
Proof.
  unfold shorten. destruct (n <? String.length s)%nat eqn:E.
  - apply Nat.ltb_lt in E. eexists. split; [reflexivity|].
    rewrite length_append, length_substring by lia. simpl. lia.
  - apply Nat.ltb_ge in E. exists s. split; [reflexivity | lia].
Qed.

(** X20. The truncation of a content ([200] characters for a snippet,
    [500] in a prompt): a text of at most [n] characters is returned as it
    is; a longer one gives its first [n] characters followed by three
    dots, that is [n + 3] characters, which is more than the text had when
    it had [n + 1] or [n + 2]; and a content that is [None] raises
    [TypeError]. *)
Theorem shorten_bounds :
  forall (n : nat) (s : string),
    shorten n None = Raise TypeError /\
    exists r,
      shorten n (Some s) = Ok r /\
      (String.length r <= n + 3)%nat /\
      ((String.length s <= n)%nat -> r = s) /\
      ((n < String.length s)%nat ->
       r = (substring 0 n s ++ "...")%string /\
       String.length r = (n + 3)%nat /\
       prefix (substring 0 n s) s = true /\
       ((String.length s < n + 3)%nat -> (String.length s < String.length r)%nat)).
Proof.
  intros n s. split; [reflexivity|]. unfold shorten.
  destruct (n <? String.length s)%nat eqn:E.
  - apply Nat.ltb_lt in E. eexists. split; [reflexivity|].
    assert (String.length (substring 0 n s ++ "...") = (n + 3)%nat) as Hlen.
    { rewrite length_append, length_substring by lia. reflexivity. }
    split; [lia|]. split; [lia|]. intros _.
    split; [reflexivity|]. split; [exact Hlen|].
    split; [apply substring_prefix; lia | lia].
  - apply Nat.ltb_ge in E. exists s. split; [reflexivity|].
    split; [lia|]. split; [reflexivity | lia].
Qed.

Lemma shorten_bounds_witness :
  shorten 5 (Some "abcdefg"%string) = Ok "abcde..."%string /\
  shorten 5 (Some "abc"%string) = Ok "abc"%string.
Proof.
  destruct (shorten_bounds 5 "abcdefg") as [_ [r [Hr [_ [_ Hlong]]]]].
  destruct (shorten_bounds 5 "abc") as [_ [r' [Hr' [_ [Hshort _]]]]].
  destruct Hlong as [-> _]; [simpl; lia|].
  rewrite (Hshort ltac:(simpl; lia)) in Hr'.
  split; [exact Hr | exact Hr'].
Defined.

Lemma context_part_ok (held : Candidate -> option (option string)) (idx : nat)
  (ctx : Candidate) :
  describable ctx = true -> exists part, context_part held idx ctx = Ok part.
Proof.
  unfold describable, context_part, address_of, shorten.
  destruct (geo_point (payload ctx)); [|discriminate].
  destruct (content (payload ctx)) as [s|]; [|discriminate].
  intros _. simpl. destruct (500 <? String.length s)%nat; simpl; eauto.
Qed.

Lemma context_part_raises (held : Candidate -> option (option string)) (idx : nat)
  (ctx : Candidate) :
  describable ctx = false ->
  context_part held idx ctx
  = Raise (match geo_point (payload ctx) with
           | None => AttributeError
           | Some _ => TypeError
           end).
Proof.
  unfold describable, context_part, address_of, shorten.
  destruct (geo_point (payload ctx)); [|reflexivity].
  destruct (content (payload ctx)); [discriminate | reflexivity].
Qed.

Lemma context_parts_ok (held : Candidate -> option (option string))
  (contexts : list Candidate) (idx : nat) :
  Forall (fun c => describable c = true) contexts ->
  exists parts,
    context_parts held idx contexts = Ok parts /\
    List.length parts = List.length contexts.
Proof.
  intro H. revert idx. induction H as [|ctx l Hctx _ IH]; intro idx; simpl.
  - exists []. auto.
  - destruct (context_part_ok held idx ctx Hctx) as [part ->].
    destruct (IH (S idx)) as [parts [-> Hlen]]. simpl.
    exists (part :: parts). simpl. auto.
Qed.

Lemma context_parts_raises (held : Candidate -> option (option string))
  (good rest : list Candidate) (ctx : Candidate) (idx : nat) :
  Forall (fun c => describable c = true) good ->
  describable ctx = false ->
  context_parts held idx (good ++ ctx :: rest)
  = Raise (match geo_point (payload ctx) with
           | None => AttributeError
           | Some _ => TypeError
           end).
Proof.
  intros Hgood Hbad. revert idx.
  induction Hgood as [|c l Hc _ IH]; intro idx; simpl.
  - rewrite (context_part_raises held idx ctx Hbad). reflexivity.
  - destruct (context_part_ok held idx c Hc) as [part ->]. simpl.
    rewrite IH. reflexivity.
Qed.

Lemma first_undescribable (contexts : list Candidate) :
  ~ Forall (fun c => describable c = true) contexts ->
  exists good ctx rest,
    contexts = good ++ ctx :: rest /\
    Forall (fun c => describable c = true) good /\
    describable ctx = false.
Proof.
  induction contexts as [|c l IH]; intro H.
  - exfalso. apply H. constructor.
  - destruct (describable c) eqn:E.
    + destruct IH as [good [ctx [rest [-> [Hgood Hbad]]]]].
      * intro Hl. apply H. constructor; assumption.
      * exists (c :: good), ctx, rest. repeat split; [constructor|]; assumption.
    + exists [], c, l. repeat split; [constructor | exact E].
Qed.

(** X21. [_build_context] returns a text exactly when every context has a
    [geo_point] dictionary and a content; otherwise the first context that
    lacks one decides the exception: [AttributeError] when its [geo_point]
    is [None] (what the vector path stores for a document without
    location), [TypeError] when only its content is [None]. *)
Theorem build_context_outcome :
  forall (held : Candidate -> option (option string)) (contexts : list Candidate),
    (Forall (fun c => describable c = true) contexts <->
     exists text, _build_context held contexts = Ok text) /\
    (forall good ctx rest,
        contexts = good ++ ctx :: rest ->
        Forall (fun c => describable c = true) good ->
        describable ctx = false ->
        (geo_point (payload ctx) = None ->
         _build_context held contexts = Raise AttributeError) /\
        (geo_point (payload ctx) <> None ->
         _build_context held contexts = Raise TypeError)).
Proof.
  intros held contexts.
  assert (forall good ctx rest,
             contexts = good ++ ctx :: rest ->
             Forall (fun c => describable c = true) good ->
             describable ctx = false ->
             _build_context held contexts
             = Raise (match geo_point (payload ctx) with
                      | None => AttributeError
                      | Some _ => TypeError
                      end)) as Hfirst.
  { intros good ctx rest -> Hgood Hbad. unfold _build_context.
    rewrite (context_parts_raises held good rest ctx 1 Hgood Hbad). reflexivity. }
  split.
  - split.
    + intro Hall. unfold _build_context.
      destruct (context_parts_ok held contexts 1 Hall) as [parts [-> _]].
      simpl. eauto.
    + intros [text Htext].
      destruct (Forall_Exists_dec (fun c => describable c = true)
                  (fun c => bool_dec (describable c) true) contexts)
        as [Hall | Hex]; [exact Hall|].
      exfalso.
      destruct (first_undescribable contexts) as [good [ctx [rest [Heq [Hg Hb]]]]].
      * intro Hall. apply Exists_Forall_neg in Hex; [contradiction|].
        intro c. destruct (bool_dec (describable c) true); auto.
      * rewrite (Hfirst good ctx rest Heq Hg Hb) in Htext. discriminate.
  - intros good ctx rest Heq Hgood Hbad.
    pose proof (Hfirst good ctx rest Heq Hgood Hbad) as H.
    destruct (geo_point (payload ctx)); split; intro Hgp; congruence.
Qed.

Lemma build_context_outcome_witness :
  (exists text, _build_context no_display_time [described] = Ok text) /\
  _build_context no_display_time [described; unlocated] = Raise AttributeError.
Proof.
  destruct (build_context_outcome no_display_time [described]) as [[Hok _] _].
  destruct (build_context_outcome no_display_time [described; unlocated])
    as [_ Hfirst].
  split.
  - apply Hok. repeat constructor.
  - destruct (Hfirst [described] unlocated []) as [Hattr _];
      [reflexivity | repeat constructor | reflexivity |].
    apply Hattr. reflexivity.
Defined.

(* ================================================================== *)
(** * The service *)

(** ** Rounding *)

Lemma round_half_even_range (x : Q) :
  (Qfloor x <= round_half_even x <= Qfloor x + 1)%Z.
Proof.
  unfold round_half_even.
  destruct (Qcompare (x - inject_Z (Qfloor x)) (1 # 2)); [|lia|lia].
  destruct (Z.even (Qfloor x)); lia.
Qed.

Lemma round_half_even_error (x : Q) :
  - (1 # 2) <= inject_Z (round_half_even x) - x <= 1 # 2.
Proof.
  unfold round_half_even.
  pose proof (Qfloor_le x) as Hlo. pose proof (Qlt_floor x) as Hhi.
  rewrite inject_Z_plus in Hhi. change (inject_Z 1) with 1 in Hhi.
  destruct (Qcompare_spec (x - inject_Z (Qfloor x)) (1 # 2)) as [E | E | E].
  - destruct (Z.even (Qfloor x));
      [|rewrite inject_Z_plus; change (inject_Z 1) with 1]; lra.
  - lra.
  - rewrite inject_Z_plus. change (inject_Z 1) with 1. lra.
Qed.

Lemma round_half_even_mono (x y : Q) :
  x <= y -> (round_half_even x <= round_half_even y)%Z.
Proof.
  intro Hxy. pose proof (Qfloor_resp_le x y Hxy) as Hf.
  destruct (Z.eq_dec (Qfloor x) (Qfloor y)) as [Heq | Hne].
  - unfold round_half_even. rewrite <- Heq.
    destruct (Qcompare_spec (x - inject_Z (Qfloor x)) (1 # 2)) as [Ex | Ex | Ex];
      destruct (Qcompare_spec (y - inject_Z (Qfloor x)) (1 # 2)) as [Ey | Ey | Ey];
      destruct (Z.even (Qfloor x)); try lia; exfalso; lra.
  - pose proof (round_half_even_range x). pose proof (round_half_even_range y). lia.
Qed.

Lemma scale_pos (ndigits : nat) : 0 < inject_Z (10 ^ Z.of_nat ndigits).
Proof.
  replace 0 with (inject_Z 0) by reflexivity. rewrite <- Zlt_Qlt.
  apply Z.pow_pos_nonneg; lia.
Qed.

Lemma py_round_mono (x y : Q) (ndigits : nat) :
  x <= y -> py_round x ndigits <= py_round y ndigits.
Proof.
  intro Hxy. unfold py_round. pose proof (scale_pos ndigits) as Hs.
  apply div_le_div; [exact Hs|].
  rewrite <- Zle_Qle. apply round_half_even_mono.
  apply Qmult_le_compat_r; [exact Hxy | lra].
Qed.

Lemma py_round_error (x : Q) (ndigits : nat) :
  let scale := inject_Z (10 ^ Z.of_nat ndigits) in
  - (1 # 2) / scale <= py_round x ndigits - x <= (1 # 2) / scale.
Proof.
  intro scale. pose proof (scale_pos ndigits) as Hs. fold scale in Hs.
  pose proof (round_half_even_error (x * scale)) as [Hlo Hhi].
  assert (py_round x ndigits - x
          == (inject_Z (round_half_even (x * scale)) - x * scale) / scale) as ->.
  { unfold py_round. fold scale. field. lra. }
  split; apply div_le_div; assumption.
Qed.

Lemma py_round_4_error (x : Q) :
  - (1 # 20000) <= py_round x 4 - x <= 1 # 20000.
Proof.
  pose proof (py_round_error x 4) as H. cbv zeta in H.
  change (inject_Z (10 ^ Z.of_nat 4)) with (10000 # 1) in H.
  assert ((1 # 2) / (10000 # 1) == 1 # 20000) as E by reflexivity.
  assert (- (1 # 2) / (10000 # 1) == - (1 # 20000)) as E' by reflexivity.
  rewrite E, E' in H. exact H.
Qed.

(** ** The sources *)

Lemma source_of_ok (held : Candidate -> option (option string)) (ctx : Candidate) :
  presentable ctx = true ->
  exists s,
    source_of held ctx = Ok s /\
    source_id s = key ctx /\
    relevance_score s = py_round (score ctx) 4 /\
    (String.length (snippet s) <= 203)%nat.
Proof.
  unfold presentable, source_of, address_of, validate_location.
  destruct (content (payload ctx)) as [text|] eqn:Ec; [|discriminate].
  destruct (shorten_some 200 text) as [r [Hr Hlen]].
  rewrite Hr.
  destruct (geo_point (payload ctx)) as [[[a|] [b|]]|]; simpl; try discriminate.
  intros _. eexists. split; [reflexivity|]. simpl. auto.
Qed.

Lemma source_of_raises (held : Candidate -> option (option string)) (ctx : Candidate) :
  presentable ctx = false -> source_of held ctx = Raise (source_failure ctx).
Proof.
  unfold presentable, source_of, source_failure, address_of, validate_location.
  destruct (content (payload ctx)) as [text|]; [|reflexivity].
  destruct (shorten_some 200 text) as [r [-> _]]. simpl.
  destruct (geo_point (payload ctx)) as [[[a|] [b|]]|]; simpl;
    try discriminate; reflexivity.
Qed.

Lemma format_sources_ok (held : Candidate -> option (option string))
  (contexts : list Candidate) :
  Forall (fun c => presentable c = true) contexts ->
  exists l, _format_sources held contexts = Ok l.
Proof.
  intro H. apply mapM_total.
  eapply Forall_impl; [|exact H]. intros ctx Hctx.
  destruct (source_of_ok held ctx Hctx) as [s [-> _]]. reflexivity.
Qed.

Lemma format_sources_inv (held : Candidate -> option (option string))
  (contexts : list Candidate) (l : list Source) :
  _format_sources held contexts = Ok l ->
  Forall2
    (fun ctx s =>
       presentable ctx = true /\ source_id s = key ctx /\
       relevance_score s = py_round (score ctx) 4 /\
       (String.length (snippet s) <= 203)%nat)
    contexts l.
Proof.
  intro H. apply mapM_ok in H.
  induction H as [|ctx s cs ss Hs _ IH]; constructor; [|exact IH].
  destruct (presentable ctx) eqn:E.
  - destruct (source_of_ok held ctx E) as [s' [Hs' Hrest]].
    assert (s' = s) as -> by congruence. tauto.
  - rewrite (source_of_raises held ctx E) in Hs. discriminate.
Qed.

Lemma format_sources_raises (held : Candidate -> option (option string))
  (good rest : list Candidate) (ctx : Candidate) :
  Forall (fun c => presentable c = true) good ->
  presentable ctx = false ->
  _format_sources held (good ++ ctx :: rest) = Raise (source_failure ctx).
Proof.
  intros Hgood Hbad. unfold _format_sources.
  induction Hgood as [|c l Hc _ IH]; simpl.
  - rewrite (source_of_raises held ctx Hbad). reflexivity.
  - destruct (source_of_ok held c Hc) as [s [-> _]]. simpl.
    rewrite IH. reflexivity.
Qed.

(** X22. [_format_sources] returns exactly when every context has a
    content and a [geo_point] with two numbers; the first context that
    does not decides the exception ([TypeError] without content,
    [AttributeError] with [geo_point] [None], a validation error with a
    coordinate [None]). What it returns has one source per context, in
    order, under the entry id of the context, with a snippet of at most
    203 characters and the score rounded to four digits, within 0.00005 of
    the score; so contexts in non-increasing order of score give sources
    in non-increasing order of relevance. *)
Theorem format_sources_outcome :
  forall (held : Candidate -> option (option string)) (contexts : list Candidate),
    (Forall (fun c => presentable c = true) contexts <->
     exists l, _format_sources held contexts = Ok l) /\
    (forall good ctx rest,
        contexts = good ++ ctx :: rest ->
        Forall (fun c => presentable c = true) good ->
        presentable ctx = false ->
        _format_sources held contexts = Raise (source_failure ctx)) /\
    (forall l,
        _format_sources held contexts = Ok l ->
        map source_id l = map key contexts /\
        Forall2
          (fun ctx s =>
             (String.length (snippet s) <= 203)%nat /\
             relevance_score s = py_round (score ctx) 4 /\
             - (1 # 20000) <= relevance_score s - score ctx <= 1 # 20000)
          contexts l /\
        ((forall c1 a b c2, contexts = c1 ++ a :: b :: c2 -> score b <= score a) ->
         forall l1 s t l2,
           l = l1 ++ s :: t :: l2 -> relevance_score t <= relevance_score s)).
Proof.
  intros held contexts. split; [|split].
  - split; [apply format_sources_ok|].
    intros [l Hl]. apply format_sources_inv in Hl.
    clear held. induction Hl as [|ctx s cs ss [Hp _] _ IH]; constructor; assumption.
  - intros good ctx rest -> Hgood Hbad. apply format_sources_raises; assumption.
  - intros l Hl. apply format_sources_inv in Hl. split; [|split].
    + induction Hl as [|ctx s cs ss [_ [Hid _]] _ IH]; [reflexivity|].
      simpl. rewrite Hid, IH. reflexivity.
    + induction Hl as [|ctx s cs ss [_ [_ [Hr Hlen]]] _ IH]; constructor;
        [|exact IH].
      split; [exact Hlen|]. split; [exact Hr|].
      rewrite Hr. apply py_round_4_error.
    + intros Hsorted l1 s t l2 Heq. subst l.
      apply Forall2_app_inv_r in Hl as [c1 [crest [_ [Hrest ->]]]].
      inversion Hrest as [|a s' crest' srest [_ [_ [Hs _]]] Hrest']; subst.
      inversion Hrest' as [|b t' c2 l2' [_ [_ [Ht _]]] _]; subst.
      rewrite Hs, Ht. apply py_round_mono.
      exact (Hsorted c1 a b c2 eq_refl).
Qed.

Lemma format_sources_outcome_witness :
  map source_id ranked_sources = ["a"; "c"]%string /\
  map relevance_score ranked_sources = [py_round 0.88 4; py_round 0.70004 4] /\
  py_round 0.70004 4 == 0.7 /\
  _format_sources no_display_time [described; unlocated] = Raise AttributeError.
Proof.
  destruct (format_sources_outcome no_display_time ranked) as [_ [_ Hok]].
  destruct (format_sources_outcome no_display_time [described; unlocated])
    as [_ [Hfirst _]].
  destruct (Hok ranked_sources) as [Hids _]; [reflexivity|].
  split; [exact Hids|]. split; [reflexivity|]. split; [reflexivity|].
  apply (Hfirst [described] unlocated []);
    [reflexivity | repeat constructor | reflexivity].
Defined.

(** ** A query *)

Lemma presentable_describable (ctx : Candidate) :
  presentable ctx = true -> describable ctx = true.
Proof.
  unfold presentable, describable.
  destruct (content (payload ctx)); [|discriminate].
  destruct (geo_point (payload ctx)); [reflexivity | discriminate].
Qed.

Lemma build_context_ok (held : Candidate -> option (option string))
  (contexts : list Candidate) :
  Forall (fun c => describable c = true) contexts ->
  exists text, _build_context held contexts = Ok text.
Proof.
  intro H. unfold _build_context.
  destruct (context_parts_ok held contexts 1 H) as [parts [-> _]]. simpl. eauto.
Qed.

Lemma build_context_errors (held : Candidate -> option (option string))
  (contexts : list Candidate) (e : exn) :
  _build_context held contexts = Raise e -> e = AttributeError \/ e = TypeError.
Proof.
  intro H.
  destruct (Forall_Exists_dec (fun c => describable c = true)
              (fun c => bool_dec (describable c) true) contexts) as [Hall | Hex].
  - destruct (build_context_ok held contexts Hall) as [text Ht]. congruence.
  - destruct (first_undescribable contexts) as [good [ctx [rest [-> [Hg Hb]]]]].
    + intro Hall. apply Exists_Forall_neg in Hex; [contradiction|].
      intro c. destruct (bool_dec (describable c) true); auto.
    + unfold _build_context in H.
      rewrite (context_parts_raises held good rest ctx 1 Hg Hb) in H.
      simpl in H. injection H as <-.
      destruct (geo_point (payload ctx)); auto.
Qed.

Lemma build_context_inv (held : Candidate -> option (option string))
  (contexts : list Candidate) (text : string) :
  _build_context held contexts = Ok text ->
  Forall (fun c => describable c = true) contexts.
Proof.
  intro H.
  destruct (Forall_Exists_dec (fun c => describable c = true)
              (fun c => bool_dec (describable c) true) contexts) as [Hall | Hex];
    [exact Hall|].
  exfalso.
  destruct (first_undescribable contexts) as [good [ctx [rest [-> [Hg Hb]]]]].
  - intro Hall. apply Exists_Forall_neg in Hex; [contradiction|].
    intro c. destruct (bool_dec (describable c) true); auto.
  - unfold _build_context in H.
    rewrite (context_parts_raises held good rest ctx 1 Hg Hb) in H. discriminate.
Qed.

Lemma format_sources_presentable (held : Candidate -> option (option string))
  (contexts : list Candidate) (l : list Source) :
  _format_sources held contexts = Ok l ->
  Forall (fun c => presentable c = true) contexts /\
  map source_id l = map key contexts.
Proof.
  intro H. apply format_sources_inv in H. split.
  - clear held. induction H as [|ctx s cs ss [Hp _] _ IH]; constructor; assumption.
  - induction H as [|ctx s cs ss [_ [Hid _]] _ IH]; [reflexivity|].
    simpl. rewrite Hid, IH. reflexivity.
Qed.

Lemma retrieve_length (get_db : result Session) (db_first : bool)
  (self : HybridRetriever) (query_intent : QueryIntent) (top_k : Z)
  (out : list Candidate) :
  (0 <= top_k)%Z ->
  retrieve get_db db_first self query_intent top_k = Ok out ->
  (Z.of_nat (List.length out) <= top_k)%Z.
Proof.
  intros Hk H. apply retrieve_ok in H as [v [d [reranked [_ [_ [_ ->]]]]]].
  rewrite prefix_firstn by exact Hk.
  pose proof (firstn_le_length (Z.to_nat top_k) reranked). lia.
Qed.

(** X23. The outcomes of [query]. An exception of the query understanding
    or of the retrieval is the exception of [query]. A retrieval that
    finds nothing gives the fixed answer with no source and a duration of
    0, whatever the generator is. Otherwise a response is returned only if
    every retrieved context has a content and a [geo_point] with two
    numbers; it then carries the answer of the model to the prompt built
    from the contexts and one source per context, in ranking order, at
    most [top_k] of them (5 without options); and one context without
    content or with [geo_point] [None] makes [query] raise, whatever the
    model would have answered. *)
Theorem query_outcomes :
  forall (get_db : result Session) (db_first : bool)
         (held : Candidate -> option (option string)) (elapsed_ms : Q)
         (self : RAGService) (query_text : string)
         (filters : option Filters) (options : option Options),
    let run := query get_db db_first held elapsed_ms self query_text filters options in
    (forall e, query_understanding self query_text filters = Raise e -> run = Raise e) /\
    (forall query_intent,
        query_understanding self query_text filters = Ok query_intent ->
        let retrieved :=
          retrieve get_db db_first (retriever self) query_intent (top_k_of options) in
        (forall e, retrieved = Raise e -> run = Raise e) /\
        (retrieved = Ok [] ->
         run = Ok (mkQueryResponse not_found [] 0 (model (generator self)))) /\
        (forall contexts,
            retrieved = Ok contexts -> contexts <> [] ->
            (forall response,
                run = Ok response ->
                Forall (fun c => presentable c = true) contexts /\
                map source_id (sources response) = map key contexts /\
                ((0 <= top_k_of options)%Z ->
                 (Z.of_nat (List.length (sources response)) <= top_k_of options)%Z) /\
                exists text,
                  _build_context held contexts = Ok text /\
                  messages_create (generator self) (prompt query_text text)
                  = Ok (answer response)) /\
            (~ Forall (fun c => describable c = true) contexts ->
             exists e, run = Raise e /\ (e = AttributeError \/ e = TypeError)))).
Proof.
  intros get_db db_first held elapsed_ms self query_text filters options run.
  unfold run, query. split.
  - intros e ->. reflexivity.
  - intros query_intent ->. simpl. split; [|split].
    + intros e ->. reflexivity.
    + intros ->. reflexivity.
    + intros contexts Hret Hne. rewrite Hret. simpl.
      destruct contexts as [|c0 cs]; [congruence|]. split.
      * intros response H.
        apply bind_ok in H as [answer_text [Hgen H]].
        apply bind_ok in H as [formatted [Hfmt H]]. injection H as <-. simpl.
        unfold generate in Hgen. apply bind_ok in Hgen as [text [Htext Hllm]].
        destruct (format_sources_presentable held _ _ Hfmt) as [Hall Hids].
        split; [exact Hall|]. split; [exact Hids|]. split; [|eauto].
        intro Hk. pose proof (retrieve_length _ _ _ _ _ _ Hk Hret) as Hlen.
        assert (List.length formatted = List.length (c0 :: cs)) as ->; [|exact Hlen].
        rewrite <- (length_map source_id), Hids, length_map. reflexivity.
      * intro Hbad. unfold generate.
        destruct (_build_context held (c0 :: cs)) as [text|e] eqn:E.
        -- exfalso. apply Hbad. exact (build_context_inv _ _ _ E).
        -- exists e. split; [reflexivity|]. exact (build_context_errors _ _ _ E).
Qed.

Lemma query_outcomes_witness :
  query (Ok no_rows) false no_display_time 12 (service no_points) "q" None None
  = Ok (mkQueryResponse not_found [] 0 "claude") /\
  exists e,
    query (Ok no_rows) false no_display_time 12 (service patchy) "q" None None
    = Raise e /\ (e = AttributeError \/ e = TypeError).
Proof.
  split.
  - destruct (query_outcomes (Ok no_rows) false no_display_time 12
                (service no_points) "q" None None) as [_ H].
    destruct (H (Sample.intent None None) eq_refl) as [_ [Hempty _]].
    apply Hempty. reflexivity.
  - destruct (query_outcomes (Ok no_rows) false no_display_time 12
                (service patchy) "q" None None) as [_ H].
    destruct (H (Sample.intent None None) eq_refl) as [_ [_ Hsome]].
    destruct (Hsome (returned (retrieve (Ok no_rows) false (connected patchy)
                                 (Sample.intent None None) 5)))
      as [_ Hbad]; [reflexivity | discriminate |].
    apply Hbad. intro Hall. inversion Hall as [|c l Hc _]. discriminate.
Defined.

(** ** A streamed query *)

Lemma generate_stream_after_sources (held : Candidate -> option (option string))
  (g : LLMGenerator) (query_text : string) (contexts : list Candidate)
  (l : list Source) :
  _format_sources held contexts = Ok l ->
  exists text,
    _build_context held contexts = Ok text /\
    generate_stream held g query_text contexts
    = (map delta_text
         (filter (fun ev => String.eqb (event_type ev) "content_block_delta")
            (fst (messages_stream g (prompt query_text text)))),
       snd (messages_stream g (prompt query_text text))).
Proof.
  intro Hfmt. apply format_sources_presentable in Hfmt as [Hall _].
  destruct (build_context_ok held contexts) as [text Htext].
  - eapply Forall_impl; [|exact Hall]. exact presentable_describable.
  - exists text. split; [exact Htext|]. unfold generate_stream. rewrite Htext.
    destruct (messages_stream g (prompt query_text text)). reflexivity.
Qed.

Lemma query_stream_shape (get_db : result Session) (db_first : bool)
  (held : Candidate -> option (option string)) (self : RAGService)
  (query_text : string) (filters : option Filters) (options : option Options)
  (events : list Event) (failure : option exn) :
  query_stream get_db db_first held self query_text filters options
  = (events, failure) ->
  (events = [] /\ failure <> None) \/
  exists formatted contents,
    events
    = SourcesEvent formatted :: map ContentEvent contents
      ++ match failure with
         | None => [DoneEvent]
         | Some _ => []
         end.
Proof.
  unfold query_stream.
  destruct (query_understanding self query_text filters) as [query_intent|e0].
  2:{ intro H. injection H as <- <-. left. split; congruence. }
  destruct (retrieve get_db db_first (retriever self) query_intent (top_k_of options))
    as [contexts|e0].
  2:{ intro H. injection H as <- <-. left. split; congruence. }
  destruct (_format_sources held contexts) as [formatted|e0] eqn:Hfmt.
  2:{ intro H. injection H as <- <-. left. split; congruence. }
  destruct contexts as [|c0 cs].
  - intro H. injection H as <- <-.
    right. exists formatted, [not_found]. reflexivity.
  - destruct (generate_stream_after_sources held (generator self) query_text
                (c0 :: cs) formatted Hfmt) as [text [_ ->]].
    intro H. injection H as <- <-.
    right. exists formatted. eexists. rewrite <- map_map. reflexivity.
Qed.

(** X24. What [query_stream] yields. Either nothing, and then it ended
    with an exception (of the query understanding, of the retrieval or of
    the source formatter); or first the record of the sources, then
    content records only, and last the record [done], which is there
    exactly when no exception ended the stream. Once the sources have been
    yielded, only the stream of the model can fail: the contexts that the
    source formatter accepted, the context builder accepts. *)
Theorem query_stream_protocol :
  forall (get_db : result Session) (db_first : bool)
         (held : Candidate -> option (option string))
         (self : RAGService) (query_text : string)
         (filters : option Filters) (options : option Options)
         (events : list Event) (failure : option exn),
    query_stream get_db db_first held self query_text filters options
    = (events, failure) ->
    ((events = [] /\ failure <> None) \/
     exists formatted contents,
       events
       = SourcesEvent formatted :: map ContentEvent contents
         ++ match failure with
            | None => [DoneEvent]
            | Some _ => []
            end) /\
    (forall e, failure = Some e -> events <> [] ->
       exists p, snd (messages_stream (generator self) p) = Some e).
Proof.
  intros get_db db_first held self query_text filters options events failure.
  unfold query_stream.
  destruct (query_understanding self query_text filters) as [query_intent|e0].
  2:{ intro H. injection H as <- <-. split; [left; split; congruence | congruence]. }
  destruct (retrieve get_db db_first (retriever self) query_intent (top_k_of options))
    as [contexts|e0].
  2:{ intro H. injection H as <- <-. split; [left; split; congruence | congruence]. }
  destruct (_format_sources held contexts) as [formatted|e0] eqn:Hfmt.
  2:{ intro H. injection H as <- <-. split; [left; split; congruence | congruence]. }
  destruct contexts as [|c0 cs].
  - intro H. injection H as <- <-. split; [|congruence].
    right. exists formatted, [not_found]. reflexivity.
  - destruct (generate_stream_after_sources held (generator self) query_text
                (c0 :: cs) formatted Hfmt) as [text [_ ->]].
    intro H. injection H as <- <-. split.
    + right. exists formatted. eexists. rewrite <- map_map. reflexivity.
    + intros e He _. eexists. exact He.
Qed.

Lemma query_stream_protocol_witness :
  query_stream (Ok no_rows) false no_display_time (service library) "q" None None
  = ([SourcesEvent (returned_sources
                      (_format_sources no_display_time
                         (returned (retrieve (Ok no_rows) false (connected library)
                                      (Sample.intent None None) 5))));
      ContentEvent "An "; ContentEvent "answer."; DoneEvent], None) /\
  exists formatted contents,
    [SourcesEvent (returned_sources
                     (_format_sources no_display_time
                        (returned (retrieve (Ok no_rows) false (connected library)
                                     (Sample.intent None None) 5))));
     ContentEvent "An "; ContentEvent "answer."; DoneEvent]
    = SourcesEvent formatted :: map ContentEvent contents ++ [DoneEvent].
Proof.
  assert (query_stream (Ok no_rows) false no_display_time (service library)
            "q" None None
          = ([SourcesEvent (returned_sources
                              (_format_sources no_display_time
                                 (returned (retrieve (Ok no_rows) false
                                              (connected library)
                                              (Sample.intent None None) 5))));
              ContentEvent "An "; ContentEvent "answer."; DoneEvent], None)) as Hrun
      by (vm_compute; reflexivity).
  split; [exact Hrun|].
  destruct (query_stream_protocol _ _ _ _ _ _ _ _ _ Hrun) as [[[Hnil _] | H] _].
  - discriminate.
  - exact H.
Defined.

(* ================================================================== *)
(** * The routes *)

(** X25. The stream of the route [/query/stream] always ends with exactly
    one terminal record, [done] or the error record, and holds none before
    it: [done] when the service yielded its records to the end, the error
    record, after whatever the service had yielded, when an exception
    ended it. *)
Theorem stream_generator_terminal :
  forall (get_db : result Session) (db_first : bool)
         (held : Candidate -> option (option string)) (describe : exn -> string)
         (rag_service : RAGService) (query_text : string)
         (filters : option Filters) (options : option Options),
    exists body last,
      stream_generator get_db db_first held describe rag_service
        query_text filters options
      = body ++ [last] /\
      Forall (fun l => terminal l = false) body /\
      match snd (query_stream get_db db_first held rag_service
                   query_text filters options) with
      | None => last = Chunk DoneEvent
      | Some e => last = ErrorLine (describe e)
      end.
Proof.
  intros get_db db_first held describe rag_service query_text filters options.
  unfold stream_generator.
  destruct (query_stream get_db db_first held rag_service query_text filters options)
    as [events failure] eqn:Hrun.
  destruct (query_stream_shape _ _ _ _ _ _ _ _ _ Hrun)
    as [[-> Hfail] | [formatted [contents ->]]]; simpl.
  - destruct failure as [e|]; [|congruence].
    exists [], (ErrorLine (describe e)). repeat split. constructor.
  - assert (Forall (fun l => terminal l = false)
              (map Chunk (SourcesEvent formatted :: map ContentEvent contents)))
      as Hbody.
    { clear Hrun. simpl. constructor; [reflexivity|].
      induction contents as [|c l IH]; simpl; [constructor|].
      constructor; [reflexivity | exact IH]. }
    destruct failure as [e|].
    + exists (map Chunk (SourcesEvent formatted :: map ContentEvent contents)),
             (ErrorLine (describe e)).
      rewrite app_nil_r. simpl. repeat split. exact Hbody.
    + exists (map Chunk (SourcesEvent formatted :: map ContentEvent contents)),
             (Chunk DoneEvent).
      split; [|split; [exact Hbody | reflexivity]].
      simpl. rewrite app_nil_r, map_app. reflexivity.
Qed.

(** X26. The route [/query] tells a failure from an empty result. Without
    a service in the application state it answers 503. With one, an
    unconnected vector store makes it answer 500 with the description of
    an exception of one of the two retrievals, never a response; whereas a
    retrieval that finds nothing makes it respond with the fixed answer
    and no source. *)
Theorem query_route_outcomes :
  forall (get_db : result Session) (db_first : bool)
         (held : Candidate -> option (option string)) (elapsed_ms : Q)
         (describe : exn -> string) (state : option RAGService)
         (query_text : string) (filters : option Filters) (options : option Options),
    let route :=
      query_route get_db db_first held elapsed_ms describe state
        query_text filters options in
    (state = None -> route = HTTPException 503 "RAG service not initialized") /\
    (forall rag_service query_intent,
        state = Some rag_service ->
        query_understanding rag_service query_text filters = Ok query_intent ->
        (client (vector_store (retriever rag_service)) = None ->
         exists e,
           route = HTTPException 500 (describe e) /\
           (e = not_connected \/
            _db_retrieval get_db query_intent (top_k_of options * 2) = Raise e)) /\
        (retrieve get_db db_first (retriever rag_service) query_intent
           (top_k_of options) = Ok [] ->
         route
         = Respond (mkQueryResponse not_found [] 0 (model (generator rag_service))))).
Proof.
  intros get_db db_first held elapsed_ms describe state query_text filters options
         route.
  unfold route, query_route. split.
  - intros ->. reflexivity.
  - intros rag_service query_intent -> Hparse. simpl. unfold query.
    rewrite Hparse. simpl. split.
    + intro Hclient. unfold retrieve.
      assert (_vector_retrieval (retriever rag_service) query_intent
                (top_k_of options * 2) = Raise not_connected) as ->
          by (apply search_not_connected; exact Hclient).
      destruct (_db_retrieval get_db query_intent (top_k_of options * 2))
        as [d|ed]; simpl.
      * exists not_connected. split; [reflexivity | left; reflexivity].
      * destruct db_first; simpl.
        -- exists ed. split; [reflexivity | right; reflexivity].
        -- exists not_connected. split; [reflexivity | left; reflexivity].
    + intros ->. reflexivity.
Qed.

Lemma query_route_outcomes_witness :
  query_route (Ok no_rows) false no_display_time 12 describe_briefly
    (Some unconnected_service) "q" None None
  = HTTPException 500 "Qdrant client not connected" /\
  query_route (Ok no_rows) false no_display_time 12 describe_briefly
    (Some (service no_points)) "q" None None
  = Respond (mkQueryResponse not_found [] 0 "claude").
Proof.
  split.
  - destruct (query_route_outcomes (Ok no_rows) false no_display_time 12
                describe_briefly (Some unconnected_service) "q" None None)
      as [_ H].
    destruct (H unconnected_service (Sample.intent None None) eq_refl eq_refl)
      as [Hfail _].
    destruct (Hfail eq_refl) as [e [Hroute [-> | Hdb]]].
    + exact Hroute.
    + discriminate.
  - destruct (query_route_outcomes (Ok no_rows) false no_display_time 12
                describe_briefly (Some (service no_points)) "q" None None)
      as [_ H].
    destruct (H (service no_points) (Sample.intent None None) eq_refl eq_refl)
      as [_ Hempty].
    apply Hempty. reflexivity.
Defined.

(* ================================================================== *)
(** * Candidates without a geo point (C6, C7) *)












